(** * Workflow orchestrator: registry, routing and thread store

    A shallow embedding of the graph registry ([GraphBuilderService]), the
    routing and thread lifecycle code ([WorkflowOrchestratorService]) and the
    in-memory thread store ([InMemoryThreadStoreRepository]), followed by the
    properties established about them.

    Conventions of the embedding:
    - a JavaScript object used as a dictionary is a [gmap string _] of its own
      properties; a read [obj[k]] that finds no own property goes on to the
      prototype, and an assignment to [__proto__] replaces the prototype
      instead of creating a property; where the iteration order of the keys
      is observable (the selection-word registry walked by the router, the
      [Map] of scores, the [Map] of thread records) the container is the list
      of its entries in iteration order;
    - [undefined] / [null] results are [option]; a [throw] is the [Throw]
      outcome of [Result], returned next to the state reached at the throw;
    - dates are their [getTime()] value in milliseconds, a [Z]; the numeric
      configuration of the router is integral, so scores are integers,
      together with the two special values the code can produce or start from;
    - the clock ([Date.now()], [new Date()]) and [Math.random()] are inputs;
    - logging has no effect on any value and is left out. *)

From Stdlib Require Import ZArith Lia Ascii.
From stdpp Require Import base gmap strings list fin_maps sorting pretty.

Local Open Scope Z_scope.

(** ** JavaScript values and containers *)

Module JS.

Inductive exn : Type :=
| Error (msg : string)
| TypeError (msg : string).

Inductive Result (A : Type) : Type :=
| Normal (a : A)
| Throw (e : exn).
Arguments Normal {A} a.
Arguments Throw {A} e.

(** [s.startsWith(p)] and [s.includes(w)]. *)
Definition startsWith (s p : string) : bool := String.prefix p s.

Fixpoint includes (s w : string) : bool :=
  startsWith s w ||
  match s with
  | EmptyString => false
  | String _ s' => includes s' w
  end.

(** The values of type [any] that occur in the state objects. *)
#[local] Unset Elimination Schemes.
Inductive any : Type :=
| AnyNull
| AnyNum (z : Z)
| AnyStr (s : string)
| AnyArr (items : list any)
| AnyObj (fields : list (string * any)).
#[local] Set Elimination Schemes.

(** Numbers as the router uses them: integers, [-Infinity] (the initial
    maximum) and [NaN] (arithmetic on [undefined]). *)
Inductive number : Type :=
| NaN
| NegInfinity
| Num (z : Z).

Definition add (a b : number) : number :=
  match a, b with
  | Num x, Num y => Num (x + y)
  | NegInfinity, Num _ | Num _, NegInfinity | NegInfinity, NegInfinity => NegInfinity
  | _, _ => NaN
  end.

(** [a > b]: every comparison with [NaN] is false. *)
Definition gt (a b : number) : bool :=
  match a, b with
  | Num x, Num y => bool_decide (y < x)
  | Num _, NegInfinity => true
  | _, _ => false
  end.

(** A [Map<string, V>]: entries in insertion order. [set] on a key already
    present overwrites the value and keeps the position. *)
Abbreviation Map V := (list (string * V)).

Fixpoint Map_get {V} (m : Map V) (k : string) : option V :=
  match m with
  | [] => None
  | (k', v) :: m' => if decide (k' = k) then Some v else Map_get m' k
  end.

Fixpoint Map_set {V} (m : Map V) (k : string) (v : V) : Map V :=
  match m with
  | [] => [(k, v)]
  | (k', v') :: m' =>
      if decide (k' = k) then (k, v) :: m' else (k', v') :: Map_set m' k v
  end.

Definition Map_keys {V} (m : Map V) : list string := m.*1.
Definition Map_values {V} (m : Map V) : list V := m.*2.

(** *** Plain objects used as dictionaries *)

(** The property names of [Object.prototype]. Every plain object has them
    through its prototype. Their values are functions, except that
    [__proto__] reads as [Object.prototype] itself; all of them are truthy. *)
Definition objectPrototypeNames : list string :=
  ["constructor"; "__defineGetter__"; "__defineSetter__"; "hasOwnProperty";
   "__lookupGetter__"; "__lookupSetter__"; "isPrototypeOf";
   "propertyIsEnumerable"; "toString"; "valueOf"; "__proto__";
   "toLocaleString"]%string.

Definition isObjectPrototypeName (k : string) : bool :=
  existsb (String.eqb k) objectPrototypeNames.

(** What a read [obj[k]] finds that is not [undefined]: the value of an own
    property, or the member of [Object.prototype] of that name. *)
Inductive Property (V : Type) : Type :=
| Own (v : V)
| Inherited (member : string).
Arguments Own {V} v.
Arguments Inherited {V} member.

(** [obj[k]] for an object with own properties [own] whose prototype is
    [Object.prototype]. *)
Definition getProperty {V} (own : gmap string V) (k : string) : option (Property V) :=
  match own !! k with
  | Some v => Some (Own v)
  | None => if isObjectPrototypeName k then Some (Inherited k) else None
  end.

(** The value of a decimal digit. *)
Definition digitOf (c : ascii) : option N :=
  let n := N_of_ascii c in
  if ((48 <=? n) && (n <=? 57))%N then Some (n - 48)%N else None.

Fixpoint digitsValue (acc : N) (s : string) : option N :=
  match s with
  | EmptyString => Some acc
  | String c s' =>
      match digitOf c with
      | Some d => digitsValue (10 * acc + d)%N s'
      | None => None
      end
  end.

(** A property name that is an array index: the decimal numeral, without
    leading zero, of a number up to 2^32 - 2. *)
Definition arrayIndex (k : string) : option N :=
  match k with
  | EmptyString => None
  | String c rest =>
      if Ascii.eqb c "0" && negb (String.eqb rest "") then None
      else
        match digitsValue 0 k with
        | Some n => if (n <=? 4294967294)%N then Some n else None
        | None => None
        end
  end.

(** The own properties of an object in the order of [Object.keys] and
    [Object.entries]: the array indices in ascending order, then the other
    names in the order of their creation. [insertIndexed m i k v] creates the
    property [k], whose index is [i]. *)
Fixpoint insertIndexed {V} (m : Map V) (i : N) (k : string) (v : V) : Map V :=
  match m with
  | [] => [(k, v)]
  | (k', v') :: m' =>
      match arrayIndex k' with
      | Some j => if (j <? i)%N then (k', v') :: insertIndexed m' i k v else (k, v) :: m
      | None => (k, v) :: m
      end
  end.

(** [k1] may come before [k2] in that order. *)
Definition keyBefore (k1 k2 : string) : Prop :=
  match arrayIndex k1, arrayIndex k2 with
  | Some i, Some j => (i ≤ j)%N
  | None, Some _ => False
  | _, None => True
  end.

Definition propertyOrdered (keys : list string) : Prop := StronglySorted keyBefore keys.

(** [obj[k] = v] on such a list of own properties: an existing property keeps
    its place, a new one is created at the place its name gives it, and an
    assignment to [__proto__] creates no property (it replaces the prototype
    of the object). *)
Definition Object_set {V} (m : Map V) (k : string) (v : V) : Map V :=
  if String.eqb k "__proto__" then m
  else
    match arrayIndex k, Map_get m k with
    | Some i, None => insertIndexed m i k v
    | _, _ => Map_set m k v
    end.

End JS.

(** ** The graph registry: [GraphBuilderService] *)

Module GraphBuilder.
Import JS.

Inductive BaseMessage : Type :=
| HumanMessage (text : string)
| AIMessage (text : string).

Record Ids : Type := mkIds {
  ids_activeThreadId : string;
  ids_rootId : string;
  ids_userId : string }.

Record Disclosure : Type := mkDisclosure {
  nodeId : string;
  title : string;
  disclosureText : string }.

(** [GraphState] is a union of [Partial<...>] state shapes: every field of
    every shape, each one optional. *)
Record GraphState : Type := mkGraphState {
  activeThreadId : option string;
  messages : option (list BaseMessage);
  rootId : option string;
  userId : option string;
  currentStep : option string;
  currentSteps : option (list string);
  analysisResults : option (gmap string any);
  currentMonetizationAgent : option string;
  monetizationAgents : option (list string);
  originalDisclosure : option (option Disclosure);
  marketAnalysis : option (gmap string any) }.

Definition GRAPH_TYPES : list string :=
  ["monetizationGraph"; "researchGraph"; "concurrentResearchGraph"]%string.

Definition makeMonetization (msgs : list BaseMessage) (ids : Ids) : GraphState :=
  {| activeThreadId := Some (ids_activeThreadId ids);
     currentMonetizationAgent := Some ""%string;
     marketAnalysis := Some ∅;
     messages := Some msgs;
     monetizationAgents := Some [];
     originalDisclosure := Some None;
     rootId := Some (ids_rootId ids);
     userId := Some (ids_userId ids);
     currentStep := None; currentSteps := None; analysisResults := None |}.

Definition makeResearch (msgs : list BaseMessage) (ids : Ids) : GraphState :=
  {| activeThreadId := Some (ids_activeThreadId ids);
     analysisResults := Some ∅;
     currentStep := Some ""%string;
     messages := Some msgs;
     rootId := Some (ids_rootId ids);
     userId := Some (ids_userId ids);
     currentSteps := None; currentMonetizationAgent := None;
     monetizationAgents := None; originalDisclosure := None;
     marketAnalysis := None |}.

Definition makeConcurrentResearch (msgs : list BaseMessage) (ids : Ids) : GraphState :=
  {| activeThreadId := Some (ids_activeThreadId ids);
     analysisResults := Some ∅;
     currentSteps := Some [];
     messages := Some msgs;
     rootId := Some (ids_rootId ids);
     userId := Some (ids_userId ids);
     currentStep := None; currentMonetizationAgent := None;
     monetizationAgents := None; originalDisclosure := None;
     marketAnalysis := None |}.

Definition makeDefault (msgs : list BaseMessage) (ids : Ids) : GraphState :=
  {| activeThreadId := Some (ids_activeThreadId ids);
     analysisResults := Some ∅;
     currentStep := Some ""%string;
     messages := Some msgs;
     rootId := Some (ids_rootId ids);
     userId := Some (ids_userId ids);
     currentSteps := None; currentMonetizationAgent := None;
     monetizationAgents := None; originalDisclosure := None;
     marketAnalysis := None |}.

(** [(GRAPH_TYPES as readonly string[]).includes(x)] *)
Definition isGraphType (x : string) : bool :=
  existsb (String.eqb x) GRAPH_TYPES.

Definition makeInitialState (graphType : string) (msgs : list BaseMessage)
    (ids : Ids) : GraphState :=
  if String.eqb graphType "monetizationGraph" then makeMonetization msgs ids
  else if String.eqb graphType "researchGraph" then makeResearch msgs ids
  else if String.eqb graphType "concurrentResearchGraph" then
    makeConcurrentResearch msgs ids
  else makeDefault msgs ids.

Definition getInitialStateRuntime (graphTypeStr : string)
    (msgs : list BaseMessage) (ids : Ids) : GraphState :=
  if negb (isGraphType graphTypeStr) then makeDefault msgs ids
  else makeInitialState graphTypeStr msgs ids.

(** The reducers of [ConcurrentResearchGraphAnnotation]:
    [(a, b) => a.concat(b)] for [messages] and [currentSteps],
    [(a, b) => ({ ...a, ...b })] for [analysisResults]. The spread copies the
    properties of [a], then those of [b] over them. *)
Definition concatReducer {A} (a b : list A) : list A := a ++ b.

Definition spreadReducer {V} (a b : gmap string V) : gmap string V :=
  map_fold (fun k v acc => <[k := v]> acc) (map_fold (fun k v acc => <[k := v]> acc) ∅ a) b.

(** *** Registration and lazy compilation *)

Inductive AnnotationRoot : Type :=
| ResearchGraphAnnotation
| MonetizationGraphAnnotation
| ConcurrentResearchGraphAnnotation
| DefaultGraphAnnotation.

(** [this.annotationsMap[annotationName]]: the object has the four
    annotations as own properties. *)
Definition annotationsMap (annotationName : string) : option (Property AnnotationRoot) :=
  if String.eqb annotationName "ResearchGraphAnnotation" then
    Some (Own ResearchGraphAnnotation)
  else if String.eqb annotationName "MonetizationGraphAnnotation" then
    Some (Own MonetizationGraphAnnotation)
  else if String.eqb annotationName "ConcurrentResearchGraphAnnotation" then
    Some (Own ConcurrentResearchGraphAnnotation)
  else if String.eqb annotationName "DefaultGraphAnnotation" then
    Some (Own DefaultGraphAnnotation)
  else if isObjectPrototypeName annotationName then Some (Inherited annotationName)
  else None.

(** A node function is a method of the service's prototype, found by name;
    a node name that [nodeFuctionMap] only has through its prototype gives a
    function of [Object.prototype] instead. *)
Inductive NodeFn : Type :=
| Method (methodName : string)
| ObjectPrototypeMethod (member : string).

Definition START : string := "__start__".
Definition END : string := "__end__".

(** The graph library the service builds on. Only its interface is used:
    a builder is created from an annotation, nodes and edges are added to it
    (each call may throw), and a builder is compiled (which may throw).
    Two more entries say what the library does with values that are not
    what it expects: [newStateGraphOfMember k] is [new StateGraph(x)] for [x]
    the member [k] of [Object.prototype]; and [compileProperty b k] is [None]
    when the property [k] of the builder object [b] is [undefined] (or
    falsy), and otherwise what calling [compile] on the value of that
    property does. What a [compile] call returns is taken to be an object.
    The last entry is about an object whose prototype is the builder [b] and
    which has no property [k] of its own: [assignThrough b k] is [None] when
    an assignment to its property [k] creates that property, and [Some e]
    when the assignment throws [e], as it does in strict code when [b] has a
    property [k] that cannot be written. The builders are taken to have no
    setters. *)
Record LangGraph : Type := mkLangGraph {
  StateGraph : Type;
  CompiledStateGraph : Type;
  newStateGraph : AnnotationRoot -> StateGraph;
  addNode : StateGraph -> string -> NodeFn -> Result StateGraph;
  addEdge : StateGraph -> string -> string -> Result StateGraph;
  compile : StateGraph -> Result CompiledStateGraph;
  newStateGraphOfMember : string -> Result StateGraph;
  compileProperty : StateGraph -> string -> option (Result CompiledStateGraph);
  assignThrough : StateGraph -> string -> option exn }.

Record Edge : Type := mkEdge { edge_start : string; edge_end : string }.

Record GraphJsonGraphSpec : Type := mkSpec {
  name : string;
  annotationType : option string;
  nodes : option (list string);
  edges : option (list Edge);
  selectionWords : option (list string) }.

(** The message of the error thrown for a node name without a function. *)
Definition notRegistered (nodeName graphName : string) : exn :=
  Error ("Node function '" +:+ nodeName +:+ "' not registered for graph '" +:+
         graphName +:+ "'").

Section Registry.
Context {L : LangGraph}.

(** The mutable fields of the service that registration and retrieval use.
    [dynamicGraphs], [dynamicGraphBuilders] and [nodeFuctionMap] are the own
    properties of these objects. Nothing replaces the prototype of
    [dynamicGraphs] or of [nodeFuctionMap]; [buildersPrototype] is the
    prototype of [dynamicGraphBuilders] when an assignment to [__proto__] has
    replaced it by a builder, and [None] while it is [Object.prototype].
    [graphSelectionWords] is kept as its own entries in the order of
    [Object.entries], which is the order the router walks; its prototype is
    never read. *)
Record Service : Type := mkService {
  dynamicGraphs : gmap string (CompiledStateGraph L);
  dynamicGraphBuilders : gmap string (StateGraph L);
  buildersPrototype : option (StateGraph L);
  graphSelectionWords : Map (list string);
  nodeFuctionMap : gmap string NodeFn }.

(** [new StateGraph(annotationRoot)] for what [annotationsMap] gave. *)
Definition newBuilder (annotationRoot : Property AnnotationRoot) : Result (StateGraph L) :=
  match annotationRoot with
  | Own root => Normal (newStateGraph L root)
  | Inherited member => newStateGraphOfMember L member
  end.

(** [nodeFn.bind(this)] for a truthy [nodeFn]: the members of
    [Object.prototype] are functions, except [__proto__], which reads as an
    object and has no [bind]. *)
Definition bindNodeFn (nodeFn : Property NodeFn) : Result NodeFn :=
  match nodeFn with
  | Own f => Normal f
  | Inherited member =>
      if String.eqb member "__proto__" then Throw (TypeError "nodeFn.bind is not a function")
      else Normal (ObjectPrototypeMethod member)
  end.

(** The loop over [item.nodes ?? []]. *)
Fixpoint addNodes (this : Service) (graphName : string) (nodeNames : list string)
    (builder : StateGraph L) : Result (StateGraph L) :=
  match nodeNames with
  | [] => Normal builder
  | nodeName :: rest =>
      match getProperty (nodeFuctionMap this) nodeName with
      | None => Throw (notRegistered nodeName graphName)
      | Some nodeFn =>
          match bindNodeFn nodeFn with
          | Throw e => Throw e
          | Normal bound =>
              match addNode L builder nodeName bound with
              | Throw e => Throw e
              | Normal builder' => addNodes this graphName rest builder'
              end
          end
      end
  end.

(** The loop over [item.edges ?? []]. *)
Fixpoint addEdges (edgeList : list Edge) (builder : StateGraph L)
    : Result (StateGraph L) :=
  match edgeList with
  | [] => Normal builder
  | nodeEdgeNames :: rest =>
      let startNode :=
        if String.eqb (edge_start nodeEdgeNames) "__start__" then START
        else edge_start nodeEdgeNames in
      let endNode :=
        if String.eqb (edge_end nodeEdgeNames) "__end__" then END
        else edge_end nodeEdgeNames in
      match addEdge L builder startNode endNode with
      | Throw e => Throw e
      | Normal builder' => addEdges rest builder'
      end
  end.

(** Whether the assignment [this.dynamicGraphBuilders[name] = builder]
    throws: it cannot when the object has the property, when the name is
    [__proto__], or while the prototype is [Object.prototype], whose
    properties can all be written. *)
Definition assignBuilder (this : Service) (graphName : string) : option exn :=
  if String.eqb graphName "__proto__" then None
  else
    match dynamicGraphBuilders this !! graphName, buildersPrototype this with
    | None, Some prototype => assignThrough L prototype graphName
    | _, _ => None
    end.

(** The two assignments that end [registerGraphFromSpec]:
    [this.dynamicGraphBuilders[name] = builder] and
    [this.graphSelectionWords[name] = words]. Under the name [__proto__] the
    first makes [builder] the prototype of [dynamicGraphBuilders] and neither
    creates a property. The second never throws: an array, which is what the
    prototype of [graphSelectionWords] may have become, has no property that
    cannot be written. *)
Definition storeGraph (this : Service) (graphName : string) (builder : StateGraph L)
    (words : list string) : Service :=
  {| dynamicGraphs := dynamicGraphs this;
     dynamicGraphBuilders :=
       if String.eqb graphName "__proto__" then dynamicGraphBuilders this
       else <[graphName := builder]> (dynamicGraphBuilders this);
     buildersPrototype :=
       if String.eqb graphName "__proto__" then Some builder
       else buildersPrototype this;
     graphSelectionWords := Object_set (graphSelectionWords this) graphName words;
     nodeFuctionMap := nodeFuctionMap this |}.

Definition registerGraphFromSpec (item : GraphJsonGraphSpec) (this : Service)
    : Service * Result unit :=
  match annotationType item with
  | None => (this, Normal tt)
  | Some annotationName =>
      if String.eqb annotationName "" then (this, Normal tt)
      else
        match annotationsMap annotationName with
        | None => (this, Normal tt)
        | Some annotationRoot =>
            match newBuilder annotationRoot with
            | Throw e => (this, Throw e)
            | Normal builder =>
            match addNodes this (name item) (default [] (nodes item)) builder with
            | Throw e => (this, Throw e)
            | Normal builder =>
                match addEdges (default [] (edges item)) builder with
                | Throw e => (this, Throw e)
                | Normal builder =>
                    match assignBuilder this (name item) with
                    | Some e => (this, Throw e)
                    | None =>
                        (storeGraph this (name item) builder
                           (default [] (selectionWords item)),
                         Normal tt)
                    end
                end
            end
            end
        end
  end.

(** [const builder = this.dynamicGraphBuilders[name]; if (builder) ...
    builder.compile(...)]: [None] when the value read is [undefined],
    otherwise what the call of [compile] does. A name that is not an own
    property is looked up in the prototype: in the builder that an assignment
    to [__proto__] has put there, or in [Object.prototype], whose members
    have no property [compile]. *)
Definition compileBuilder (this : Service) (graphName : string)
    : option (Result (CompiledStateGraph L)) :=
  match dynamicGraphBuilders this !! graphName with
  | Some builder => Some (compile L builder)
  | None =>
      match buildersPrototype this with
      | Some prototype => compileProperty L prototype graphName
      | None =>
          if isObjectPrototypeName graphName then
            Some (Throw (TypeError "builder.compile is not a function"))
          else None
      end
  end.

(** The value returned is [this.dynamicGraphs[name]] as read at the end: a
    compiled graph, a member of [Object.prototype] when the name is one of
    its property names and no graph is stored under it, or [undefined]. *)
Definition getDynamicGraph (graphName : string) (this : Service)
    : Service * Result (option (Property (CompiledStateGraph L))) :=
  match getProperty (dynamicGraphs this) graphName with
  | Some graph => (this, Normal (getProperty (dynamicGraphs this) graphName))
  | None =>
      match compileBuilder this graphName with
      | Some (Throw e) => (this, Throw e)
      | Some (Normal compiled) =>
          let this' :=
            {| dynamicGraphs := <[graphName := compiled]> (dynamicGraphs this);
               dynamicGraphBuilders := dynamicGraphBuilders this;
               buildersPrototype := buildersPrototype this;
               graphSelectionWords := graphSelectionWords this;
               nodeFuctionMap := nodeFuctionMap this |} in
          (this', Normal (getProperty (dynamicGraphs this') graphName))
      | None => (this, Normal (getProperty (dynamicGraphs this) graphName))
      end
  end.

Definition getAllGraphsAndSelectionWords (this : Service) : Map (list string) :=
  graphSelectionWords this.

End Registry.
Arguments Service L : clear implicits.

(** A stand-in for the graph library: a builder that records what it is
    given and a compiler that keeps the recorded shape. It is used to run the
    registry on concrete specifications. Its builders have no properties
    besides those of [Object.prototype], and it takes nothing but an
    annotation as the schema of a graph. *)
Record Shape : Type := mkShape {
  shape_annotation : AnnotationRoot;
  shape_nodes : list (string * NodeFn);
  shape_edges : list (string * string) }.

Definition recording : LangGraph :=
  {| StateGraph := Shape;
     CompiledStateGraph := Shape;
     newStateGraph := fun a => mkShape a [] [];
     addNode := fun b n f =>
       Normal (mkShape (shape_annotation b) (shape_nodes b ++ [(n, f)]) (shape_edges b));
     addEdge := fun b s e =>
       Normal (mkShape (shape_annotation b) (shape_nodes b) (shape_edges b ++ [(s, e)]));
     compile := fun b => Normal b;
     newStateGraphOfMember := fun _ => Throw (Error "Invalid StateGraph input.");
     compileProperty := fun _ _ => None;
     assignThrough := fun _ _ => None |}.

(** The first endpoint of an edge of [b] that is neither a node of [b] nor
    the start or end marker. *)
Definition unknownEndpoint (b : Shape) : option string :=
  let known n :=
    String.eqb n START || String.eqb n END
    || existsb (fun node => String.eqb n node.1) (shape_nodes b) in
  head (filter (fun n => negb (known n))
               (flat_map (fun e => [e.1; e.2]) (shape_edges b))).

(** A second stand-in, which accepts every edge when it is added and checks
    the endpoints of the edges when the builder is compiled. *)
Definition checking : LangGraph :=
  {| StateGraph := Shape;
     CompiledStateGraph := Shape;
     newStateGraph := newStateGraph recording;
     addNode := addNode recording;
     addEdge := addEdge recording;
     compile := fun b =>
       match unknownEndpoint b with
       | Some n => Throw (Error ("Found edge at unknown node '" +:+ n +:+ "'"))
       | None => Normal b
       end;
     newStateGraphOfMember := newStateGraphOfMember recording;
     compileProperty := compileProperty recording;
     assignThrough := assignThrough recording |}.

End GraphBuilder.

(** ** The thread store: [InMemoryThreadStoreRepository], [ThreadStoreService] *)

Module ThreadStore.
Import JS.

Module ThreadRecord.
Record t : Type := mk {
  id : string;
  userId : string;
  rootThreadId : string;
  threadId : string;
  graphType : string;
  createdAt : Z;
  lastUpdatedAt : Z }.
End ThreadRecord.

Module CreateThreadDto.
Record t : Type := mk {
  userId : string;
  rootThreadId : string;
  threadId : string;
  graphType : string;
  createdAt : option Z;
  lastUpdatedAt : option Z }.
End CreateThreadDto.

Module UpdateLastUpdatedDto.
Record t : Type := mk {
  userId : string;
  threadId : string;
  lastUpdatedAt : option Z }.
End UpdateLastUpdatedDto.

Definition makeKey (userId threadId : string) : string :=
  userId +:+ "::" +:+ threadId.

(** [private store = new Map<string, ThreadRecord>()] *)
Abbreviation Store := (Map ThreadRecord.t).

(** Reading a property of a value that may be [undefined]. *)
Definition getField {A B} (o : option A) (f : A -> B) (field : string) : Result B :=
  match o with
  | Some a => Normal (f a)
  | None =>
      Throw (TypeError ("Cannot read properties of undefined (reading '" +:+
                        field +:+ "')"))
  end.

(** [setLastUpdatedAt t r] is [{ ...r, lastUpdatedAt: t }]. *)
Definition setLastUpdatedAt (t : Z) (r : ThreadRecord.t) : ThreadRecord.t :=
  {| ThreadRecord.id := ThreadRecord.id r;
     ThreadRecord.userId := ThreadRecord.userId r;
     ThreadRecord.rootThreadId := ThreadRecord.rootThreadId r;
     ThreadRecord.threadId := ThreadRecord.threadId r;
     ThreadRecord.graphType := ThreadRecord.graphType r;
     ThreadRecord.createdAt := ThreadRecord.createdAt r;
     ThreadRecord.lastUpdatedAt := t |}.

Module Repository.

(** [now] is the value of [new Date()], read only where a date is missing.
    The test [this.store.has(key)] and the read [this.store.get(key)!] are one
    match. *)
Definition createThread (now : Z) (data : CreateThreadDto.t) (store : Store)
    : Store * ThreadRecord.t :=
  let key := makeKey (CreateThreadDto.userId data) (CreateThreadDto.threadId data) in
  match Map_get store key with
  | Some existing => (store, existing)
  | None =>
      let createdAt := default now (CreateThreadDto.createdAt data) in
      let lastUpdatedAt := default createdAt (CreateThreadDto.lastUpdatedAt data) in
      let record :=
        {| ThreadRecord.id := key;
           ThreadRecord.userId := CreateThreadDto.userId data;
           ThreadRecord.rootThreadId := CreateThreadDto.rootThreadId data;
           ThreadRecord.threadId := CreateThreadDto.threadId data;
           ThreadRecord.graphType := CreateThreadDto.graphType data;
           ThreadRecord.createdAt := createdAt;
           ThreadRecord.lastUpdatedAt := lastUpdatedAt |} in
      (Map_set store key record, record)
  end.

Definition findThreadsByUser (userId : string) (store : Store) : list ThreadRecord.t :=
  filter (fun r => ThreadRecord.userId r = userId) (Map_values store).

Definition findByUserAndThread (userId threadId : string) (store : Store)
    : option ThreadRecord.t :=
  Map_get store (makeKey userId threadId).

Definition updateLastUpdatedAt (now : Z) (data : UpdateLastUpdatedDto.t)
    (store : Store) : Store * Result ThreadRecord.t :=
  let key :=
    makeKey (UpdateLastUpdatedDto.userId data) (UpdateLastUpdatedDto.threadId data) in
  let current := Map_get store key in
  match current with
  | None =>
      let now := default now (UpdateLastUpdatedDto.lastUpdatedAt data) in
      match getField current ThreadRecord.userId "userId" with
      | Throw e => (store, Throw e)
      | Normal userId =>
      match getField current ThreadRecord.rootThreadId "rootThreadId" with
      | Throw e => (store, Throw e)
      | Normal rootThreadId =>
      match getField current ThreadRecord.threadId "threadId" with
      | Throw e => (store, Throw e)
      | Normal threadId =>
      match getField current ThreadRecord.graphType "graphType" with
      | Throw e => (store, Throw e)
      | Normal graphType =>
      match getField current ThreadRecord.createdAt "createdAt" with
      | Throw e => (store, Throw e)
      | Normal createdAt =>
          let record :=
            {| ThreadRecord.id := key;
               ThreadRecord.userId := userId;
               ThreadRecord.rootThreadId := rootThreadId;
               ThreadRecord.threadId := threadId;
               ThreadRecord.graphType := graphType;
               ThreadRecord.createdAt := createdAt;
               ThreadRecord.lastUpdatedAt := now |} in
          (Map_set store key record, Normal record)
      end end end end end
  | Some cur =>
      let updated :=
        setLastUpdatedAt (default now (UpdateLastUpdatedDto.lastUpdatedAt data)) cur in
      (Map_set store key updated, Normal updated)
  end.

Definition findAllThreads (store : Store) : list ThreadRecord.t :=
  Map_values store.

(** One iteration of the loop of [findLastUpdatedThread]; the state is
    [mostRecent]. *)
Definition keepMostRecent (mostRecent : option ThreadRecord.t) (rec : ThreadRecord.t)
    : option ThreadRecord.t :=
  match mostRecent with
  | None => Some rec
  | Some m =>
      if bool_decide (ThreadRecord.lastUpdatedAt m < ThreadRecord.lastUpdatedAt rec)
      then Some rec else Some m
  end.

Definition findLastUpdatedThread (store : Store) : option ThreadRecord.t :=
  fold_left keepMostRecent (Map_values store) None.

End Repository.

Module Service.

Definition readThreadsByUser (userId : string) (store : Store) : list ThreadRecord.t :=
  Repository.findThreadsByUser userId store.

Definition updateLastUpdatedAtFor (now : Z) (userId threadId : string)
    (at_ : option Z) (store : Store) : Store * Result ThreadRecord.t :=
  Repository.updateLastUpdatedAt now
    {| UpdateLastUpdatedDto.userId := userId;
       UpdateLastUpdatedDto.threadId := threadId;
       UpdateLastUpdatedDto.lastUpdatedAt := Some (default now at_) |} store.

Definition createThread (now : Z) (input : CreateThreadDto.t) (store : Store)
    : Store * ThreadRecord.t :=
  let createdAt := default now (CreateThreadDto.createdAt input) in
  let lastUpdatedAt := default createdAt (CreateThreadDto.lastUpdatedAt input) in
  Repository.createThread now
    {| CreateThreadDto.userId := CreateThreadDto.userId input;
       CreateThreadDto.rootThreadId := CreateThreadDto.rootThreadId input;
       CreateThreadDto.threadId := CreateThreadDto.threadId input;
       CreateThreadDto.graphType := CreateThreadDto.graphType input;
       CreateThreadDto.createdAt := Some createdAt;
       CreateThreadDto.lastUpdatedAt := Some lastUpdatedAt |} store.

Definition findLastUpdatedThread (store : Store) : option ThreadRecord.t :=
  Repository.findLastUpdatedThread store.

End Service.

(** A call that writes to the repository, and the store a sequence of such
    calls leaves when it starts from the empty store. *)
Inductive StoreCall : Type :=
| CallCreateThread (now : Z) (data : CreateThreadDto.t)
| CallUpdateLastUpdatedAt (now : Z) (data : UpdateLastUpdatedDto.t).

Definition runCall (store : Store) (call : StoreCall) : Store :=
  match call with
  | CallCreateThread now data => (Repository.createThread now data store).1
  | CallUpdateLastUpdatedAt now data => (Repository.updateLastUpdatedAt now data store).1
  end.

Definition runCalls (calls : list StoreCall) : Store := fold_left runCall calls [].

(** [s] has no colon in it. *)
Definition colonFree (s : string) : Prop := includes s ":" = false.

(** The representation invariant of the store: keys are distinct and every
    record sits under the key made from its own [userId] and [threadId]. *)
Definition keyed (store : Store) : Prop :=
  NoDup (Map_keys store)
  ∧ ∀ k r, (k, r) ∈ store → k = makeKey (ThreadRecord.userId r) (ThreadRecord.threadId r).

End ThreadStore.

(** ** Routing and thread lifecycle: [WorkflowOrchestratorService] *)

Module Orchestrator.
Import JS.
Import ThreadStore.

Record ThreadAndRoot : Type := mkThreadAndRoot {
  threadId : string;
  rootId : string }.

Record GraphThreadCountAndMostRecentDate : Type := mkSummary {
  count : Z;
  lastUpdatedAt : Z;
  lastUpdatedThreadId : string;
  lastUpdatedRootId : string }.

(** The router's tunables, read from [select-graph-config.json]. *)
Record SelectGraphConfig : Type := mkConfig {
  fiveMinutes : Z;
  pointsForThread : Z;
  pointsForRecent : Z;
  pointsForWordMatch : Z;
  pointsForKeyWordMatch : Z }.

(** One iteration of the loop of [findThreadTypeCountsByUser]. *)
Definition countThread (graphsCountAndLastUpdated : gmap string GraphThreadCountAndMostRecentDate)
    (item : ThreadRecord.t) : gmap string GraphThreadCountAndMostRecentDate :=
  match graphsCountAndLastUpdated !! ThreadRecord.graphType item with
  | None =>
      <[ThreadRecord.graphType item :=
          {| count := 1;
             lastUpdatedAt := ThreadRecord.lastUpdatedAt item;
             lastUpdatedThreadId := ThreadRecord.threadId item;
             lastUpdatedRootId := ThreadRecord.rootThreadId item |}]>
        graphsCountAndLastUpdated
  | Some existing =>
      let updated :=
        if bool_decide (lastUpdatedAt existing < ThreadRecord.lastUpdatedAt item) then
          {| count := count existing + 1;
             lastUpdatedAt := ThreadRecord.lastUpdatedAt item;
             lastUpdatedThreadId := ThreadRecord.threadId item;
             lastUpdatedRootId := ThreadRecord.rootThreadId item |}
        else
          {| count := count existing + 1;
             lastUpdatedAt := lastUpdatedAt existing;
             lastUpdatedThreadId := lastUpdatedThreadId existing;
             lastUpdatedRootId := lastUpdatedRootId existing |} in
      <[ThreadRecord.graphType item := updated]> graphsCountAndLastUpdated
  end.

Definition findThreadTypeCountsByUser (userId : string) (store : Store)
    : gmap string GraphThreadCountAndMostRecentDate :=
  let threads := Service.readThreadsByUser userId store in
  fold_left countThread threads ∅.

(** [stamp] is the value of [Date.now()], [suffix] the string
    [Math.random().toString(36).substring(7)], [now] the value of [new Date()]
    taken by the store. *)
Definition makeNewThread (stamp : Z) (suffix : string) (now : Z)
    (userId graphType : string) (store : Store) : Store * ThreadAndRoot :=
  let newThreadIdRandomPart := "thread_" +:+ pretty stamp +:+ "_" +:+ suffix in
  let rootId := "root_" +:+ newThreadIdRandomPart in
  let threadId := graphType +:+ "_" +:+ newThreadIdRandomPart in
  let '(store', created) :=
    Service.createThread now
      {| CreateThreadDto.userId := userId;
         CreateThreadDto.rootThreadId := rootId;
         CreateThreadDto.threadId := threadId;
         CreateThreadDto.graphType := graphType;
         CreateThreadDto.createdAt := None;
         CreateThreadDto.lastUpdatedAt := None |} store in
  (store',
   {| threadId := ThreadRecord.threadId created;
      rootId := ThreadRecord.rootThreadId created |}).

Definition getThreadId (stamp : Z) (suffix : string) (now : Z)
    (userId graphType : string)
    (threadTypeCountsByUser : gmap string GraphThreadCountAndMostRecentDate)
    (store : Store) : Store * Result ThreadAndRoot :=
  match threadTypeCountsByUser !! graphType with
  | Some history =>
      let lastUpdatedThreadId := lastUpdatedThreadId history in
      match Service.updateLastUpdatedAtFor now userId lastUpdatedThreadId None store with
      | (store', Throw e) => (store', Throw e)
      | (store', Normal _) =>
          (store',
           Normal {| threadId := lastUpdatedThreadId;
                     rootId := lastUpdatedRootId history |})
      end
  | None =>
      let '(store', ids) := makeNewThread stamp suffix now userId graphType store in
      (store', Normal ids)
  end.

(** *** Scoring *)

Section Scoring.
Variable cfg : SelectGraphConfig.
(** [clock k] is the value of the [k]-th reading of [Date.now()] made by one
    call of [scoreGraphsAndSelectOne]. *)
Variable clock : nat -> Z.

(** The callback of [arr.reduce(..., 0)]. *)
Definition addWord (message : string) (acc : Z) (word : string) : Z :=
  if negb (includes message word) then acc
  else acc + (if startsWith word "@" then pointsForKeyWordMatch cfg
              else pointsForWordMatch cfg).

(** First loop: one entry of [scores] per graph, the points of its words. *)
Definition scoreWords (message : string) (graphsAndSelectionWords : Map (list string))
    : Map number :=
  fold_left
    (fun scores '(key, arr) =>
       let count := fold_left (addWord message) arr 0 in
       Map_set scores key (Num count))
    graphsAndSelectionWords [].

(** Second loop, one key: the state is [scores] and the number of clock
    readings made so far. [scores.get(key)] may be [undefined], and
    [undefined + n] is [NaN]. *)
Definition addHistory
    (threadTypeCountsByUser : gmap string GraphThreadCountAndMostRecentDate)
    (st : Map number * nat) (key : string) : Map number * nat :=
  let '(scores, ticks) := st in
  match threadTypeCountsByUser !! key with
  | Some threadHistory =>
      let updateScore := default NaN (Map_get scores key) in
      let threadCount := count threadHistory in
      let lastUpdated := lastUpdatedAt threadHistory in
      let updateScore := add updateScore (Num (threadCount * pointsForThread cfg)) in
      let updateScore :=
        if bool_decide (clock ticks - lastUpdated < fiveMinutes cfg) then
          add updateScore (Num (pointsForRecent cfg))
        else updateScore in
      (Map_set scores key updateScore, S ticks)
  | None => (scores, ticks)
  end.

Definition scoreGraphs (message : string)
    (threadTypeCountsByUser : gmap string GraphThreadCountAndMostRecentDate)
    (graphsAndSelectionWords : Map (list string)) : Map number :=
  let scores := scoreWords message graphsAndSelectionWords in
  (fold_left (addHistory threadTypeCountsByUser)
             (Map_keys graphsAndSelectionWords) (scores, 0%nat)).1.

(** Last loop, one entry: the state is [maxKey] and [maxScore]. *)
Definition pickMax (st : option string * number) (entry : string * number)
    : option string * number :=
  let '(maxKey, maxScore) := st in
  let '(key, value) := entry in
  if gt value maxScore then (Some key, value) else (maxKey, maxScore).

Definition scoreGraphsAndSelectOne (message : string)
    (threadTypeCountsByUser : gmap string GraphThreadCountAndMostRecentDate)
    (graphsAndSelectionWords : Map (list string)) : option string :=
  let scores := scoreGraphs message threadTypeCountsByUser graphsAndSelectionWords in
  (fold_left pickMax scores (None, NegInfinity)).1.

(** The score as the design document writes it. *)
Definition wordPoints (message word : string) : Z :=
  if includes message word then
    (if startsWith word "@" then pointsForKeyWordMatch cfg else pointsForWordMatch cfg)
  else 0.

Definition historyPoints (now : Z) (history : option GraphThreadCountAndMostRecentDate) : Z :=
  match history with
  | Some h =>
      count h * pointsForThread cfg +
      (if bool_decide (now - lastUpdatedAt h < fiveMinutes cfg) then pointsForRecent cfg else 0)
  | None => 0
  end.

Definition specScore (message : string) (words : list string) (now : Z)
    (history : option GraphThreadCountAndMostRecentDate) : Z :=
  foldr Z.add 0 (wordPoints message <$> words) + historyPoints now history.

(** The table of scores after the first loop. *)
Definition wordTable (message : string) (entries : Map (list string)) : Map number :=
  (λ e : string * list string,
     (e.1, Num (foldr Z.add 0 (wordPoints message <$> e.2)))) <$> entries.

(** The table of scores after the second loop, the first reading of the clock
    being reading number [ticks]. *)
Fixpoint scoreTable (message : string)
    (threadTypeCountsByUser : gmap string GraphThreadCountAndMostRecentDate)
    (ticks : nat) (entries : Map (list string)) : Map number :=
  match entries with
  | [] => []
  | (key, words) :: rest =>
      (key, Num (specScore message words (clock ticks) (threadTypeCountsByUser !! key)))
      :: scoreTable message threadTypeCountsByUser
           (match threadTypeCountsByUser !! key with Some _ => S ticks | None => ticks end)
           rest
  end.

End Scoring.

(** The number of clock readings made while the keys [keys] are walked: one
    for every key that has history. *)
Definition readingsBefore
    (threadTypeCountsByUser : gmap string GraphThreadCountAndMostRecentDate)
    (keys : list string) : nat :=
  length (filter (λ k, is_Some (threadTypeCountsByUser !! k)) keys).

(** [describes h r]: the summary entry [h] points at record [r]. *)
Definition describes (h : GraphThreadCountAndMostRecentDate) (r : ThreadRecord.t) : Prop :=
  ThreadRecord.threadId r = lastUpdatedThreadId h
  ∧ ThreadRecord.rootThreadId r = lastUpdatedRootId h
  ∧ ThreadRecord.lastUpdatedAt r = lastUpdatedAt h.

(** The thread id and the root id minted from a timestamp and a suffix. *)
Definition mintedThreadId (graphType : string) (stamp : Z) (suffix : string) : string :=
  graphType +:+ "_" +:+ ("thread_" +:+ pretty stamp +:+ "_" +:+ suffix).

Definition mintedRootId (stamp : Z) (suffix : string) : string :=
  "root_" +:+ ("thread_" +:+ pretty stamp +:+ "_" +:+ suffix).

End Orchestrator.

(** ** Loading nodes and graphs at start-up *)

Module GraphLoading.
Import JS GraphBuilder.

(** A number that the code only passes on (a sampling temperature such as
    0.7), kept as its JSON literal. *)
Inductive JsonNumber : Type := NumberLiteral (literal : string).

Module StepData.
Record t : Type := mk {
  model : option string;
  temperature : option JsonNumber }.
End StepData.

Module GraphJsonNodeSpec.
Record t : Type := mk {
  name : string;
  stateType : option string;
  model : option string;
  temperature : option JsonNumber }.
End GraphJsonNodeSpec.

Record GraphJsonSpec : Type := mkGraphJsonSpec {
  spec_nodes : option (list GraphJsonNodeSpec.t);
  spec_graphs : option (list GraphJsonGraphSpec) }.

(** [class StepMap]: its [steps] map, with [addOrUpdateStep] and [get]. *)
Abbreviation StepMap := (gmap string StepData.t).

Definition addOrUpdateStep (stepName : string) (data : StepData.t) (steps : StepMap)
    : StepMap :=
  <[stepName := data]> steps.

Definition StepMap_get (steps : StepMap) (stepName : string) : option StepData.t :=
  steps !! stepName.

(** [Object.getOwnPropertyNames(GraphBuilderService.prototype)]: the
    constructor and the methods of the class, in the order of the class
    body. Each of them is a function. *)
Definition prototypeNames : list string :=
  ["constructor"; "onModuleInit"; "buildNodeMethodMap"; "dynamicLoadNodes";
   "dynamicLoadGraphs"; "registerGraphFromSpec"; "getDynamicGraph";
   "getAllGraphsAndSelectionWords"; "getInitialStateRuntime"; "isGraphType";
   "makeInitialState"; "addOrUpdateStep"; "inputAnalysisNode";
   "concurrentInputAnalysisNode"; "noveltyAnalysisNode";
   "concurrentNoveltyAnalysisNode"; "feasibilityAnalysisNode";
   "concurrentFeasibilityAnalysisNode"; "impactAnalysisNode";
   "concurrentImpactAnalysisNode"; "synthesisNode"; "concurrentSynthesisNode";
   "awaitApprovalNode"; "concurrentAwaitApprovalNode"; "marketResearchNode";
   "businessModelNode"; "pricingStrategyNode"; "awaitStrategyApprovalNode";
   "implementationPlanNode"; "extractKeyTerms"; "extractScore";
   "generateRecommendation"; "loadGraphSpec"]%string.

(** The body of the inner loop of [dynamicLoadNodes]: the state is
    [nodeFuctionMap] and the step map. *)
Definition loadNodeName (item : GraphJsonNodeSpec.t)
    (st : gmap string NodeFn * StepMap) (protoName : string)
    : gmap string NodeFn * StepMap :=
  if String.eqb protoName (GraphJsonNodeSpec.name item)
     && negb (String.eqb protoName "constructor")
  then (<[protoName := Method protoName]> st.1,
        addOrUpdateStep (GraphJsonNodeSpec.name item)
          {| StepData.model := GraphJsonNodeSpec.model item;
             StepData.temperature := GraphJsonNodeSpec.temperature item |} st.2)
  else st.

(** [spec] is what [loadGraphSpec] returned. *)
Definition dynamicLoadNodes (spec : option GraphJsonSpec)
    (st : gmap string NodeFn * StepMap) : gmap string NodeFn * StepMap :=
  let items := default [] (spec ≫= spec_nodes) in
  fold_left (fun st item => fold_left (loadNodeName item) prototypeNames st) items st.

(** The builder that [registerGraphFromSpec] builds for a specification, if
    it builds one: the specification has a known annotation and the node and
    edge loops go through. *)
Definition builderOf {L : LangGraph} (this : Service L) (item : GraphJsonGraphSpec)
    : option (StateGraph L) :=
  match annotationType item with
  | None => None
  | Some annotationName =>
      if String.eqb annotationName "" then None
      else
        match annotationsMap annotationName with
        | None => None
        | Some annotationRoot =>
            match newBuilder annotationRoot with
            | Throw _ => None
            | Normal builder =>
            match addNodes this (name item) (default [] (nodes item)) builder with
            | Throw _ => None
            | Normal builder =>
                match addEdges (default [] (edges item)) builder with
                | Throw _ => None
                | Normal builder' => Some builder'
                end
            end
            end
        end
  end.

(** The builder that [registerGraphFromSpec] stores for a specification, if
    it stores one: the builder is built and the assignment goes through. *)
Definition acceptedBuilder {L : LangGraph} (this : Service L) (item : GraphJsonGraphSpec)
    : option (StateGraph L) :=
  match builderOf this item, assignBuilder this (name item) with
  | Some builder, None => Some builder
  | _, _ => None
  end.

(** Every graph name of the selection vocabulary has a builder. *)
Definition vocabularyHasBuilders {L : LangGraph} (this : Service L) : Prop :=
  ∀ n, is_Some (Map_get (graphSelectionWords this) n) →
       is_Some (dynamicGraphBuilders this !! n).

(** A specification that fails to register is logged and the loop goes on. *)
Definition dynamicLoadGraphs {L : LangGraph} (spec : option GraphJsonSpec)
    (this : Service L) : Service L :=
  let items := default [] (spec ≫= spec_graphs) in
  fold_left (fun this item => (registerGraphFromSpec item this).1) items this.

Definition onModuleInit {L : LangGraph} (spec : option GraphJsonSpec)
    (this : Service L) (steps : StepMap) : Service L * StepMap :=
  let '(fns, steps') := dynamicLoadNodes spec (nodeFuctionMap this, steps) in
  (dynamicLoadGraphs spec
     {| dynamicGraphs := dynamicGraphs this;
        dynamicGraphBuilders := dynamicGraphBuilders this;
        buildersPrototype := buildersPrototype this;
        graphSelectionWords := graphSelectionWords this;
        nodeFuctionMap := fns |},
   steps').

End GraphLoading.

(** ** Helper methods, the mock language model and the analysis nodes *)

Module Analysis.
Import JS GraphBuilder GraphLoading.

(** A character of a string stands for a UTF-16 code unit below 256. *)

(** [\d]: the digits 0 to 9. *)
Definition isDigit (c : ascii) : bool :=
  (48 <=? nat_of_ascii c)%nat && (nat_of_ascii c <=? 57)%nat.

(** [\s], for code units below 256: tab, line feed, vertical tab, form feed,
    carriage return, space and no-break space. *)
Definition isSpace (c : ascii) : bool :=
  let n := nat_of_ascii c in
  ((9 <=? n)%nat && (n <=? 13)%nat) || (n =? 32)%nat || (n =? 160)%nat.

(** [toLowerCase], for code units below 256: A to Z, and the accented
    capitals from 192 to 222 other than the multiplication sign 215. *)
Definition toLowerChar (c : ascii) : ascii :=
  let n := nat_of_ascii c in
  if ((65 <=? n)%nat && (n <=? 90)%nat)
     || ((192 <=? n)%nat && (n <=? 222)%nat && negb (n =? 215)%nat)
  then ascii_of_nat (n + 32) else c.

(** Every character of [s] passes the test [p]. *)
Fixpoint stringForall (p : ascii -> bool) (s : string) : bool :=
  match s with
  | EmptyString => true
  | String c s' => p c && stringForall p s'
  end.

Fixpoint toLowerCase (s : string) : string :=
  match s with
  | EmptyString => EmptyString
  | String c s' => String (toLowerChar c) (toLowerCase s')
  end.

(** [s.split(/\s+/)]: the pieces between maximal runs of white space; a run
    at the start or at the end leaves an empty piece there. [cur] is the piece
    being read and [inRun] tells whether the last character was white
    space. *)
Fixpoint splitGo (cur : string) (inRun : bool) (s : string) : list string :=
  match s with
  | EmptyString => [cur]
  | String c s' =>
      if isSpace c then
        if inRun then splitGo cur true s' else cur :: splitGo EmptyString true s'
      else splitGo (cur +:+ String c EmptyString) false s'
  end.

Definition splitWhitespace (s : string) : list string := splitGo EmptyString false s.

Definition extractKeyTerms (text : string) : list string :=
  take 10 (filter (fun word => (4 < String.length word)%nat)
                  (splitWhitespace (toLowerCase text))).

(** [\d+] read greedily from the start of [s]: the value of the digits read
    so far is [acc]; the result is the value and what follows the digits. *)
Fixpoint digitRun (acc : Z) (s : string) : Z * string :=
  match s with
  | EmptyString => (acc, EmptyString)
  | String c s' =>
      if isDigit c then digitRun (10 * acc + (Z.of_nat (nat_of_ascii c) - 48)) s'
      else (acc, s)
  end.

(** A match of [(\d+)(?:\/100|%)] that starts at the first character of
    [s]; the result is the value of the digits of the group. A shorter run of
    digits cannot match, since it is followed by a digit. *)
Definition matchHere (s : string) : option Z :=
  match s with
  | EmptyString => None
  | String c _ =>
      if isDigit c then
        let '(value, rest) := digitRun 0 s in
        if startsWith rest "/100" || startsWith rest "%" then Some value else None
      else None
  end.

(** [Number.parseInt] of a run of digits whose value is [value]. Below 2^53
    the Number it returns is that value. From 2^53 on it returns a Number
    that need not be the value of the digits (it is rounded, and infinite for
    a very long run); such Numbers are not modelled, and the result is
    [None]. *)
Definition parseInt (value : Z) : option Z :=
  if bool_decide (value < 2 ^ 53) then Some value else None.

(** [content.match(...)] tries the start positions from left to right; the
    score is [None] when the digits matched give a Number that is not
    modelled. *)
Fixpoint extractScore (content : string) : option Z :=
  match matchHere content with
  | Some value => parseInt value
  | None =>
      match content with
      | EmptyString => Some 50
      | String _ rest => extractScore rest
      end
  end.

Definition generateRecommendation (score : Z) : string :=
  if bool_decide (80 <= score) then
    "Highly recommended for patent filing and commercialization"
  else if bool_decide (60 <= score) then "Recommended with further development"
  else if bool_decide (40 <= score) then "Proceed with caution, needs significant work"
  else "Not recommended in current form".

(** *** The mock language model *)

Record LLMRequest : Type := mkLLMRequest {
  req_model : option string;
  req_prompt : string;
  req_temperature : option JsonNumber }.

(** [LLMService.executePrompt]: the content of the response (the delay and
    the token counts are random and are not read by the nodes). *)
Definition responseContent (request : LLMRequest) : string :=
  if includes (req_prompt request) "novelty" then
    "This invention shows moderate novelty with some innovative aspects..."
  else if includes (req_prompt request) "feasibility" then
    "The technical feasibility appears strong with current technology..."
  else if includes (req_prompt request) "impact" then
    "The potential impact could be significant in the target market..."
  else if includes (req_prompt request) "monetization" then
    "Revenue opportunities exist through licensing and direct sales..."
  else "Mock LLM response".

(** *** The nodes of the concurrent research graph *)

(** The objects stored in [analysisResults], one shape per key. *)
Inductive AnalysisEntry : Type :=
| InputAnalysis (analysis : string) (keyTerms : list string) (timestamp : string)
| NoveltyAnalysis (analysis : string) (noveltyScore : Z) (timestamp : string)
| FeasibilityAnalysis (analysis : string) (feasibilityScore : Z) (timestamp : string)
| ImpactAnalysis (analysis : string) (impactScore : Z) (timestamp : string)
| Synthesis (overallScore : Z) (recommendation summary timestamp : string).

(** Property reads on such an object; a property the object does not have
    reads as [undefined]. *)
Definition analysisOf (e : AnalysisEntry) : option string :=
  match e with
  | InputAnalysis a _ _ | NoveltyAnalysis a _ _ | FeasibilityAnalysis a _ _
  | ImpactAnalysis a _ _ => Some a
  | Synthesis _ _ _ _ => None
  end.

Definition noveltyScoreOf (e : AnalysisEntry) : option Z :=
  match e with NoveltyAnalysis _ score _ => Some score | _ => None end.

Definition feasibilityScoreOf (e : AnalysisEntry) : option Z :=
  match e with FeasibilityAnalysis _ score _ => Some score | _ => None end.

Definition impactScoreOf (e : AnalysisEntry) : option Z :=
  match e with ImpactAnalysis _ score _ => Some score | _ => None end.

Record ConcurrentResearchGraphState : Type := mkConcurrentState {
  cs_activeThreadId : string;
  cs_messages : list BaseMessage;
  cs_rootId : string;
  cs_userId : string;
  cs_currentSteps : list string;
  cs_analysisResults : gmap string AnalysisEntry }.

(** [Partial<ConcurrentResearchGraphState>], as the nodes return it. *)
Record ConcurrentUpdate : Type := mkConcurrentUpdate {
  up_analysisResults : option (gmap string AnalysisEntry);
  up_currentSteps : option (list string);
  up_messages : option (list BaseMessage) }.

(** A string or [undefined] inside a template literal. *)
Definition template (value : option string) : string :=
  default "undefined"%string value.

(** [score || 'N/A'] inside a template literal. *)
Definition scoreOrNA (score : option Z) : string :=
  match score with
  | Some z => if bool_decide (z = 0) then "N/A"%string else pretty z
  | None => "N/A"%string
  end.

(** [score || 50] *)
Definition scoreOr50 (score : option Z) : Z :=
  match score with
  | Some z => if bool_decide (z = 0) then 50 else z
  | None => 50
  end.

(** [Math.round(sum / divisor)] for integers and a positive divisor: the
    integer nearest to the quotient, a half going up. *)
Definition roundDiv (sum divisor : Z) : Z := (2 * sum + divisor) / (2 * divisor).

(** The scores for which the arithmetic of the synthesis is exact. *)
Definition withinExact (score : Z) : bool := bool_decide (- 2 ^ 50 < score < 2 ^ 50).

Definition contentOf (m : BaseMessage) : string :=
  match m with HumanMessage t | AIMessage t => t end.

Section Nodes.
(** The step map of the service, the language model behind
    [llmService.executePrompt] (which may throw) and the value of
    [new Date().toISOString()]. *)
Variable steps : StepMap.
Variable executePrompt : LLMRequest -> Result string.
Variable isoNow : string.

Definition concurrentInputAnalysisNode (state : ConcurrentResearchGraphState)
    : Result ConcurrentUpdate :=
  let lastMessage := last (cs_messages state) in
  match ThreadStore.getField lastMessage contentOf "content" with
  | Throw e => Throw e
  | Normal messageContent =>
  let stepData := StepMap_get steps "concurrentInputAnalysisNode" in
  match ThreadStore.getField stepData StepData.model "model" with
  | Throw e => Throw e
  | Normal model =>
  match ThreadStore.getField stepData StepData.temperature "temperature" with
  | Throw e => Throw e
  | Normal temperature =>
  match executePrompt
          {| req_model := model;
             req_prompt :=
               "Analyze this invention disclosure for key information: " +:+ messageContent;
             req_temperature := temperature |} with
  | Throw e => Throw e
  | Normal content =>
      Normal
        {| up_analysisResults :=
             Some {[ "inputAnalysis"%string :=
                       InputAnalysis content (extractKeyTerms messageContent) isoNow ]};
           up_currentSteps := Some ["concurrent_input_analysis"%string];
           up_messages := Some [AIMessage ("Input Analysis Complete: " +:+ content)] |}
  end end end end.

(** The three scored analyses differ in the step they look up, the prompt,
    the key and shape of the result, the step label and the message. The
    outcome is [None] when the score in the response is a Number that is not
    modelled. *)
Definition scoredNode (stepName promptPrefix key : string)
    (entry : string -> Z -> string -> AnalysisEntry) (stepLabel messagePrefix : string)
    (state : ConcurrentResearchGraphState) : option (Result ConcurrentUpdate) :=
  let stepData := StepMap_get steps stepName in
  match ThreadStore.getField stepData StepData.model "model" with
  | Throw e => Some (Throw e)
  | Normal model =>
  match ThreadStore.getField stepData StepData.temperature "temperature" with
  | Throw e => Some (Throw e)
  | Normal temperature =>
  match executePrompt
          {| req_model := model;
             req_prompt :=
               promptPrefix +:+
               template (cs_analysisResults state !! "inputAnalysis"%string ≫= analysisOf);
             req_temperature := temperature |} with
  | Throw e => Some (Throw e)
  | Normal content =>
      match extractScore content with
      | None => None
      | Some score =>
          Some (Normal
            {| up_analysisResults := Some {[ key := entry content score isoNow ]};
               up_currentSteps := Some [stepLabel];
               up_messages := Some [AIMessage (messagePrefix +:+ content)] |})
      end
  end end end.

Definition concurrentNoveltyAnalysisNode
    : ConcurrentResearchGraphState -> option (Result ConcurrentUpdate) :=
  scoredNode "concurrentNoveltyAnalysisNode" "Analyze novelty based on: "
    "noveltyAnalysis" NoveltyAnalysis "concurrent_novelty_analysis" "Novelty Analysis: ".

Definition concurrentFeasibilityAnalysisNode
    : ConcurrentResearchGraphState -> option (Result ConcurrentUpdate) :=
  scoredNode "concurrentFeasibilityAnalysisNode" "Analyze technical feasibility based on: "
    "feasibilityAnalysis" FeasibilityAnalysis "concurrent_feasibility_analysis"
    "Feasibility Analysis: ".

(** This node looks up the step of [impactAnalysisNode]. *)
Definition concurrentImpactAnalysisNode
    : ConcurrentResearchGraphState -> option (Result ConcurrentUpdate) :=
  scoredNode "impactAnalysisNode" "Analyze market impact based on: "
    "impactAnalysis" ImpactAnalysis "concurrent_impact_analysis" "Impact Analysis: ".

(** The sum of the three scores and its third are floating-point results.
    They are the exact sum and the exact quotient, rounded as [roundDiv]
    does, when the scores are of magnitude below 2^50; the result is [None]
    for greater scores, which are not modelled. *)
Definition concurrentSynthesisNode (state : ConcurrentResearchGraphState)
    : option ConcurrentUpdate :=
  let noveltyScore := cs_analysisResults state !! "noveltyAnalysis"%string ≫= noveltyScoreOf in
  let feasibilityScore :=
    cs_analysisResults state !! "feasibilityAnalysis"%string ≫= feasibilityScoreOf in
  let impactScore := cs_analysisResults state !! "impactAnalysis"%string ≫= impactScoreOf in
  if withinExact (scoreOr50 noveltyScore) && withinExact (scoreOr50 feasibilityScore)
     && withinExact (scoreOr50 impactScore)
  then
    let overallScore :=
      roundDiv (scoreOr50 noveltyScore + scoreOr50 feasibilityScore + scoreOr50 impactScore)
               3 in
    let recommendation := generateRecommendation overallScore in
    let summary :=
      "Research complete. Novelty: " +:+ scoreOrNA noveltyScore +:+
      ", Feasibility: " +:+ scoreOrNA feasibilityScore +:+
      ", Impact: " +:+ scoreOrNA impactScore in
    Some
      {| up_analysisResults :=
           Some {[ "synthesis"%string :=
                     Synthesis overallScore recommendation summary isoNow ]};
         up_currentSteps := Some ["concurrent_synthesis"%string];
         up_messages :=
           Some [AIMessage ("Research Summary: " +:+ summary +:+
                            String (ascii_of_nat 10) (String (ascii_of_nat 10) "") +:+
                            "Recommendation: " +:+ recommendation)] |}
  else None.

End Nodes.

(** What the reducers of the annotation make of a state and an update. *)
Definition reduceUpdate (state : ConcurrentResearchGraphState) (update : ConcurrentUpdate)
    : ConcurrentResearchGraphState :=
  {| cs_activeThreadId := cs_activeThreadId state;
     cs_rootId := cs_rootId state;
     cs_userId := cs_userId state;
     cs_messages :=
       match up_messages update with
       | Some b => concatReducer (cs_messages state) b
       | None => cs_messages state
       end;
     cs_currentSteps :=
       match up_currentSteps update with
       | Some b => concatReducer (cs_currentSteps state) b
       | None => cs_currentSteps state
       end;
     cs_analysisResults :=
       match up_analysisResults update with
       | Some b => spreadReducer (cs_analysisResults state) b
       | None => cs_analysisResults state
       end |}.

End Analysis.

(** ** Initial state of a new thread: [getInitialStateForNewThread] *)

Module NewThreadState.
Import JS GraphBuilder.

(** An entry of [conversationContext.threadMessages]. *)
Record ThreadMessage : Type := mkThreadMessage {
  kind : string;
  text : string }.

(** The part of [ConversationContext] the code reads. *)
Record ConversationContext : Type := mkConversationContext {
  threadMessages : list ThreadMessage }.

Record NewThreadStateParams : Type := mkNewThreadStateParams {
  graphType : string;
  message : string;
  conversationContext : ConversationContext;
  userId : string;
  threadId : string;
  rootThreadId : string }.

(** [msg.kind === 'message.human' ? new HumanMessage(msg.text)
                                  : new AIMessage(msg.text)] *)
Definition toLangGraphMessage (msg : ThreadMessage) : BaseMessage :=
  if String.eqb (kind msg) "message.human" then HumanMessage (text msg)
  else AIMessage (text msg).

Definition getInitialStateForNewThread (params : NewThreadStateParams) : GraphState :=
  let langGraphMessages :=
    (toLangGraphMessage <$> threadMessages (conversationContext params))
    ++ [HumanMessage (message params)] in
  getInitialStateRuntime (graphType params) langGraphMessages
    {| ids_activeThreadId := threadId params;
       ids_rootId := rootThreadId params;
       ids_userId := userId params |}.

End NewThreadState.

(** ** Sample data *)

Module Samples.
Import JS GraphBuilder ThreadStore Orchestrator.

(** A store holding one thread of one user. *)
Definition store1 : Store :=
  [(makeKey "test-user-123" "researchGraph_thread_1_a",
    {| ThreadRecord.id := makeKey "test-user-123" "researchGraph_thread_1_a";
       ThreadRecord.userId := "test-user-123";
       ThreadRecord.rootThreadId := "root_thread_1_a";
       ThreadRecord.threadId := "researchGraph_thread_1_a";
       ThreadRecord.graphType := "researchGraph";
       ThreadRecord.createdAt := 1000;
       ThreadRecord.lastUpdatedAt := 1000 |})].

(** Modelled from the spec: the contents of [select-graph-config.json], which
    is not among the sources. The design leaves the values open ("external
    tunables"); these are the ones named in the comment above
    [scoreGraphsAndSelectOne]: one point per thread, five for a thread updated
    less than five minutes ago, one per matching word and ten per matching
    keyword. *)
Definition sampleConfig : SelectGraphConfig :=
  {| fiveMinutes := 300000;
     pointsForThread := 1;
     pointsForRecent := 5;
     pointsForWordMatch := 1;
     pointsForKeyWordMatch := 10 |}.

Definition sampleRegistry : Map (list string) :=
  [("researchGraph", ["invent"; "patent"]);
   ("monetizationGraph", ["@monetize"; "revenue"]);
   ("dynamicShortGraph", ["@dynamic-short"])].

Definition sampleHistory : gmap string GraphThreadCountAndMostRecentDate :=
  {[ "monetizationGraph" :=
       {| count := 1;
          lastUpdatedAt := 1758207386950;
          lastUpdatedThreadId := "monetizationGraph_thread_1758207386950_b2f2d";
          lastUpdatedRootId := "root_thread_1758207386950_b2f2d" |} ]}.

(** A registry with two registered node functions and no graph yet. *)
Definition emptyRegistry : Service recording :=
  {| dynamicGraphs := ∅;
     dynamicGraphBuilders := ∅;
     buildersPrototype := None;
     graphSelectionWords := [];
     nodeFuctionMap :=
       {[ "inputAnalysisNode" := Method "inputAnalysisNode";
          "awaitApprovalNode" := Method "awaitApprovalNode" ]} |}.

Definition shortSpec : GraphJsonGraphSpec :=
  {| name := "dynamicShortGraph";
     annotationType := Some "DefaultGraphAnnotation"%string;
     nodes := Some ["inputAnalysisNode"; "awaitApprovalNode"]%string;
     edges := Some [mkEdge "__start__" "inputAnalysisNode";
                    mkEdge "inputAnalysisNode" "awaitApprovalNode";
                    mkEdge "awaitApprovalNode" "__end__"];
     selectionWords := Some ["@dynamic-short"]%string |}.

(** The same name with a shorter shape. *)
Definition shorterSpec : GraphJsonGraphSpec :=
  {| name := "dynamicShortGraph";
     annotationType := Some "DefaultGraphAnnotation"%string;
     nodes := Some ["inputAnalysisNode"]%string;
     edges := Some [mkEdge "__start__" "inputAnalysisNode";
                    mkEdge "inputAnalysisNode" "__end__"];
     selectionWords := Some ["@dynamic-short"; "@short"]%string |}.

Definition shapeOf (item : GraphJsonGraphSpec) : Shape :=
  {| shape_annotation := DefaultGraphAnnotation;
     shape_nodes := (λ n, (n, Method n)) <$> default [] (nodes item);
     shape_edges := (λ e, (edge_start e, edge_end e)) <$> default [] (edges item) |}.

(** Register, retrieve, register again under the same name, retrieve again. *)
Definition afterReregistration : Service recording :=
  let this1 := (registerGraphFromSpec shortSpec emptyRegistry).1 in
  let this2 := (getDynamicGraph "dynamicShortGraph" this1).1 in
  (registerGraphFromSpec shorterSpec this2).1.

(** A specification naming a node function that is not registered. *)
Definition unresolvedSpec : GraphJsonGraphSpec :=
  {| name := "brokenGraph";
     annotationType := Some "DefaultGraphAnnotation"%string;
     nodes := Some ["inputAnalysisNode"; "missingNode"]%string;
     edges := Some [mkEdge "__start__" "inputAnalysisNode"];
     selectionWords := None |}.

(** The same without an annotation type. *)
Definition unannotatedSpec : GraphJsonGraphSpec :=
  {| name := "brokenGraph";
     annotationType := None;
     nodes := Some ["missingNode"]%string;
     edges := None;
     selectionWords := None |}.

End Samples.

(** ** The mock language model as a service, and sample data for the nodes *)

Module LLMService.
Import JS Analysis.

(** [executePrompt] of the mock service: it waits and then answers; it has
    no throw. *)
Definition executePrompt (request : LLMRequest) : Result string :=
  Normal (responseContent request).

End LLMService.

Module ResearchSamples.
Import JS GraphBuilder GraphLoading Analysis.

Definition researchStep : StepData.t :=
  {| StepData.model := Some "gpt-4"%string;
     StepData.temperature := Some (NumberLiteral "0.7") |}.

(** The steps of a node list that names the three concurrent analyses and
    [impactAnalysisNode]. *)
Definition researchSteps : StepMap :=
  {[ "concurrentNoveltyAnalysisNode"%string := researchStep;
     "concurrentFeasibilityAnalysisNode"%string := researchStep;
     "concurrentImpactAnalysisNode"%string := researchStep;
     "impactAnalysisNode"%string := researchStep ]}.

Definition researchState : ConcurrentResearchGraphState :=
  {| cs_activeThreadId := "concurrentResearchGraph_thread_1_a";
     cs_messages := [HumanMessage "A kettle heated by sunlight"];
     cs_rootId := "root_thread_1_a";
     cs_userId := "test-user-123";
     cs_currentSteps := ["concurrent_input_analysis"%string];
     cs_analysisResults :=
       {[ "inputAnalysis"%string :=
            InputAnalysis "Mock LLM response" ["kettle"; "heated"; "sunlight"]%string
              "2025-09-18T14:56:26.950Z" ]} |}.

(** A model whose answers carry scores. *)
Definition scoringModel (request : LLMRequest) : Result string :=
  if includes (req_prompt request) "novelty" then Normal "Rather new: 70/100"%string
  else if includes (req_prompt request) "feasibility" then Normal "Feasible, 90%"%string
  else Normal "Impact 40/100"%string.

(** The update of a scored node for a given response and score. *)
Definition scoredUpdate (key : string) (entry : string -> Z -> string -> AnalysisEntry)
    (stepLabel messagePrefix content : string) (score : Z) (isoNow : string)
    : ConcurrentUpdate :=
  {| up_analysisResults := Some {[ key := entry content score isoNow ]};
     up_currentSteps := Some [stepLabel];
     up_messages := Some [AIMessage (messagePrefix +:+ content)] |}.

(** A node list that names the concurrent impact analysis and not
    [impactAnalysisNode]. *)
Definition concurrentOnlySpec : GraphJsonSpec :=
  {| spec_nodes :=
       Some [ {| GraphJsonNodeSpec.name := "concurrentInputAnalysisNode";
                 GraphJsonNodeSpec.stateType := Some "ConcurrentResearchGraphState"%string;
                 GraphJsonNodeSpec.model := Some "gpt-4"%string;
                 GraphJsonNodeSpec.temperature := Some (NumberLiteral "0.7") |};
              {| GraphJsonNodeSpec.name := "concurrentImpactAnalysisNode";
                 GraphJsonNodeSpec.stateType := Some "ConcurrentResearchGraphState"%string;
                 GraphJsonNodeSpec.model := Some "gpt-4"%string;
                 GraphJsonNodeSpec.temperature := Some (NumberLiteral "0.7") |} ];
     spec_graphs := None |}.

End ResearchSamples.

(** ** Sequences of calls on the registry *)

Module RegistryRuns.
Import JS GraphBuilder.

Section Runs.
Context {L : LangGraph}.

(** The two public methods that change the service. A registration that
    throws leaves the service as it was. *)
Inductive RegistryCall : Type :=
| Register (item : GraphJsonGraphSpec)
| Retrieve (graphName : string).

Definition runRegistryCall (this : Service L) (call : RegistryCall) : Service L :=
  match call with
  | Register item => (registerGraphFromSpec item this).1
  | Retrieve graphName => (getDynamicGraph graphName this).1
  end.

(** The service as its field initialisers leave it, with the node functions
    [fns] loaded. *)
Definition freshService (fns : gmap string NodeFn) : Service L :=
  {| dynamicGraphs := ∅;
     dynamicGraphBuilders := ∅;
     buildersPrototype := None;
     graphSelectionWords := [];
     nodeFuctionMap := fns |}.

(** What every sequence of registrations and retrievals keeps in the
    selection vocabulary: no graph name is listed twice, the names are in
    the order of [Object.entries], [__proto__] is not among them, and every
    listed name has a builder of its own. *)
Definition vocabularyInvariant (this : Service L) : Prop :=
  NoDup (Map_keys (graphSelectionWords this))
  ∧ propertyOrdered (Map_keys (graphSelectionWords this))
  ∧ Map_get (graphSelectionWords this) "__proto__" = None
  ∧ GraphLoading.vocabularyHasBuilders this.

End Runs.

End RegistryRuns.

(** ** Sample data for the edge loop *)

Module EdgeSamples.
Import JS GraphBuilder RegistryRuns.

(** A service on the stand-in that checks edges when it compiles. *)
Definition checkingRegistry : Service checking :=
  freshService {[ "inputAnalysisNode"%string := Method "inputAnalysisNode" ]}.

(** A specification with an edge to a node that is not in its node list. *)
Definition ghostEdgeSpec : GraphJsonGraphSpec :=
  {| name := "ghostGraph";
     annotationType := Some "DefaultGraphAnnotation"%string;
     nodes := Some ["inputAnalysisNode"]%string;
     edges := Some [mkEdge "__start__" "inputAnalysisNode";
                    mkEdge "inputAnalysisNode" "ghostNode";
                    mkEdge "ghostNode" "__end__"];
     selectionWords := Some ["@ghost"]%string |}.

End EdgeSamples.

(** ** The hard-coded system: [LangGraphService.executeResearch] *)

Module Legacy.
Import JS GraphBuilder NewThreadState.

(** [snapshot?.createdAt] as a condition: [undefined] and the empty string
    are false. *)
Definition truthy (createdAt : option string) : bool :=
  match createdAt with
  | Some s => negb (String.eqb s "")
  | None => false
  end.

(** What is handed to [graph.stream]. *)
Inductive StreamInput : Type :=
| InitialState (state : GraphState)
| Resume (newMessages : list BaseMessage).

(** The call of [graph.stream] that [executeResearch] makes: the graph
    chosen, the [thread_id] of the configuration and the input. *)
Record StreamCall : Type := mkStreamCall {
  call_monetization : bool;
  call_thread_id : string;
  call_input : StreamInput }.

(** [researchCreatedAt] and [monetizationCreatedAt] are the [createdAt] of
    the snapshots that [getState] returns for the two graphs; the snapshot of
    the chosen graph, read once more, is taken to be the one read before. *)
Definition executeResearch (message activeThreadId rootId userId : string)
    (conversationContext : ConversationContext)
    (researchCreatedAt monetizationCreatedAt : option string) : StreamCall :=
  let researchThreadId := "research_" +:+ activeThreadId in
  let monetizationThreadId := "monetization_" +:+ activeThreadId in
  let isNewThread := negb (truthy researchCreatedAt) && negb (truthy monetizationCreatedAt) in
  let isMonetizationRequest :=
    if isNewThread then includes message "@monetize"
    else if truthy monetizationCreatedAt then true else false in
  let thread_id := if isMonetizationRequest then monetizationThreadId else researchThreadId in
  let stateSnapshotCreatedAt :=
    if isMonetizationRequest then monetizationCreatedAt else researchCreatedAt in
  let finalIsNewThread := negb (truthy stateSnapshotCreatedAt) in
  if finalIsNewThread then
    let graphType := if isMonetizationRequest then "MONETIZATION" else "RESEARCH" in
    let langGraphMessages :=
      (toLangGraphMessage <$> threadMessages conversationContext)
      ++ [HumanMessage message] in
    let initialState :=
      if String.eqb graphType "MONETIZATION" then
        {| activeThreadId := Some activeThreadId;
           currentMonetizationAgent := Some ""%string;
           marketAnalysis := Some ∅;
           messages := Some langGraphMessages;
           monetizationAgents := Some [];
           originalDisclosure := Some None;
           rootId := Some rootId;
           GraphBuilder.userId := Some userId;
           currentStep := None; currentSteps := None; analysisResults := None |}
      else
        {| activeThreadId := Some activeThreadId;
           analysisResults := Some ∅;
           currentStep := Some ""%string;
           messages := Some langGraphMessages;
           rootId := Some rootId;
           GraphBuilder.userId := Some userId;
           currentSteps := None; currentMonetizationAgent := None;
           monetizationAgents := None; originalDisclosure := None;
           marketAnalysis := None |} in
    {| call_monetization := isMonetizationRequest;
       call_thread_id := thread_id;
       call_input := InitialState initialState |}
  else
    {| call_monetization := isMonetizationRequest;
       call_thread_id := thread_id;
       call_input := Resume [HumanMessage message] |}.

End Legacy.

(** * Properties *)

(** ** Insertion-ordered maps *)

Module MapFacts.
Import JS.

Section WithValues.
Context {V : Type}.
Implicit Types (m : Map V) (k : string) (v : V).

Lemma Map_get_set_eq m k v : Map_get (Map_set m k v) k = Some v.
Proof.
  induction m as [|[k' v'] m IH]; simpl.
  - by rewrite decide_True.
  - destruct (decide (k' = k)) as [->|Hne]; simpl.
    + by rewrite decide_True.
    + by rewrite decide_False.
Qed.

Lemma Map_get_set_ne m k k' v :
  k ≠ k' → Map_get (Map_set m k v) k' = Map_get m k'.
Proof.
  intros Hne. induction m as [|[k0 v0] m IH]; simpl.
  - by rewrite decide_False.
  - destruct (decide (k0 = k)) as [->|Hk0]; simpl.
    + by rewrite !decide_False.
    + by rewrite IH.
Qed.

Lemma Map_get_None m k : Map_get m k = None ↔ k ∉ Map_keys m.
Proof.
  unfold Map_keys. induction m as [|[k' v'] m IH]; simpl.
  - split; [intros _; apply not_elem_of_nil | done].
  - rewrite not_elem_of_cons. destruct (decide (k' = k)) as [->|Hne].
    + split; [done | intros [? _]; done].
    + rewrite IH. split; [intros ?; split; [congruence | done] | intros [_ ?]; done].
Qed.

Lemma Map_get_Some_elem m k v : Map_get m k = Some v → (k, v) ∈ m.
Proof.
  induction m as [|[k' v'] m IH]; simpl; [done |].
  destruct (decide (k' = k)) as [->|Hne].
  - intros [= ->]. apply elem_of_cons; by left.
  - intros H. apply elem_of_cons; right; by apply IH.
Qed.

Lemma Map_get_elem m k v : NoDup (Map_keys m) → (k, v) ∈ m → Map_get m k = Some v.
Proof.
  unfold Map_keys. induction m as [|[k' v'] m IH]; simpl.
  - intros _ H. by apply elem_of_nil in H.
  - intros [Hk' Hnd]%NoDup_cons [[= -> ->] | Hin]%elem_of_cons.
    + by rewrite decide_True.
    + destruct (decide (k' = k)) as [->|Hne]; [|by apply IH].
      exfalso. apply Hk'. apply list_elem_of_fmap. by exists (k, v).
Qed.

Lemma Map_set_fresh m k v : Map_get m k = None → Map_set m k v = m ++ [(k, v)].
Proof.
  induction m as [|[k' v'] m IH]; simpl; [done |].
  destruct (decide (k' = k)); [done |]. intros H. by rewrite IH.
Qed.

Lemma Map_keys_set_present m k v :
  is_Some (Map_get m k) → Map_keys (Map_set m k v) = Map_keys m.
Proof.
  unfold Map_keys. induction m as [|[k' v'] m IH]; simpl.
  - by intros [? ?].
  - destruct (decide (k' = k)) as [->|Hne]; [done |].
    intros H. rewrite fmap_cons. f_equal. by apply IH.
Qed.

Lemma Map_set_NoDup m k v : NoDup (Map_keys m) → NoDup (Map_keys (Map_set m k v)).
Proof.
  intros Hnd. destruct (Map_get m k) as [v0|] eqn:Hget.
  - rewrite Map_keys_set_present; [done | by rewrite Hget].
  - rewrite Map_set_fresh by done. unfold Map_keys in *. rewrite fmap_app. simpl.
    apply NoDup_app. split_and!; [done | | apply NoDup_singleton].
    intros k' Hin ->%list_elem_of_singleton. by apply Map_get_None in Hget.
Qed.

Lemma Map_set_split m k v0 :
  Map_get m k = Some v0 →
  ∃ pre post, m = pre ++ (k, v0) :: post ∧ (k ∉ Map_keys pre) ∧
              ∀ v, Map_set m k v = pre ++ (k, v) :: post.
Proof.
  unfold Map_keys. induction m as [|[k' v'] m IH]; simpl; [done |].
  destruct (decide (k' = k)) as [->|Hne].
  - intros [= ->]. exists [], m. split_and!; [done | apply not_elem_of_nil | done].
  - intros H. destruct (IH H) as (pre & post & -> & Hpre & Hset).
    exists ((k', v') :: pre), post. split_and!; [done | |].
    + simpl. rewrite not_elem_of_cons. split; [congruence | done].
    + intros v. simpl. by rewrite Hset.
Qed.

Lemma Map_get_insertIndexed_eq m i k v :
  Map_get m k = None → Map_get (insertIndexed m i k v) k = Some v.
Proof.
  induction m as [|[k' v'] m IH]; simpl.
  - intros _. by rewrite decide_True.
  - destruct (decide (k' = k)) as [->|Hne]; [done |]. intros Hm.
    destruct (arrayIndex k') as [j|]; [destruct (j <? i)%N |]; simpl.
    + rewrite decide_False by done. by apply IH.
    + by rewrite decide_True.
    + by rewrite decide_True.
Qed.

Lemma Map_get_insertIndexed_ne m i k k' v :
  k ≠ k' → Map_get (insertIndexed m i k v) k' = Map_get m k'.
Proof.
  intros Hne. induction m as [|[k0 v0] m IH]; simpl.
  - by rewrite decide_False.
  - destruct (arrayIndex k0) as [j|]; [destruct (j <? i)%N |]; simpl.
    + by rewrite IH.
    + by rewrite (decide_False (P := k = k')).
    + by rewrite (decide_False (P := k = k')).
Qed.

Lemma insertIndexed_keys m i k v : Map_keys (insertIndexed m i k v) ≡ₚ k :: Map_keys m.
Proof.
  unfold Map_keys. induction m as [|[k' v'] m IH]; simpl; [done |].
  destruct (arrayIndex k') as [j|]; [destruct (j <? i)%N |]; simpl; [|done|done].
  rewrite IH. apply Permutation_swap.
Qed.

Lemma Object_set_proto m v : Object_set m "__proto__" v = m.
Proof. done. Qed.

Lemma Object_set_get_eq m k v :
  k ≠ "__proto__"%string → Map_get (Object_set m k v) k = Some v.
Proof.
  intros Hk. unfold Object_set. apply String.eqb_neq in Hk. rewrite Hk.
  destruct (arrayIndex k) as [i|], (Map_get m k) as [v0|] eqn:Hget;
    try apply Map_get_set_eq. by apply Map_get_insertIndexed_eq.
Qed.

Lemma Object_set_get_ne m k k' v :
  k ≠ k' → Map_get (Object_set m k v) k' = Map_get m k'.
Proof.
  intros Hne. unfold Object_set. destruct (String.eqb k "__proto__"); [done |].
  destruct (arrayIndex k) as [i|], (Map_get m k) as [v0|] eqn:Hget;
    try (by apply Map_get_set_ne). by apply Map_get_insertIndexed_ne.
Qed.

Lemma Object_set_NoDup m k v :
  NoDup (Map_keys m) → NoDup (Map_keys (Object_set m k v)).
Proof.
  intros Hnd. unfold Object_set. destruct (String.eqb k "__proto__"); [done |].
  destruct (arrayIndex k) as [i|], (Map_get m k) as [v0|] eqn:Hget;
    try (by apply Map_set_NoDup).
  rewrite insertIndexed_keys. apply NoDup_cons. split; [|done].
  by apply Map_get_None.
Qed.

Lemma insertIndexed_ordered m i k v :
  arrayIndex k = Some i →
  propertyOrdered (Map_keys m) → propertyOrdered (Map_keys (insertIndexed m i k v)).
Proof.
  intros Hk. unfold propertyOrdered.
  induction m as [|[k' v'] m IH]; intros Hsorted.
  - repeat constructor.
  - change (Map_keys ((k', v') :: m)) with (k' :: Map_keys m) in Hsorted.
    apply StronglySorted_inv in Hsorted as [Hm Hall]. cbn [insertIndexed].
    destruct (arrayIndex k') as [j|] eqn:Hk'; [destruct (j <? i)%N eqn:Hji |].
    + change (StronglySorted keyBefore (k' :: Map_keys (insertIndexed m i k v))).
      constructor; [by apply IH |].
      rewrite insertIndexed_keys. constructor; [|done].
      unfold keyBefore. rewrite Hk', Hk. apply N.ltb_lt in Hji. lia.
    + change (StronglySorted keyBefore (k :: k' :: Map_keys m)).
      constructor; [by constructor |].
      apply N.ltb_ge in Hji. constructor.
      * unfold keyBefore. by rewrite Hk, Hk'.
      * eapply Forall_impl; [exact Hall |]. intros x. unfold keyBefore.
        rewrite Hk, Hk'. destruct (arrayIndex x); [lia | done].
    + change (StronglySorted keyBefore (k :: k' :: Map_keys m)).
      constructor; [by constructor |]. constructor.
      * unfold keyBefore. by rewrite Hk, Hk'.
      * eapply Forall_impl; [exact Hall |]. intros x. unfold keyBefore.
        rewrite Hk, Hk'. by destruct (arrayIndex x).
Qed.

(** Assignments keep the own properties in the order of [Object.entries]. *)
Lemma Object_set_ordered m k v :
  propertyOrdered (Map_keys m) → propertyOrdered (Map_keys (Object_set m k v)).
Proof.
  intros Hsorted. unfold Object_set. destruct (String.eqb k "__proto__"); [done |].
  destruct (Map_get m k) as [v0|] eqn:Hget.
  - assert (Hkeys : Map_keys (Map_set m k v) = Map_keys m).
    { apply Map_keys_set_present. by rewrite Hget. }
    destruct (arrayIndex k); by rewrite Hkeys.
  - destruct (arrayIndex k) as [i|] eqn:Hk; [by apply insertIndexed_ordered |].
    rewrite Map_set_fresh by done. unfold propertyOrdered, Map_keys in *.
    rewrite fmap_app. apply StronglySorted_app_2; [| done | repeat constructor].
    intros x1 x2 _ Hx2. cbn [fmap list_fmap fst] in Hx2.
    apply list_elem_of_singleton in Hx2 as ->. unfold keyBefore. rewrite Hk.
    by destruct (arrayIndex x1).
Qed.

(** No assignment creates an entry named [__proto__]. *)
Lemma Object_set_never_proto m k v :
  Map_get m "__proto__" = None → Map_get (Object_set m k v) "__proto__" = None.
Proof.
  intros Hm. destruct (decide (k = "__proto__"%string)) as [->|Hne].
  - by rewrite Object_set_proto.
  - by rewrite Object_set_get_ne.
Qed.

End WithValues.
End MapFacts.

(** ** Initial states and reducers *)

Module StateTheory.
Import JS GraphBuilder.

Lemma isGraphType_elem x : isGraphType x = true ↔ x ∈ GRAPH_TYPES.
Proof.
  unfold isGraphType. rewrite existsb_exists. split.
  - intros (y & Hy%list_elem_of_In & ->%String.eqb_eq). done.
  - intros H. exists x. split; [by apply list_elem_of_In | apply String.eqb_refl].
Qed.

(** C6. [getInitialStateRuntime] is a total function (it has no failing
    path). For a graph-type string outside [GRAPH_TYPES] it returns the state
    that [makeDefault] builds from the given messages and ids: the three ids,
    the messages, an empty [analysisResults] and an empty [currentStep], and
    no other field. Each recognised graph type gets the state of its own
    factory, given here field by field: the monetization state has the agent
    fields, an empty [marketAnalysis] and a [null] [originalDisclosure] and
    neither [analysisResults] nor [currentStep]; the concurrent research
    state has an empty list of [currentSteps] where the research state has
    an empty [currentStep]. *)
Theorem getInitialStateRuntime_fallback graphTypeStr msgs ids :
  (graphTypeStr ∉ GRAPH_TYPES →
     getInitialStateRuntime graphTypeStr msgs ids = makeDefault msgs ids
     ∧ makeDefault msgs ids
       = {| activeThreadId := Some (ids_activeThreadId ids);
            messages := Some msgs;
            rootId := Some (ids_rootId ids);
            userId := Some (ids_userId ids);
            currentStep := Some ""%string;
            currentSteps := None;
            analysisResults := Some ∅;
            currentMonetizationAgent := None;
            monetizationAgents := None;
            originalDisclosure := None;
            marketAnalysis := None |})
  ∧ getInitialStateRuntime "monetizationGraph" msgs ids
    = {| activeThreadId := Some (ids_activeThreadId ids);
         messages := Some msgs;
         rootId := Some (ids_rootId ids);
         userId := Some (ids_userId ids);
         currentStep := None;
         currentSteps := None;
         analysisResults := None;
         currentMonetizationAgent := Some ""%string;
         monetizationAgents := Some [];
         originalDisclosure := Some None;
         marketAnalysis := Some ∅ |}
  ∧ getInitialStateRuntime "researchGraph" msgs ids
    = {| activeThreadId := Some (ids_activeThreadId ids);
         messages := Some msgs;
         rootId := Some (ids_rootId ids);
         userId := Some (ids_userId ids);
         currentStep := Some ""%string;
         currentSteps := None;
         analysisResults := Some ∅;
         currentMonetizationAgent := None;
         monetizationAgents := None;
         originalDisclosure := None;
         marketAnalysis := None |}
  ∧ getInitialStateRuntime "concurrentResearchGraph" msgs ids
    = {| activeThreadId := Some (ids_activeThreadId ids);
         messages := Some msgs;
         rootId := Some (ids_rootId ids);
         userId := Some (ids_userId ids);
         currentStep := None;
         currentSteps := Some [];
         analysisResults := Some ∅;
         currentMonetizationAgent := None;
         monetizationAgents := None;
         originalDisclosure := None;
         marketAnalysis := None |}.
Proof.
  split; [|done].
  intros Hnot. split; [|done]. unfold getInitialStateRuntime.
  destruct (isGraphType graphTypeStr) eqn:Hg; [|done].
  by apply isGraphType_elem in Hg.
Qed.

Lemma getInitialStateRuntime_fallback_witness :
  getInitialStateRuntime "dynamicShortGraph" [HumanMessage "hello"]
    (mkIds "dynamicShortGraph_thread_1_a" "root_thread_1_a" "test-user-123")
  = {| activeThreadId := Some "dynamicShortGraph_thread_1_a"%string;
       messages := Some [HumanMessage "hello"];
       rootId := Some "root_thread_1_a"%string;
       userId := Some "test-user-123"%string;
       currentStep := Some ""%string;
       currentSteps := None;
       analysisResults := Some ∅;
       currentMonetizationAgent := None;
       monetizationAgents := None;
       originalDisclosure := None;
       marketAnalysis := None |}.
Proof.
  destruct (proj1 (getInitialStateRuntime_fallback "dynamicShortGraph"
                     [HumanMessage "hello"]
                     (mkIds "dynamicShortGraph_thread_1_a" "root_thread_1_a"
                        "test-user-123"))) as [Hrun Hdefault].
  - vm_compute. intros H. repeat (inversion H as [|? ? ? H']; clear H; rename H' into H).
  - rewrite Hrun. exact Hdefault.
Defined.

Lemma spreadReducer_union {V} (a b : gmap string V) : spreadReducer a b = b ∪ a.
Proof.
  assert (Hfold : ∀ m m0 : gmap string V,
             map_fold (fun k v acc => <[k := v]> acc) m0 m = m ∪ m0).
  { intros m m0. induction m as [|k v m Hk Hfirst IH] using map_first_key_ind.
    - by rewrite map_fold_empty, (left_id_L ∅ (∪)).
    - rewrite map_fold_insert_first_key by done.
      by rewrite IH, insert_union_l. }
  unfold spreadReducer. by rewrite !Hfold, (right_id_L ∅ (∪)).
Qed.

(** C7. The append reducer is associative: reducing with [a] and then with
    [b] equals reducing once with the concatenation of [a] and [b]. The
    shallow-merge reducer gives the same result in either order for two
    partials with disjoint key sets, and on a key that the partial applied
    last defines, the value of that partial is the one kept. *)
Theorem reducers_fan_in {A V} (s a b : list A) (m p q : gmap string V) :
  concatReducer (concatReducer s a) b = concatReducer s (concatReducer a b)
  ∧ (dom p ## dom q →
       spreadReducer (spreadReducer m p) q = spreadReducer (spreadReducer m q) p)
  ∧ (∀ k v, q !! k = Some v → spreadReducer (spreadReducer m p) q !! k = Some v).
Proof.
  split_and!.
  - unfold concatReducer. by rewrite (assoc_L (++)).
  - intros Hdisj%map_disjoint_dom. rewrite !spreadReducer_union.
    by rewrite !(assoc_L (∪)), (map_union_comm q p).
  - intros k v Hq. rewrite !spreadReducer_union. by apply lookup_union_Some_l.
Qed.

Lemma reducers_fan_in_witness :
  spreadReducer (spreadReducer ({[ "inputAnalysis" := 1 ]} : gmap string Z)
                               {[ "noveltyAnalysis" := 2 ]})
                {[ "impactAnalysis" := 3 ]}
  = spreadReducer (spreadReducer ({[ "inputAnalysis" := 1 ]} : gmap string Z)
                                 {[ "impactAnalysis" := 3 ]})
                  {[ "noveltyAnalysis" := 2 ]}
  ∧ spreadReducer (spreadReducer ({[ "inputAnalysis" := 1 ]} : gmap string Z)
                                 {[ "noveltyAnalysis" := 2 ]})
                  {[ "noveltyAnalysis" := 7 ]} !! "noveltyAnalysis" = Some 7.
Proof.
  split.
  - apply (proj1 (proj2 (reducers_fan_in (@nil Z) [] []
             {[ "inputAnalysis" := 1 ]} {[ "noveltyAnalysis" := 2 ]}
             {[ "impactAnalysis" := 3 ]}))).
    rewrite !dom_singleton_L. intros x H1%elem_of_singleton H2%elem_of_singleton.
    congruence.
  - apply (proj2 (proj2 (reducers_fan_in (@nil Z) [] []
             {[ "inputAnalysis" := 1 ]} {[ "noveltyAnalysis" := 2 ]}
             {[ "noveltyAnalysis" := 7 ]}))).
    reflexivity.
Defined.

End StateTheory.

(** ** The thread store *)

Module StoreTheory.
Import JS ThreadStore MapFacts Samples.

Lemma updateLastUpdatedAt_missing now data (store : Store) :
  Map_get store (makeKey (UpdateLastUpdatedDto.userId data)
                         (UpdateLastUpdatedDto.threadId data)) = None →
  Repository.updateLastUpdatedAt now data store =
    (store, Throw (TypeError "Cannot read properties of undefined (reading 'userId')")).
Proof. intros H. unfold Repository.updateLastUpdatedAt. by rewrite H. Qed.

Lemma updateLastUpdatedAt_present now data (store : Store) cur :
  Map_get store (makeKey (UpdateLastUpdatedDto.userId data)
                         (UpdateLastUpdatedDto.threadId data)) = Some cur →
  Repository.updateLastUpdatedAt now data store =
    let updated :=
      setLastUpdatedAt (default now (UpdateLastUpdatedDto.lastUpdatedAt data)) cur in
    (Map_set store (makeKey (UpdateLastUpdatedDto.userId data)
                            (UpdateLastUpdatedDto.threadId data)) updated,
     Normal updated).
Proof. intros H. unfold Repository.updateLastUpdatedAt. by rewrite H. Qed.

Lemma colonFree_cons c s : colonFree (String c s) → c ≠ ":"%char ∧ colonFree s.
Proof.
  unfold colonFree.
  change (includes (String c s) ":")
    with (match Ascii.ascii_dec ":" c with
          | left _ => String.prefix "" s
          | right _ => false
          end || includes s ":").
  destruct (Ascii.ascii_dec ":" c) as [<-|Hne].
  - destruct s; discriminate.
  - intros H. split; [congruence | done].
Qed.

(** Keys are read up to their first colon: without a colon in the user ids,
    equal keys come from equal pairs. *)
Lemma makeKey_colonFree u1 t1 u2 t2 :
  colonFree u1 → colonFree u2 → makeKey u1 t1 = makeKey u2 t2 → u1 = u2 ∧ t1 = t2.
Proof.
  unfold makeKey. revert u2.
  induction u1 as [|c1 u1 IH]; intros [|c2 u2] H1 H2 Heq; simpl in Heq.
  - injection Heq as Heq. done.
  - apply colonFree_cons in H2 as [Hc _]. injection Heq as Hc' _. congruence.
  - apply colonFree_cons in H1 as [Hc _]. injection Heq as Hc' _. congruence.
  - apply colonFree_cons in H1 as [_ H1]. apply colonFree_cons in H2 as [_ H2].
    injection Heq as -> Heq. destruct (IH u2 H1 H2 Heq) as [-> ->]. done.
Qed.

(** C10, as amended. When no record is stored under the key
    [makeKey userId threadId], [updateLastUpdatedAt] returns no record: it
    throws a [TypeError] (the not-found branch reads a field of the missing
    record) and leaves the store as it was. That is the case of every pair
    without a record when the store holds each record under the key of the
    record's own ids and neither the user id of the pair nor a stored user id
    contains a colon. When a record is stored under the key, the call returns
    that record with [lastUpdatedAt] replaced and every other field ([id],
    [userId], [rootThreadId], [threadId], [graphType], [createdAt]) kept, and
    stores it under the same key. In every case the keys of the store, in
    order, are unchanged, so an update never creates a record. *)
Theorem updateLastUpdatedAt_never_creates now data (store : Store) :
  let key := makeKey (UpdateLastUpdatedDto.userId data)
                     (UpdateLastUpdatedDto.threadId data) in
  let out := Repository.updateLastUpdatedAt now data store in
  (Map_get store key = None →
     out = (store, Throw (TypeError "Cannot read properties of undefined (reading 'userId')")))
  ∧ (keyed store →
     colonFree (UpdateLastUpdatedDto.userId data) →
     (∀ r, r ∈ Map_values store → colonFree (ThreadRecord.userId r)) →
     (∀ r, r ∈ Map_values store →
        ¬ (ThreadRecord.userId r = UpdateLastUpdatedDto.userId data
           ∧ ThreadRecord.threadId r = UpdateLastUpdatedDto.threadId data)) →
     Map_get store key = None)
  ∧ (∀ cur, Map_get store key = Some cur →
       ∃ updated,
         out = (Map_set store key updated, Normal updated)
         ∧ ThreadRecord.id updated = ThreadRecord.id cur
         ∧ ThreadRecord.userId updated = ThreadRecord.userId cur
         ∧ ThreadRecord.rootThreadId updated = ThreadRecord.rootThreadId cur
         ∧ ThreadRecord.threadId updated = ThreadRecord.threadId cur
         ∧ ThreadRecord.graphType updated = ThreadRecord.graphType cur
         ∧ ThreadRecord.createdAt updated = ThreadRecord.createdAt cur
         ∧ ThreadRecord.lastUpdatedAt updated
             = default now (UpdateLastUpdatedDto.lastUpdatedAt data))
  ∧ Map_keys out.1 = Map_keys store.
Proof.
  intros key out. split_and!.
  - intros H. subst out key. by rewrite updateLastUpdatedAt_missing.
  - intros [_ Hkeyed] Hdata Hstored Hnone.
    destruct (Map_get store key) as [r|] eqn:Hget; [|done]. exfalso.
    apply Map_get_Some_elem in Hget.
    assert (Hr : r ∈ Map_values store).
    { unfold Map_values. apply list_elem_of_fmap. by exists (key, r). }
    apply (Hnone r Hr). pose proof (Hkeyed _ _ Hget) as Hkey. subst key.
    symmetry in Hkey. apply makeKey_colonFree in Hkey as [-> ->]; [done | | done].
    by apply Hstored.
  - intros cur H. eexists. subst out key.
    rewrite (updateLastUpdatedAt_present _ _ _ _ H). by split_and!.
  - subst out. destruct (Map_get store key) as [cur|] eqn:H; subst key.
    + rewrite (updateLastUpdatedAt_present _ _ _ _ H). simpl.
      apply Map_keys_set_present. by rewrite H.
    + by rewrite updateLastUpdatedAt_missing.
Qed.

Lemma store1_keyed : keyed store1.
Proof.
  split.
  - apply (bool_decide_unpack _). vm_compute. exact I.
  - intros k r Hin. apply list_elem_of_singleton in Hin. injection Hin as -> ->.
    reflexivity.
Qed.

Lemma updateLastUpdatedAt_never_creates_witness :
  Repository.updateLastUpdatedAt 2000
    (UpdateLastUpdatedDto.mk "test-user-123" "researchGraph_thread_9_z" None) store1
  = (store1, Throw (TypeError "Cannot read properties of undefined (reading 'userId')"))
  ∧ (∃ updated,
       Repository.updateLastUpdatedAt 2000
         (UpdateLastUpdatedDto.mk "test-user-123" "researchGraph_thread_1_a" None) store1
       = (Map_set store1 (makeKey "test-user-123" "researchGraph_thread_1_a") updated,
          Normal updated)
       ∧ ThreadRecord.lastUpdatedAt updated = 2000).
Proof.
  split.
  - destruct (updateLastUpdatedAt_never_creates 2000
                (UpdateLastUpdatedDto.mk "test-user-123" "researchGraph_thread_9_z" None)
                store1) as (Hthrow & Habsent & _ & _).
    apply Hthrow. apply Habsent.
    + exact store1_keyed.
    + reflexivity.
    + intros r Hr. apply list_elem_of_singleton in Hr as ->. reflexivity.
    + intros r Hr [_ Ht]. apply list_elem_of_singleton in Hr as ->. discriminate Ht.
  - destruct (proj1 (proj2 (proj2 (updateLastUpdatedAt_never_creates 2000
               (UpdateLastUpdatedDto.mk "test-user-123" "researchGraph_thread_1_a" None)
               store1))) _ eq_refl) as (updated & Hout & H).
    exists updated. split; [exact Hout | apply H].
Defined.

(** C10, the claim as stated fails: the store holds one record, of user
    [a::b] and thread [c]. The pair of user [a] and thread [b::c] has no
    record, yet [updateLastUpdatedAt] for it returns a record: the two pairs
    have the same key, and the record of the other user is the one updated. *)
Lemma update_reaches_another_pair :
  let other :=
    {| ThreadRecord.id := makeKey "a::b" "c";
       ThreadRecord.userId := "a::b";
       ThreadRecord.rootThreadId := "root_c";
       ThreadRecord.threadId := "c";
       ThreadRecord.graphType := "researchGraph";
       ThreadRecord.createdAt := 1000;
       ThreadRecord.lastUpdatedAt := 1000 |} in
  let store := (Repository.createThread 1000
                  (CreateThreadDto.mk "a::b" "root_c" "c" "researchGraph" None None) []).1 in
  store = [(makeKey "a::b" "c", other)]
  ∧ Repository.findThreadsByUser "a" store = []
  ∧ (∀ r, r ∈ Map_values store →
       ¬ (ThreadRecord.userId r = "a"%string ∧ ThreadRecord.threadId r = "b::c"%string))
  ∧ Repository.updateLastUpdatedAt 2000 (UpdateLastUpdatedDto.mk "a" "b::c" None) store
    = ([(makeKey "a::b" "c", setLastUpdatedAt 2000 other)],
       Normal (setLastUpdatedAt 2000 other)).
Proof.
  intros other store. split_and!; [reflexivity | reflexivity | | reflexivity].
  intros r Hr [Hu _]. apply list_elem_of_singleton in Hr as ->. discriminate Hu.
Qed.

End StoreTheory.

(** ** Thread lifecycle *)

Module LifecycleTheory.
Import JS ThreadStore Orchestrator MapFacts StoreTheory Samples.

Lemma keyed_nil : keyed [].
Proof. split; [constructor | intros k r H; by apply elem_of_nil in H]. Qed.

Lemma createThread_present now data (store : Store) existing :
  Map_get store (makeKey (CreateThreadDto.userId data) (CreateThreadDto.threadId data))
    = Some existing →
  Repository.createThread now data store = (store, existing).
Proof. intros H. unfold Repository.createThread. by rewrite H. Qed.

Lemma createThread_fresh now data (store : Store) :
  let key := makeKey (CreateThreadDto.userId data) (CreateThreadDto.threadId data) in
  Map_get store key = None →
  Repository.createThread now data store =
    let createdAt := default now (CreateThreadDto.createdAt data) in
    let record :=
      ThreadRecord.mk key (CreateThreadDto.userId data)
        (CreateThreadDto.rootThreadId data) (CreateThreadDto.threadId data)
        (CreateThreadDto.graphType data) createdAt
        (default createdAt (CreateThreadDto.lastUpdatedAt data)) in
    (store ++ [(key, record)], record).
Proof.
  intros key H. unfold Repository.createThread. fold key. rewrite H. simpl.
  by rewrite Map_set_fresh.
Qed.

Lemma keyed_createThread now data (store : Store) :
  keyed store → keyed (Repository.createThread now data store).1.
Proof.
  intros [Hnd Hk].
  destruct (Map_get store (makeKey (CreateThreadDto.userId data)
                                   (CreateThreadDto.threadId data))) as [r|] eqn:Hget.
  - by rewrite (createThread_present _ _ _ _ Hget).
  - rewrite createThread_fresh by done. simpl. split.
    + unfold Map_keys. rewrite fmap_app. simpl. apply NoDup_app. split_and!.
      * done.
      * intros k Hin [->|[]%elem_of_nil]%elem_of_cons. by apply Map_get_None in Hget.
      * apply NoDup_singleton.
    + intros k r [Hin|Hin]%elem_of_app; [by apply Hk |].
      apply list_elem_of_singleton in Hin. by injection Hin as -> ->.
Qed.

Lemma keyed_updateLastUpdatedAt now data (store : Store) :
  keyed store → keyed (Repository.updateLastUpdatedAt now data store).1.
Proof.
  intros [Hnd Hk].
  destruct (Map_get store (makeKey (UpdateLastUpdatedDto.userId data)
                                   (UpdateLastUpdatedDto.threadId data))) as [r|] eqn:Hget.
  - rewrite (updateLastUpdatedAt_present _ _ _ _ Hget). simpl.
    destruct (Map_set_split _ _ _ Hget) as (pre & post & Hstore & Hpre & Hset).
    split.
    + rewrite Map_keys_set_present; [done | by rewrite Hget].
    + rewrite Hset. intros k r' Hin. rewrite Hstore in Hk.
      apply elem_of_app in Hin as [Hin | [Heq | Hin]%elem_of_cons].
      * apply Hk. apply elem_of_app. by left.
      * injection Heq as -> ->. simpl.
        apply (Hk _ r). apply elem_of_app. right. apply elem_of_cons. by left.
      * apply Hk. apply elem_of_app. right. apply elem_of_cons. by right.
  - by rewrite updateLastUpdatedAt_missing.
Qed.

(** What the summary built by [findThreadTypeCountsByUser] says about the
    threads it was folded over. *)
Lemma countThread_sound (seen : list ThreadRecord.t) acc item :
  (∀ g h, acc !! g = Some h →
     ∃ r, r ∈ seen ∧ ThreadRecord.graphType r = g ∧ describes h r) →
  ∀ g h, countThread acc item !! g = Some h →
     ∃ r, r ∈ seen ++ [item] ∧ ThreadRecord.graphType r = g ∧ describes h r.
Proof.
  intros Hacc g h. unfold countThread.
  assert (Hold : ∀ h', acc !! g = Some h' →
            ∃ r, r ∈ seen ++ [item] ∧ ThreadRecord.graphType r = g ∧ describes h' r).
  { intros h' Hh'. destruct (Hacc _ _ Hh') as (r & Hr & Hg & Hd).
    exists r. split; [apply elem_of_app; by left | done]. }
  assert (Hnew : ∃ r, r ∈ seen ++ [item] ∧ ThreadRecord.graphType r = ThreadRecord.graphType item
                      ∧ ThreadRecord.threadId r = ThreadRecord.threadId item
                      ∧ ThreadRecord.rootThreadId r = ThreadRecord.rootThreadId item
                      ∧ ThreadRecord.lastUpdatedAt r = ThreadRecord.lastUpdatedAt item).
  { exists item. split; [|done]. apply elem_of_app. right. by apply list_elem_of_singleton. }
  destruct (acc !! ThreadRecord.graphType item) as [existing|] eqn:Hex.
  - destruct (decide (ThreadRecord.graphType item = g)) as [<-|Hne].
    + rewrite lookup_insert_eq. intros [= <-]. case_bool_decide.
      * destruct Hnew as (r & ? & ? & ? & ? & ?). by exists r.
      * destruct (Hold _ Hex) as (r & ? & ? & ? & ? & ?). by exists r.
    + rewrite lookup_insert_ne by done. apply Hold.
  - destruct (decide (ThreadRecord.graphType item = g)) as [<-|Hne].
    + rewrite lookup_insert_eq. intros [= <-].
      destruct Hnew as (r & ? & ? & ? & ? & ?). by exists r.
    + rewrite lookup_insert_ne by done. apply Hold.
Qed.

Lemma countThread_complete (seen : list ThreadRecord.t) acc item :
  (∀ r, r ∈ seen → is_Some (acc !! ThreadRecord.graphType r)) →
  ∀ r, r ∈ seen ++ [item] → is_Some (countThread acc item !! ThreadRecord.graphType r).
Proof.
  intros Hacc r Hr. unfold countThread.
  destruct (acc !! ThreadRecord.graphType item) as [existing|] eqn:Hex;
    (destruct (decide (ThreadRecord.graphType item = ThreadRecord.graphType r)) as [<-|Hne];
     [rewrite lookup_insert_eq; by eexists |]);
    rewrite lookup_insert_ne by done;
    (apply elem_of_app in Hr as [Hr | ->%list_elem_of_singleton]; [by apply Hacc | done]).
Qed.

Lemma countThread_latest (seen : list ThreadRecord.t) acc item :
  (∀ r, r ∈ seen → is_Some (acc !! ThreadRecord.graphType r)) →
  (∀ h r, r ∈ seen → acc !! ThreadRecord.graphType r = Some h →
     ThreadRecord.lastUpdatedAt r ≤ lastUpdatedAt h) →
  ∀ h r, r ∈ seen ++ [item] →
     countThread acc item !! ThreadRecord.graphType r = Some h →
     ThreadRecord.lastUpdatedAt r ≤ lastUpdatedAt h.
Proof.
  intros Hc Hl h r Hr. unfold countThread.
  apply elem_of_app in Hr as [Hr | ->%list_elem_of_singleton].
  - destruct (Hc r Hr) as [h0 Hh0]. pose proof (Hl _ _ Hr Hh0) as Hle.
    destruct (decide (ThreadRecord.graphType item = ThreadRecord.graphType r)) as [Heq|Hne].
    + rewrite Heq, Hh0, lookup_insert_eq. intros [= <-].
      case_bool_decide; simpl; lia.
    + destruct (acc !! ThreadRecord.graphType item);
        rewrite lookup_insert_ne by done; intros Hh; rewrite Hh0 in Hh;
        injection Hh as <-; done.
  - destruct (acc !! ThreadRecord.graphType item) as [existing|];
      rewrite lookup_insert_eq; intros [= <-]; [|simpl; lia].
    case_bool_decide; simpl; lia.
Qed.

Lemma summary_fold (threads seen : list ThreadRecord.t) acc :
  (∀ g h, acc !! g = Some h →
     ∃ r, r ∈ seen ∧ ThreadRecord.graphType r = g ∧ describes h r) →
  (∀ r, r ∈ seen → is_Some (acc !! ThreadRecord.graphType r)) →
  (∀ h r, r ∈ seen → acc !! ThreadRecord.graphType r = Some h →
     ThreadRecord.lastUpdatedAt r ≤ lastUpdatedAt h) →
  (∀ g h, fold_left countThread threads acc !! g = Some h →
     ∃ r, r ∈ seen ++ threads ∧ ThreadRecord.graphType r = g ∧ describes h r)
  ∧ (∀ r, r ∈ seen ++ threads →
       is_Some (fold_left countThread threads acc !! ThreadRecord.graphType r))
  ∧ (∀ h r, r ∈ seen ++ threads →
       fold_left countThread threads acc !! ThreadRecord.graphType r = Some h →
       ThreadRecord.lastUpdatedAt r ≤ lastUpdatedAt h).
Proof.
  revert seen acc. induction threads as [|item threads IH]; intros seen acc Hs Hc Hl.
  - rewrite (right_id_L [] (++)). done.
  - simpl. replace (seen ++ item :: threads) with ((seen ++ [item]) ++ threads)
      by (by rewrite <- (assoc_L (++))).
    apply IH;
      [by apply countThread_sound | by apply countThread_complete
       | by apply countThread_latest].
Qed.

(** The summary of a user's threads: every entry points at a record of that
    user and graph type, every graph type the user has a record of has an
    entry, and no record of that graph type was updated later than the one
    the entry points at. *)
Lemma summary_spec userId (store : Store) :
  (∀ g h, findThreadTypeCountsByUser userId store !! g = Some h →
     ∃ r, r ∈ Map_values store ∧ ThreadRecord.userId r = userId
          ∧ ThreadRecord.graphType r = g ∧ describes h r)
  ∧ (∀ r, r ∈ Map_values store → ThreadRecord.userId r = userId →
       is_Some (findThreadTypeCountsByUser userId store !! ThreadRecord.graphType r))
  ∧ (∀ h r, r ∈ Map_values store → ThreadRecord.userId r = userId →
       findThreadTypeCountsByUser userId store !! ThreadRecord.graphType r = Some h →
       ThreadRecord.lastUpdatedAt r ≤ lastUpdatedAt h).
Proof.
  unfold findThreadTypeCountsByUser, Service.readThreadsByUser,
    Repository.findThreadsByUser.
  destruct (summary_fold
              (filter (λ r, ThreadRecord.userId r = userId) (Map_values store)) [] ∅)
    as (Hs & Hc & Hl).
  - intros g h H. by rewrite lookup_empty in H.
  - intros r H. by apply elem_of_nil in H.
  - intros h r H. by apply elem_of_nil in H.
  - split_and!.
    + intros g h H. destruct (Hs _ _ H) as (r & [Hu Hr]%list_elem_of_filter & Hg & Hd).
      by exists r.
    + intros r Hr Hu. apply Hc. simpl. by apply list_elem_of_filter.
    + intros h r Hr Hu. apply Hl. simpl. by apply list_elem_of_filter.
Qed.

Lemma makeNewThread_present stamp suffix now userId graphType (store : Store) existing :
  Map_get store (makeKey userId (mintedThreadId graphType stamp suffix)) = Some existing →
  makeNewThread stamp suffix now userId graphType store =
    (store, {| threadId := ThreadRecord.threadId existing;
               rootId := ThreadRecord.rootThreadId existing |}).
Proof.
  intros H. unfold makeNewThread, Service.createThread.
  by rewrite (createThread_present _ _ _ existing).
Qed.

Lemma makeNewThread_fresh stamp suffix now userId graphType (store : Store) :
  let key := makeKey userId (mintedThreadId graphType stamp suffix) in
  Map_get store key = None →
  makeNewThread stamp suffix now userId graphType store =
    (store ++ [(key, ThreadRecord.mk key userId (mintedRootId stamp suffix)
                       (mintedThreadId graphType stamp suffix) graphType now now)],
     {| threadId := mintedThreadId graphType stamp suffix;
        rootId := mintedRootId stamp suffix |}).
Proof.
  intros key H. unfold makeNewThread, Service.createThread.
  by rewrite createThread_fresh.
Qed.

(** C8, as amended. Let the store satisfy its representation invariant and
    let the summary be the one computed from it for the user.
    - Reuse: if the user has a record of the graph type, [getThreadId] does not
      throw; it returns the [threadId] and [rootThreadId] of a record [r] of
      that user and graph type (one that no other such record was updated
      after), stores [r] with [lastUpdatedAt] set to the current time under its
      own key, and leaves the keys of the store as they were, so no second
      record is created.
    - Mint: if the user has no record of the graph type, the ids are built from
      the graph type, the timestamp and the random suffix; when no record is
      stored under the key of [(userId, threadId)], a new record carrying these
      ids is appended to the store and the minted [threadId] differs from the
      [threadId] of every record already stored for that user. *)
Theorem getThreadId_reuse_or_mint stamp suffix now userId graphType (store : Store) :
  keyed store →
  let summary := findThreadTypeCountsByUser userId store in
  let out := getThreadId stamp suffix now userId graphType summary store in
  (∀ r0, r0 ∈ Map_values store → ThreadRecord.userId r0 = userId →
         ThreadRecord.graphType r0 = graphType →
     ∃ r, r ∈ Map_values store ∧ ThreadRecord.userId r = userId
          ∧ ThreadRecord.graphType r = graphType
          ∧ (∀ r', r' ∈ Map_values store → ThreadRecord.userId r' = userId →
                   ThreadRecord.graphType r' = graphType →
                   ThreadRecord.lastUpdatedAt r' ≤ ThreadRecord.lastUpdatedAt r)
          ∧ out = (Map_set store (makeKey userId (ThreadRecord.threadId r))
                           (setLastUpdatedAt now r),
                   Normal {| threadId := ThreadRecord.threadId r;
                             rootId := ThreadRecord.rootThreadId r |})
          ∧ Map_keys out.1 = Map_keys store)
  ∧ ((∀ r0, r0 ∈ Map_values store → ThreadRecord.userId r0 = userId →
            ThreadRecord.graphType r0 ≠ graphType) →
     let key := makeKey userId (mintedThreadId graphType stamp suffix) in
     Map_get store key = None →
     out = (store ++ [(key, ThreadRecord.mk key userId (mintedRootId stamp suffix)
                              (mintedThreadId graphType stamp suffix) graphType now now)],
            Normal {| threadId := mintedThreadId graphType stamp suffix;
                      rootId := mintedRootId stamp suffix |})
     ∧ ∀ r, r ∈ Map_values store → ThreadRecord.userId r = userId →
            ThreadRecord.threadId r ≠ mintedThreadId graphType stamp suffix).
Proof.
  intros [Hnd Hk] summary out.
  destruct (summary_spec userId store) as (Hs & Hc & Hl). split.
  - intros r0 Hr0 Hu0 Hg0.
    destruct (Hc r0 Hr0 Hu0) as [h Hh]. rewrite Hg0 in Hh.
    destruct (Hs _ _ Hh) as (r & Hr & Hu & Hg & Hid & Hroot & Hlast).
    exists r. split_and!; try done.
    + intros r' Hr' Hu' Hg'. rewrite Hlast. apply (Hl h r' Hr' Hu'). by rewrite Hg'.
    + assert (Hget : Map_get store (makeKey userId (lastUpdatedThreadId h)) = Some r).
      { unfold Map_values in Hr. apply list_elem_of_fmap in Hr as ([k r'] & -> & Hin).
        simpl in *. apply Map_get_elem; [done |].
        rewrite <- Hid, <- Hu. by rewrite <- (Hk _ _ Hin). }
      subst out summary. unfold getThreadId. rewrite Hh.
      unfold Service.updateLastUpdatedAtFor.
      rewrite (updateLastUpdatedAt_present _ _ _ r) by done. simpl.
      by rewrite Hid, Hroot.
    + assert (Hget : is_Some (Map_get store (makeKey userId (lastUpdatedThreadId h)))).
      { unfold Map_values in Hr. apply list_elem_of_fmap in Hr as ([k r'] & -> & Hin).
        simpl in *. exists r'. apply Map_get_elem; [done |].
        rewrite <- Hid, <- Hu. by rewrite <- (Hk _ _ Hin). }
      subst out summary. unfold getThreadId. rewrite Hh.
      unfold Service.updateLastUpdatedAtFor. destruct Hget as [r' Hget].
      rewrite (updateLastUpdatedAt_present _ _ _ r') by done. simpl.
      apply Map_keys_set_present. by rewrite Hget.
  - intros Hnone key Hfresh. split.
    + assert (Hsum : summary !! graphType = None).
      { destruct (summary !! graphType) as [h|] eqn:Hh; [|done].
        destruct (Hs _ _ Hh) as (r & Hr & Hu & Hg & _). by destruct (Hnone r). }
      subst out. unfold getThreadId. rewrite Hsum.
      by rewrite makeNewThread_fresh.
    + intros r Hr Hu Hid. unfold Map_values in Hr.
      apply list_elem_of_fmap in Hr as ([k r'] & -> & Hin). simpl in *.
      pose proof (Map_get_elem _ _ _ Hnd Hin) as Hget.
      rewrite (Hk _ _ Hin), Hu, Hid in Hget. fold key in Hget. congruence.
Qed.

(** C9, as amended. Creation is first-writer-wins on the key of
    [(userId, threadId)]: a [createThread] for a key that an earlier
    [createThread] has already served leaves the store unchanged and returns
    the record the earlier call returned. Accordingly, a second request that
    mints the same thread id as the first one observes the first one's ids
    and stores nothing. *)
Theorem createThread_first_writer_wins now1 now2 data1 data2 (store : Store) :
  makeKey (CreateThreadDto.userId data1) (CreateThreadDto.threadId data1)
    = makeKey (CreateThreadDto.userId data2) (CreateThreadDto.threadId data2) →
  let winner := Repository.createThread now1 data1 store in
  Repository.createThread now2 data2 winner.1 = winner
  ∧ ∀ stamp suffix userId graphType,
      let first := makeNewThread stamp suffix now1 userId graphType store in
      makeNewThread stamp suffix now2 userId graphType first.1 = first.
Proof.
  intros Hkey winner. split.
  - subst winner.
    destruct (Map_get store (makeKey (CreateThreadDto.userId data1)
                                     (CreateThreadDto.threadId data1))) as [r|] eqn:Hget.
    + rewrite (createThread_present _ _ _ _ Hget). simpl.
      apply createThread_present. by rewrite <- Hkey.
    + unfold Repository.createThread at 2 3. rewrite Hget. simpl.
      apply createThread_present. rewrite <- Hkey. apply Map_get_set_eq.
  - intros stamp suffix userId graphType first. subst first.
    destruct (Map_get store (makeKey userId (mintedThreadId graphType stamp suffix)))
      as [r|] eqn:Hget.
    + rewrite (makeNewThread_present _ _ now1 _ _ _ _ Hget). simpl.
      by rewrite (makeNewThread_present _ _ now2 _ _ _ _ Hget).
    + rewrite (makeNewThread_fresh _ _ now1 _ _ store Hget). simpl.
      set (key := makeKey userId (mintedThreadId graphType stamp suffix)) in *.
      set (record := ThreadRecord.mk key userId (mintedRootId stamp suffix)
                       (mintedThreadId graphType stamp suffix) graphType now1 now1).
      rewrite (makeNewThread_present _ _ _ _ _ _ record); [done |].
      rewrite <- Map_set_fresh by done. apply Map_get_set_eq.
Qed.

Lemma keyed_store1 : keyed store1.
Proof.
  split.
  - apply NoDup_singleton.
  - intros k r H. unfold store1 in H. apply list_elem_of_singleton in H.
    injection H as -> ->. reflexivity.
Qed.

Lemma getThreadId_reuse_or_mint_witness :
  (∃ r, r ∈ Map_values store1
        ∧ (getThreadId 1758207386950 "b2f2d" 2000 "test-user-123" "researchGraph"
             (findThreadTypeCountsByUser "test-user-123" store1) store1).2
          = Normal {| threadId := ThreadRecord.threadId r;
                      rootId := ThreadRecord.rootThreadId r |})
  ∧ (getThreadId 1758207386950 "b2f2d" 2000 "test-user-123" "monetizationGraph"
       (findThreadTypeCountsByUser "test-user-123" store1) store1).2
    = Normal {| threadId := "monetizationGraph_thread_1758207386950_b2f2d";
                rootId := "root_thread_1758207386950_b2f2d" |}.
Proof.
  split.
  - destruct (proj1 (getThreadId_reuse_or_mint 1758207386950 "b2f2d" 2000
                       "test-user-123" "researchGraph" store1 keyed_store1)
                (ThreadRecord.mk (makeKey "test-user-123" "researchGraph_thread_1_a")
                   "test-user-123" "root_thread_1_a" "researchGraph_thread_1_a"
                   "researchGraph" 1000 1000))
      as (r & Hr & _ & _ & _ & Hout & _).
    + simpl. apply list_elem_of_singleton. reflexivity.
    + reflexivity.
    + reflexivity.
    + exists r. split; [exact Hr |]. rewrite Hout. reflexivity.
  - destruct (proj2 (getThreadId_reuse_or_mint 1758207386950 "b2f2d" 2000
                       "test-user-123" "monetizationGraph" store1 keyed_store1))
      as [Hout _].
    + intros r0 Hr0 _. simpl in Hr0. apply list_elem_of_singleton in Hr0 as ->.
      simpl. discriminate.
    + vm_compute. reflexivity.
    + rewrite Hout. vm_compute. reflexivity.
Defined.

(** C8, the claim as stated fails: the minted ids are not compared with the
    ids in the store. A second user whose request reads the same timestamp and
    draws the same suffix is given a thread id and a root id that the first
    user's record already carries. *)
Lemma minted_ids_can_repeat :
  let first :=
    getThreadId 1758207386950 "b2f2d" 1758207386950 "test-user-123" "researchGraph"
      (findThreadTypeCountsByUser "test-user-123" []) [] in
  let second :=
    getThreadId 1758207386950 "b2f2d" 1758207386950 "test-user-456" "researchGraph"
      (findThreadTypeCountsByUser "test-user-456" first.1) first.1 in
  findThreadTypeCountsByUser "test-user-456" first.1 !! "researchGraph" = None
  ∧ second.2 = Normal {| threadId := "researchGraph_thread_1758207386950_b2f2d";
                         rootId := "root_thread_1758207386950_b2f2d" |}
  ∧ ThreadRecord.threadId <$> Map_values first.1
      = ["researchGraph_thread_1758207386950_b2f2d"]
  ∧ ThreadRecord.rootThreadId <$> Map_values first.1
      = ["root_thread_1758207386950_b2f2d"]
  ∧ length second.1 = 2%nat.
Proof. vm_compute. by split_and!. Qed.

Lemma createThread_first_writer_wins_witness :
  let data :=
    CreateThreadDto.mk "test-user-123" "root_thread_1_a" "researchGraph_thread_1_a"
      "researchGraph" None None in
  let winner := Repository.createThread 1000 data [] in
  Repository.createThread 2000 data winner.1 = winner.
Proof.
  intros data winner.
  apply (createThread_first_writer_wins 1000 2000 data data []). reflexivity.
Defined.

(** C9, the claim as stated fails: two requests for the same new
    [(userId, graphType)], both having read the thread summary before either
    creates its thread, each mint an id of their own and each store a record.
    The store ends up with two records of that user and graph type, and the
    second request is handed its own ids, not those of the first. *)
Lemma race_stores_two_records :
  let summary := findThreadTypeCountsByUser "test-user-123" [] in
  let first :=
    getThreadId 1758207386950 "b2f2d" 1758207386950 "test-user-123" "researchGraph"
      summary [] in
  let second :=
    getThreadId 1758207386951 "k3x9q" 1758207386951 "test-user-123" "researchGraph"
      summary first.1 in
  length (filter (λ r, ThreadRecord.userId r = "test-user-123"
                       ∧ ThreadRecord.graphType r = "researchGraph")
                 (Map_values second.1)) = 2%nat
  ∧ first.2 = Normal {| threadId := "researchGraph_thread_1758207386950_b2f2d";
                        rootId := "root_thread_1758207386950_b2f2d" |}
  ∧ second.2 = Normal {| threadId := "researchGraph_thread_1758207386951_k3x9q";
                         rootId := "root_thread_1758207386951_k3x9q" |}.
Proof. vm_compute. by split_and!. Qed.

End LifecycleTheory.

(** ** Routing *)

Module RoutingTheory.
Import JS ThreadStore Orchestrator MapFacts Samples.

Section Scores.
Variable cfg : SelectGraphConfig.
Variable message : string.
Variable hist : gmap string GraphThreadCountAndMostRecentDate.

Local Abbreviation wordTable := (Orchestrator.wordTable cfg message).

Lemma addWord_sum words acc :
  fold_left (addWord cfg message) words acc
  = acc + foldr Z.add 0 (wordPoints cfg message <$> words).
Proof.
  revert acc. induction words as [|w words IH]; intros acc; [simpl; lia |].
  cbn [fold_left]. rewrite IH, fmap_cons. cbn [foldr].
  generalize (foldr Z.add 0 (wordPoints cfg message <$> words)). intros rest.
  unfold addWord, wordPoints. destruct (includes message w); simpl; lia.
Qed.

Lemma wordTable_keys entries : Map_keys (wordTable entries) = Map_keys entries.
Proof.
  unfold Map_keys, wordTable. rewrite <- list_fmap_compose. by apply list_fmap_ext.
Qed.

Lemma scoreWords_fold entries (acc : Map number) :
  NoDup (Map_keys acc ++ Map_keys entries) →
  fold_left
    (fun scores '(key, arr) =>
       let count := fold_left (addWord cfg message) arr 0 in
       Map_set scores key (Num count))
    entries acc
  = acc ++ wordTable entries.
Proof.
  revert acc. induction entries as [|[k ws] entries IH]; intros acc Hnd; simpl.
  - by rewrite (right_id_L [] (++)).
  - assert (Hk : Map_get acc k = None).
    { apply Map_get_None. apply NoDup_app in Hnd as (_ & Hdisj & _).
      intros Hin. apply (Hdisj _ Hin). unfold Map_keys. simpl. apply elem_of_cons. by left. }
    rewrite Map_set_fresh by done. rewrite IH.
    + rewrite addWord_sum, Z.add_0_l. by rewrite <- (assoc_L (++)).
    + unfold Map_keys in *. rewrite fmap_app. simpl in *.
      by rewrite <- (assoc_L (++)).
Qed.

Lemma scoreWords_table entries :
  NoDup (Map_keys entries) → scoreWords cfg message entries = wordTable entries.
Proof. intros Hnd. unfold scoreWords. by rewrite scoreWords_fold. Qed.

Lemma Map_get_middle {V} (pre post : Map V) k v :
  k ∉ Map_keys pre → Map_get (pre ++ (k, v) :: post) k = Some v.
Proof.
  unfold Map_keys. induction pre as [|[k' v'] pre IH]; simpl; intros Hk.
  - by rewrite decide_True.
  - apply not_elem_of_cons in Hk as [Hne Hk]. rewrite decide_False by done. by apply IH.
Qed.

Lemma Map_set_middle {V} (pre post : Map V) k v v' :
  k ∉ Map_keys pre → Map_set (pre ++ (k, v) :: post) k v' = pre ++ (k, v') :: post.
Proof.
  unfold Map_keys. induction pre as [|[k0 v0] pre IH]; simpl; intros Hk.
  - by rewrite decide_True.
  - apply not_elem_of_cons in Hk as [Hne Hk]. rewrite decide_False by done.
    by rewrite IH.
Qed.

Section WithClock.
Variable clock : nat → Z.

Local Abbreviation scoreTable := (Orchestrator.scoreTable cfg clock message hist).

Lemma scoreTable_keys ticks entries :
  Map_keys (scoreTable ticks entries) = Map_keys entries.
Proof.
  unfold Map_keys. revert ticks. induction entries as [|[k ws] entries IH]; intros ticks.
  - done.
  - simpl. by rewrite IH.
Qed.

Lemma addHistory_fold entries (done_ : Map number) ticks :
  NoDup (Map_keys done_ ++ Map_keys entries) →
  fold_left (addHistory cfg clock hist) (Map_keys entries)
            (done_ ++ wordTable entries, ticks)
  = (done_ ++ scoreTable ticks entries,
     (ticks + readingsBefore hist (Map_keys entries))%nat).
Proof.
  revert done_ ticks. induction entries as [|[k ws] entries IH]; intros done_ ticks Hnd.
  - simpl. unfold readingsBefore. simpl. f_equal. lia.
  - assert (Hk : k ∉ Map_keys done_).
    { apply NoDup_app in Hnd as (_ & Hdisj & _). intros Hin. apply (Hdisj _ Hin).
      unfold Map_keys. simpl. apply elem_of_cons. by left. }
    assert (Hnd' : ∀ v : number, NoDup (Map_keys (done_ ++ [(k, v)]) ++ Map_keys entries)).
    { intros v. unfold Map_keys in *. rewrite fmap_app. simpl in *.
      by rewrite <- (assoc_L (++)). }
    unfold readingsBefore. cbn [Map_keys fmap list_fmap fold_left fst wordTable].
    rewrite filter_cons. unfold addHistory at 2. simpl.
    change (entries.*1) with (Map_keys entries).
    destruct (hist !! k) as [h|] eqn:Hh.
    + rewrite decide_True by (by eexists).
      rewrite Map_get_middle, Map_set_middle by done. simpl.
      set (new := if bool_decide (clock ticks - lastUpdatedAt h < fiveMinutes cfg)
                  then _ else _).
      replace (done_ ++ (k, new) :: _) with ((done_ ++ [(k, new)]) ++ wordTable entries)
        by (by rewrite <- (assoc_L (++))).
      etrans; [apply (IH (done_ ++ [(k, new)]) (S ticks) (Hnd' _)) |].
      rewrite <- (assoc_L (++)). simpl.
      f_equal; [|unfold readingsBefore; simpl; lia].
      do 3 f_equal. subst new. unfold specScore, historyPoints.
      case_bool_decide; f_equal; lia.
    + rewrite decide_False by (by intros [? ?]).
      replace (done_ ++ (k, _) :: _)
        with ((done_ ++ [(k, Num (foldr Z.add 0 (wordPoints cfg message <$> ws)))])
                ++ wordTable entries)
        by (by rewrite <- (assoc_L (++))).
      etrans; [apply (IH _ ticks (Hnd' _)) |].
      rewrite <- (assoc_L (++)). simpl. do 3 f_equal.
      unfold specScore, historyPoints. by rewrite Z.add_0_r.
Qed.

Lemma scoreGraphs_table entries :
  NoDup (Map_keys entries) →
  scoreGraphs cfg clock message hist entries = scoreTable 0 entries.
Proof.
  intros Hnd. unfold scoreGraphs. cbv zeta. rewrite scoreWords_table by done.
  pose proof (addHistory_fold entries [] 0%nat Hnd) as Hfold. simpl in Hfold.
  by rewrite Hfold.
Qed.

Lemma scoreTable_lookup entries ticks i key words :
  NoDup (Map_keys entries) → entries !! i = Some (key, words) →
  Map_get (scoreTable ticks entries) key
  = Some (Num (specScore cfg message words
                 (clock (ticks + readingsBefore hist (take i (Map_keys entries))))
                 (hist !! key))).
Proof.
  revert ticks i. induction entries as [|[k ws] entries IH]; intros ticks i Hnd Hi.
  - by rewrite lookup_nil in Hi.
  - unfold Map_keys in Hnd. simpl in Hnd. apply NoDup_cons in Hnd as [Hk Hnd].
    destruct i as [|i]; simpl in Hi.
    + injection Hi as -> ->. simpl. rewrite decide_True by done.
      unfold readingsBefore. simpl. by rewrite Nat.add_0_r.
    + assert (k ≠ key).
      { intros ->. apply Hk. apply list_elem_of_fmap. exists (key, words).
        split; [done |]. by apply list_elem_of_lookup_2 in Hi. }
      simpl. rewrite decide_False by done.
      rewrite (IH _ i Hnd Hi). unfold readingsBefore, Map_keys. simpl.
      rewrite filter_cons. destruct (hist !! k) as [h|] eqn:Hh.
      * rewrite decide_True by (by eexists). simpl. do 4 f_equal. lia.
      * rewrite decide_False by (by intros [? ?]). done.
Qed.

End WithClock.
End Scores.

Lemma scoreTable_Num cfg message hist clock ticks entries k v :
  (k, v) ∈ scoreTable cfg clock message hist ticks entries → ∃ z, v = Num z.
Proof.
  revert ticks. induction entries as [|[k' ws] entries IH]; intros ticks; simpl.
  - intros H. by apply elem_of_nil in H.
  - intros [[= -> ->] | Hin]%elem_of_cons; [by eexists | by eapply IH].
Qed.

(** The last loop keeps the first entry whose score is maximal. *)
Lemma pickMax_fold (scores : Map number) :
  (∀ k v, (k, v) ∈ scores → ∃ z, v = Num z) →
  (scores = [] ∧ fold_left pickMax scores (None, NegInfinity) = (None, NegInfinity))
  ∨ ∃ pre key s post,
      scores = pre ++ (key, Num s) :: post
      ∧ fold_left pickMax scores (None, NegInfinity) = (Some key, Num s)
      ∧ (∀ k v, (k, v) ∈ pre → ∃ z, v = Num z ∧ z < s)
      ∧ (∀ k v, (k, v) ∈ post → ∃ z, v = Num z ∧ z ≤ s).
Proof.
  induction scores as [|[k v] scores IH] using rev_ind; intros Hall; [by left |].
  right. rewrite fold_left_app. simpl.
  destruct (Hall k v) as [z ->].
  { apply elem_of_app. right. by apply list_elem_of_singleton. }
  destruct IH as [[-> Hf] | (pre & key & s & post & -> & Hf & Hpre & Hpost)].
  { intros k' v' Hin. apply (Hall k' v'). apply elem_of_app. by left. }
  - exists [], k, z, []. simpl. split_and!; [done | done | |];
      intros k' v' H; by apply elem_of_nil in H.
  - rewrite Hf. simpl. case_bool_decide as Hlt.
    + exists (pre ++ (key, Num s) :: post), k, z, []. split_and!; [done | done | |].
      * intros k' v' [Hin | [[= -> ->] | Hin]%elem_of_cons]%elem_of_app.
        -- destruct (Hpre _ _ Hin) as (z' & -> & ?). exists z'. split; [done | lia].
        -- by exists s.
        -- destruct (Hpost _ _ Hin) as (z' & -> & ?). exists z'. split; [done | lia].
      * intros k' v' H. by apply elem_of_nil in H.
    + exists pre, key, s, (post ++ [(k, Num z)]). split_and!.
      * by rewrite <- (assoc_L (++)).
      * done.
      * done.
      * intros k' v' [Hin | Hin]%elem_of_app.
        -- by apply (Hpost k').
        -- apply list_elem_of_singleton in Hin. injection Hin as -> ->.
           exists z. split; [done | lia].
Qed.

(** C3. For a registry with distinct graph names, the score that
    [scoreGraphsAndSelectOne] computes for the graph at position [i] is the sum,
    over its selection words contained in the message, of the keyword-match
    points for a word that starts with ['@'] and of the word-match points
    otherwise, plus, when the graph has history, the thread count times the
    per-thread points and the recency points if the clock reading taken for
    that graph minus the history's [lastUpdatedAt] is below the recency window.
    All point values and the window are fields of the configuration [cfg]. *)
Theorem scoreGraphs_formula cfg clock message hist entries i key words :
  NoDup (Map_keys entries) →
  entries !! i = Some (key, words) →
  Map_get (scoreGraphs cfg clock message hist entries) key
  = Some (Num (specScore cfg message words
                 (clock (readingsBefore hist (take i (Map_keys entries))))
                 (hist !! key))).
Proof.
  intros Hnd Hi. rewrite scoreGraphs_table by done.
  by rewrite (scoreTable_lookup cfg message hist clock entries 0 i key words).
Qed.

(** C4. For a non-empty registry with distinct graph names,
    [scoreGraphsAndSelectOne] returns a graph name; the scores are listed in
    registry order, every graph listed before the returned one has a strictly
    smaller score and every graph listed after it has a score that is not
    greater. So the returned graph has the greatest score and, among the
    graphs that share it, is the first in registry order. *)
Theorem scoreGraphsAndSelectOne_first_max cfg clock message hist entries :
  NoDup (Map_keys entries) →
  entries ≠ [] →
  ∃ pre key s post,
    scoreGraphs cfg clock message hist entries = pre ++ (key, Num s) :: post
    ∧ Map_keys (scoreGraphs cfg clock message hist entries) = Map_keys entries
    ∧ scoreGraphsAndSelectOne cfg clock message hist entries = Some key
    ∧ (∀ k v, (k, v) ∈ pre → ∃ z, v = Num z ∧ z < s)
    ∧ (∀ k v, (k, v) ∈ post → ∃ z, v = Num z ∧ z ≤ s).
Proof.
  intros Hnd Hne. unfold scoreGraphsAndSelectOne. cbv zeta.
  rewrite scoreGraphs_table by done.
  destruct (pickMax_fold (scoreTable cfg clock message hist 0 entries))
    as [[Hnil _] | (pre & key & s & post & Heq & Hf & Hpre & Hpost)].
  - intros k v. apply scoreTable_Num.
  - exfalso. apply Hne. apply (f_equal Map_keys) in Hnil.
    rewrite scoreTable_keys in Hnil. by apply fmap_nil_inv in Hnil.
  - exists pre, key, s, post. rewrite Hf. split_and!; try done.
    apply scoreTable_keys.
Qed.

(** The second loop reads the clock once for every key that has history;
    two clocks that give the same outcome of the recency test at each of
    these readings give the same scores. *)
Lemma addHistory_fold_ext cfg clock1 clock2 hist keys (scores : Map number) ticks :
  (∀ j key h, keys !! j = Some key → hist !! key = Some h →
     clock1 (ticks + readingsBefore hist (take j keys))%nat - lastUpdatedAt h
       < fiveMinutes cfg
     ↔ clock2 (ticks + readingsBefore hist (take j keys))%nat - lastUpdatedAt h
       < fiveMinutes cfg) →
  fold_left (addHistory cfg clock1 hist) keys (scores, ticks)
  = fold_left (addHistory cfg clock2 hist) keys (scores, ticks).
Proof.
  revert scores ticks. induction keys as [|k keys IH]; intros scores ticks Hsame; [done |].
  cbn [fold_left]. unfold addHistory at 2 4.
  destruct (hist !! k) as [h|] eqn:Hh.
  - pose proof (Hsame 0%nat k h eq_refl Hh) as H0.
    unfold readingsBefore in H0. cbn [take filter length] in H0.
    rewrite Nat.add_0_r in H0. rewrite (bool_decide_ext _ _ H0).
    apply IH. intros j key h' Hj Hh'.
    pose proof (Hsame (S j) key h' Hj Hh') as Hj'.
    unfold readingsBefore in Hj' |- *. cbn [take] in Hj'. rewrite filter_cons in Hj'.
    rewrite decide_True in Hj' by (by eexists). cbn [length] in Hj'.
    by rewrite Nat.add_succ_r in Hj'.
  - apply IH. intros j key h' Hj Hh'.
    pose proof (Hsame (S j) key h' Hj Hh') as Hj'.
    unfold readingsBefore in Hj' |- *. cbn [take] in Hj'. rewrite filter_cons in Hj'.
    rewrite decide_False in Hj' by (rewrite Hh; by intros [? ?]). done.
Qed.

(** C5, as amended. Routing has no hidden input other than the clock. One
    call reads the clock once for every graph of the registry that has
    history, in registry order, and compares the reading with that graph's
    [lastUpdatedAt]. For a fixed message, registry and history summary, two
    calls compute the same scores and return the same graph type whenever
    each of these recency tests comes out the same in both calls. Nothing is
    asked of the clocks at other readings or for other graphs. *)
Theorem scoreGraphsAndSelectOne_deterministic cfg clock1 clock2 message hist entries :
  (∀ i key words h, entries !! i = Some (key, words) → hist !! key = Some h →
     let reading := readingsBefore hist (take i (Map_keys entries)) in
     clock1 reading - lastUpdatedAt h < fiveMinutes cfg
     ↔ clock2 reading - lastUpdatedAt h < fiveMinutes cfg) →
  scoreGraphs cfg clock1 message hist entries = scoreGraphs cfg clock2 message hist entries
  ∧ scoreGraphsAndSelectOne cfg clock1 message hist entries
    = scoreGraphsAndSelectOne cfg clock2 message hist entries.
Proof.
  intros Hsame.
  assert (Hscores : scoreGraphs cfg clock1 message hist entries
                    = scoreGraphs cfg clock2 message hist entries).
  { unfold scoreGraphs. cbv zeta.
    rewrite (addHistory_fold_ext cfg clock1 clock2); [done |].
    intros j key h Hj Hh. cbn [Nat.add]. unfold Map_keys in Hj.
    rewrite list_lookup_fmap in Hj.
    destruct (entries !! j) as [[key' words]|] eqn:He; [|done].
    injection Hj as <-. exact (Hsame j key' words h He Hh). }
  split; [done |]. unfold scoreGraphsAndSelectOne. cbv zeta. by rewrite Hscores.
Qed.

Lemma sampleRegistry_NoDup : NoDup (Map_keys sampleRegistry).
Proof. apply (bool_decide_unpack _). vm_compute. exact I. Qed.

Lemma scoreGraphs_formula_witness :
  Map_get (scoreGraphs sampleConfig (λ _, 1758207387950)
             "I want to monetize this: @monetize my revenue" sampleHistory
             sampleRegistry)
          "monetizationGraph"
  = Some (Num 17).
Proof.
  rewrite (scoreGraphs_formula sampleConfig (λ _, 1758207387950)
             "I want to monetize this: @monetize my revenue" sampleHistory
             sampleRegistry 1 "monetizationGraph" ["@monetize"; "revenue"]
             sampleRegistry_NoDup eq_refl).
  vm_compute. reflexivity.
Defined.

Lemma scoreGraphsAndSelectOne_first_max_witness :
  (∃ pre key s post,
     scoreGraphs sampleConfig (λ _, 0) "hello" ∅ sampleRegistry
       = pre ++ (key, Num s) :: post
     ∧ Map_keys (scoreGraphs sampleConfig (λ _, 0) "hello" ∅ sampleRegistry)
       = Map_keys sampleRegistry
     ∧ scoreGraphsAndSelectOne sampleConfig (λ _, 0) "hello" ∅ sampleRegistry = Some key
     ∧ (∀ k v, (k, v) ∈ pre → ∃ z, v = Num z ∧ z < s)
     ∧ (∀ k v, (k, v) ∈ post → ∃ z, v = Num z ∧ z ≤ s))
  ∧ scoreGraphsAndSelectOne sampleConfig (λ _, 0) "hello" ∅ sampleRegistry
    = Some "researchGraph".
Proof.
  split.
  - apply (scoreGraphsAndSelectOne_first_max sampleConfig (λ _, 0) "hello" ∅
             sampleRegistry sampleRegistry_NoDup).
    discriminate.
  - vm_compute. reflexivity.
Defined.

Lemma scoreGraphsAndSelectOne_deterministic_witness :
  let early t := if (t =? 0)%nat then 1758207387950 else 0 in
  let late t := if (t =? 0)%nat then 1758207388950 else 1758207386950 + 3600000 in
  scoreGraphs sampleConfig early "my invention" sampleHistory sampleRegistry
  = scoreGraphs sampleConfig late "my invention" sampleHistory sampleRegistry
  ∧ scoreGraphsAndSelectOne sampleConfig early "my invention" sampleHistory sampleRegistry
    = scoreGraphsAndSelectOne sampleConfig late "my invention" sampleHistory sampleRegistry.
Proof.
  intros early late.
  apply (scoreGraphsAndSelectOne_deterministic sampleConfig early late "my invention"
           sampleHistory sampleRegistry).
  intros i key words h Hi Hh. unfold sampleHistory in Hh.
  apply lookup_singleton_Some in Hh as [<- <-].
  destruct i as [|[|[|i]]]; try discriminate Hi.
  vm_compute. split; intros _; reflexivity.
Defined.

(** C5, the claim as stated fails: with the message, the registry and the
    history summary fixed, a call made one second after the thread was last
    updated selects the graph with recent history, and a call made an hour
    later selects another graph. *)
Lemma routing_depends_on_call_time :
  scoreGraphsAndSelectOne sampleConfig (λ _, 1758207386950 + 1000) "my invention"
    sampleHistory sampleRegistry = Some "monetizationGraph"
  ∧ scoreGraphsAndSelectOne sampleConfig (λ _, 1758207386950 + 3600000) "my invention"
      sampleHistory sampleRegistry = Some "researchGraph".
Proof. vm_compute. by split. Qed.

End RoutingTheory.

(** ** The graph registry *)

Module RegistryTheory.
Import JS GraphBuilder Samples EdgeSamples.

Lemma isObjectPrototypeName_elem k :
  isObjectPrototypeName k = true ↔ k ∈ objectPrototypeNames.
Proof.
  unfold isObjectPrototypeName. rewrite existsb_exists. split.
  - intros (y & Hy%list_elem_of_In & ->%String.eqb_eq). done.
  - intros H. exists k. split; [by apply list_elem_of_In | apply String.eqb_refl].
Qed.

Lemma getProperty_own {V} (own : gmap string V) k v :
  own !! k = Some v → getProperty own k = Some (Own v).
Proof. intros H. unfold getProperty. by rewrite H. Qed.

Lemma getProperty_None {V} (own : gmap string V) k :
  getProperty own k = None ↔ own !! k = None ∧ isObjectPrototypeName k = false.
Proof.
  unfold getProperty. destruct (own !! k); [by split; [|intros [? _]] |].
  destruct (isObjectPrototypeName k); by split; [|intros [_ ?]].
Qed.

Section AnyLibrary.
Context {L : LangGraph}.
Implicit Types (this : Service L) (item : GraphJsonGraphSpec).

Lemma registerGraphFromSpec_dynamicGraphs item this :
  dynamicGraphs (registerGraphFromSpec item this).1 = dynamicGraphs this.
Proof.
  unfold registerGraphFromSpec.
  destruct (annotationType item) as [a|]; [|done].
  destruct (String.eqb a ""); [done |].
  destruct (annotationsMap a) as [root|]; [|done].
  destruct (newBuilder root) as [b0|e0]; [|done].
  destruct (addNodes _ _ _ _) as [b|e]; [|done].
  destruct (addEdges _ _) as [b'|e]; [|done].
  by destruct (assignBuilder _ _).
Qed.

Lemma registerGraphFromSpec_throw_unchanged item this e :
  (registerGraphFromSpec item this).2 = Throw e →
  (registerGraphFromSpec item this).1 = this.
Proof.
  unfold registerGraphFromSpec.
  destruct (annotationType item) as [a|]; [|done].
  destruct (String.eqb a ""); [done |].
  destruct (annotationsMap a) as [root|]; [|done].
  destruct (newBuilder root) as [b0|e0]; [|done].
  destruct (addNodes _ _ _ _) as [b|e1]; [|done].
  destruct (addEdges _ _) as [b'|e2]; [|done].
  by destruct (assignBuilder _ _).
Qed.

(** The registry the router walks never lists a graph name twice. *)
Lemma registerGraphFromSpec_NoDup item this :
  NoDup (Map_keys (graphSelectionWords this)) →
  NoDup (Map_keys (graphSelectionWords (registerGraphFromSpec item this).1)).
Proof.
  intros Hnd. unfold registerGraphFromSpec.
  destruct (annotationType item) as [a|]; [|done].
  destruct (String.eqb a ""); [done |].
  destruct (annotationsMap a) as [root|]; [|done].
  destruct (newBuilder root) as [b0|e0]; [|done].
  destruct (addNodes _ _ _ _) as [b|e1]; [|done].
  destruct (addEdges _ _) as [b'|e2]; [|done].
  destruct (assignBuilder _ _); [done |].
  simpl. by apply MapFacts.Object_set_NoDup.
Qed.

Lemma getDynamicGraph_cached graphName this graph :
  dynamicGraphs this !! graphName = Some graph →
  getDynamicGraph graphName this = (this, Normal (Some (Own graph))).
Proof.
  intros H. unfold getDynamicGraph. by rewrite (getProperty_own _ _ _ H).
Qed.

Lemma getDynamicGraph_not_found graphName this :
  dynamicGraphs this !! graphName = None →
  dynamicGraphBuilders this !! graphName = None →
  buildersPrototype this = None →
  graphName ∉ objectPrototypeNames →
  getDynamicGraph graphName this = (this, Normal None).
Proof.
  intros H1 H2 H3 H4.
  assert (Hname : isObjectPrototypeName graphName = false).
  { destruct (isObjectPrototypeName graphName) eqn:Hn; [|done].
    by apply isObjectPrototypeName_elem in Hn. }
  assert (Hget : getProperty (dynamicGraphs this) graphName = None).
  { by apply getProperty_None. }
  unfold getDynamicGraph, compileBuilder. by rewrite Hget, H2, H3, Hname.
Qed.

Lemma getDynamicGraph_compiles graphName this builder compiled :
  dynamicGraphs this !! graphName = None →
  graphName ∉ objectPrototypeNames →
  dynamicGraphBuilders this !! graphName = Some builder →
  compile L builder = Normal compiled →
  (getDynamicGraph graphName this).2 = Normal (Some (Own compiled)).
Proof.
  intros H1 Hn H2 H3.
  assert (Hget : getProperty (dynamicGraphs this) graphName = None).
  { apply getProperty_None. split; [done |].
    destruct (isObjectPrototypeName graphName) eqn:Hp; [|done].
    by apply isObjectPrototypeName_elem in Hp. }
  unfold getDynamicGraph, compileBuilder. rewrite Hget, H2, H3. simpl.
  f_equal. apply getProperty_own, lookup_insert_eq.
Qed.

(** The path that does take a new specification into account: as long as no
    compiled graph is cached under the name, the next retrieval compiles the
    builder that the latest registration stored. *)
Lemma registration_before_retrieval_is_compiled this item builder compiled :
  dynamicGraphs this !! name item = None →
  name item ∉ objectPrototypeNames →
  dynamicGraphBuilders (registerGraphFromSpec item this).1 !! name item = Some builder →
  compile L builder = Normal compiled →
  (getDynamicGraph (name item) (registerGraphFromSpec item this).1).2
  = Normal (Some (Own compiled)).
Proof.
  intros Hnone Hname Hb Hc. apply (getDynamicGraph_compiles _ _ builder); [|done|done|done].
  by rewrite registerGraphFromSpec_dynamicGraphs.
Qed.

(** The node loop goes through the names in order. *)
Lemma addNodes_app this graphName pre rest builder :
  addNodes this graphName (pre ++ rest) builder
  = match addNodes this graphName pre builder with
    | Normal builder' => addNodes this graphName rest builder'
    | Throw e => Throw e
    end.
Proof.
  revert builder. induction pre as [|n pre IH]; intros builder; [done |].
  cbn [app addNodes]. destruct (getProperty (nodeFuctionMap this) n) as [f|]; [|done].
  destruct (bindNodeFn f) as [bound|e]; [|done].
  destruct (addNode L builder n bound) as [b'|e]; [apply IH | done].
Qed.

(** When every name of the list is found in [nodeFuctionMap], the loop can
    only fail in the library's [addNode], or at the name [__proto__], whose
    value has no [bind]. *)
Lemma addNodes_throw_cause this graphName nodeNames builder e :
  (∀ n, n ∈ nodeNames → is_Some (getProperty (nodeFuctionMap this) n)) →
  addNodes this graphName nodeNames builder = Throw e →
  ∃ n, n ∈ nodeNames
       ∧ ((∃ b f, addNode L b n f = Throw e)
          ∨ (n = "__proto__"%string ∧ e = TypeError "nodeFn.bind is not a function")).
Proof.
  revert builder. induction nodeNames as [|n rest IH]; intros builder Hall; [done |].
  cbn [addNodes]. destruct (Hall n) as [p Hf]; [apply elem_of_cons; by left |].
  rewrite Hf. destruct p as [f|member]; cbn [bindNodeFn].
  - destruct (addNode L builder n f) as [b'|e'] eqn:Hadd.
    + intros Hrest. destruct (IH b') as (m & Hm & Hcause); [|done|].
      { intros m Hm. apply Hall. apply elem_of_cons. by right. }
      exists m. split; [apply elem_of_cons; by right | done].
    + intros [= ->]. exists n. split; [apply elem_of_cons; by left |].
      left. by exists builder, f.
  - assert (member = n) as ->.
    { unfold getProperty in Hf. destruct (nodeFuctionMap this !! n); [done |].
      destruct (isObjectPrototypeName n); [by injection Hf as -> | done]. }
    destruct (String.eqb_spec n "__proto__") as [->|Hne].
    + intros [= <-]. exists "__proto__"%string. split; [apply elem_of_cons; by left |].
      by right.
    + destruct (addNode L builder n (ObjectPrototypeMethod n)) as [b'|e'] eqn:Hadd.
      * intros Hrest. destruct (IH b') as (m & Hm & Hcause); [|done|].
        { intros m Hm. apply Hall. apply elem_of_cons. by right. }
        exists m. split; [apply elem_of_cons; by right | done].
      * intros [= ->]. exists n. split; [apply elem_of_cons; by left |].
        left. by exists builder, (ObjectPrototypeMethod n).
Qed.

(** C1. What the code does where the claim asks for invalidation: once a
    compiled graph is cached under a name, registering a specification again
    under that name leaves the cache entry in place, and the next
    [getDynamicGraph] returns that same compiled graph without compiling the
    newly registered builder. *)
Theorem reregistration_keeps_compiled_graph this item graph :
  dynamicGraphs this !! name item = Some graph →
  let this' := (registerGraphFromSpec item this).1 in
  getDynamicGraph (name item) this' = (this', Normal (Some (Own graph))).
Proof.
  intros Hcached this'. apply getDynamicGraph_cached.
  subst this'. by rewrite registerGraphFromSpec_dynamicGraphs.
Qed.

(** C2, as amended. Let the specification carry a non-empty [annotationType]
    that names one of the four annotations, and let [missing] be the first
    name of its node list that [nodeFuctionMap] does not have, neither as a
    registered node function nor as a property name of [Object.prototype].
    Then [registerGraphFromSpec] throws and changes nothing in the registry.
    The error is the not-registered error that names [missing] and the
    graph, unless the loop already failed on one of the names before
    [missing]; that can only be an error thrown by the library's [addNode],
    or the [TypeError] for the name [__proto__]. After the failed
    registration [getDynamicGraph] gives what it gave before, and the
    not-found result when nothing is stored or inherited under the name of
    the specification. A specification whose [annotationType] is missing,
    empty or unknown to [annotationsMap] is skipped without an error, whatever
    its node list. Edge endpoints are not compared with the node list: every
    edge is handed to the library's [addEdge], and whenever the node loop and
    these calls succeed the registration succeeds and stores the builder
    they produced (as long as the registry of builders has its original
    prototype). *)
Theorem registerGraphFromSpec_unresolved_node this item annotationName annotationRoot
    pre missing post :
  annotationType item = Some annotationName →
  annotationName ≠ ""%string →
  annotationsMap annotationName = Some (Own annotationRoot) →
  default [] (nodes item) = pre ++ missing :: post →
  (∀ n, n ∈ pre → is_Some (getProperty (nodeFuctionMap this) n)) →
  getProperty (nodeFuctionMap this) missing = None →
  registerGraphFromSpec item this
  = (this,
     Throw (match addNodes this (name item) pre (newStateGraph L annotationRoot) with
            | Normal _ => notRegistered missing (name item)
            | Throw e => e
            end))
  ∧ (∀ e, addNodes this (name item) pre (newStateGraph L annotationRoot) = Throw e →
       ∃ n, n ∈ pre
            ∧ ((∃ b f, addNode L b n f = Throw e)
               ∨ (n = "__proto__"%string
                  ∧ e = TypeError "nodeFn.bind is not a function")))
  ∧ getDynamicGraph (name item) (registerGraphFromSpec item this).1
    = getDynamicGraph (name item) this
  ∧ (dynamicGraphs this !! name item = None →
     dynamicGraphBuilders this !! name item = None →
     buildersPrototype this = None →
     name item ∉ objectPrototypeNames →
     getDynamicGraph (name item) (registerGraphFromSpec item this).1
       = (this, Normal None))
  ∧ (∀ item',
       annotationType item' = None ∨ annotationType item' = Some ""%string
       ∨ (∃ a, annotationType item' = Some a ∧ annotationsMap a = None) →
       registerGraphFromSpec item' this = (this, Normal tt))
  ∧ (∀ item' b b',
       annotationType item' = Some annotationName →
       addNodes this (name item') (default [] (nodes item'))
                (newStateGraph L annotationRoot) = Normal b →
       addEdges (default [] (edges item')) b = Normal b' →
       buildersPrototype this = None →
       registerGraphFromSpec item' this
       = (storeGraph this (name item') b' (default [] (selectionWords item')),
          Normal tt)).
Proof.
  intros Hann Hne Hroot Hnodes Hpre Hmissing.
  assert (Heqb : String.eqb annotationName "" = false) by by apply String.eqb_neq.
  assert (Hreg : registerGraphFromSpec item this
                 = (this,
                    Throw (match addNodes this (name item) pre
                                   (newStateGraph L annotationRoot) with
                           | Normal _ => notRegistered missing (name item)
                           | Throw e => e
                           end))).
  { unfold registerGraphFromSpec. rewrite Hann, Heqb, Hroot, Hnodes. cbn [newBuilder].
    rewrite addNodes_app.
    destruct (addNodes this (name item) pre (newStateGraph L annotationRoot)); [|done].
    cbn [addNodes]. by rewrite Hmissing. }
  split_and!.
  - exact Hreg.
  - intros e He. by eapply addNodes_throw_cause.
  - by rewrite Hreg.
  - intros H1 H2 H3 H4. rewrite Hreg. cbn [fst]. by apply getDynamicGraph_not_found.
  - intros item' [Hnone | [Hempty | (a & Ha & Hunknown)]]; unfold registerGraphFromSpec.
    + by rewrite Hnone.
    + by rewrite Hempty.
    + rewrite Ha, Hunknown. by destruct (String.eqb a "").
  - intros item' b b' Hann' Hn He Hp. unfold registerGraphFromSpec, assignBuilder.
    rewrite Hann', Heqb, Hroot. cbn [newBuilder]. rewrite Hn, He, Hp.
    destruct (String.eqb (name item') "__proto__"); [done |].
    by destruct (dynamicGraphBuilders this !! name item').
Qed.

End AnyLibrary.

Lemma reregistration_keeps_compiled_graph_witness :
  getDynamicGraph "dynamicShortGraph" afterReregistration
    = (afterReregistration, Normal (Some (Own (shapeOf shortSpec))))
  ∧ dynamicGraphBuilders afterReregistration !! "dynamicShortGraph"
    = Some (shapeOf shorterSpec)
  ∧ compile recording (shapeOf shorterSpec) = Normal (shapeOf shorterSpec)
  ∧ shapeOf shorterSpec ≠ shapeOf shortSpec.
Proof.
  split_and!.
  - apply (reregistration_keeps_compiled_graph
             (getDynamicGraph "dynamicShortGraph"
                (registerGraphFromSpec shortSpec emptyRegistry).1).1
             shorterSpec (shapeOf shortSpec)).
    vm_compute. reflexivity.
  - vm_compute. reflexivity.
  - reflexivity.
  - discriminate.
Defined.

Lemma registerGraphFromSpec_unresolved_node_witness :
  registerGraphFromSpec unresolvedSpec emptyRegistry
    = (emptyRegistry, Throw (notRegistered "missingNode" "brokenGraph"))
  ∧ getDynamicGraph "brokenGraph" (registerGraphFromSpec unresolvedSpec emptyRegistry).1
    = (emptyRegistry, Normal None).
Proof.
  destruct (registerGraphFromSpec_unresolved_node emptyRegistry unresolvedSpec
              "DefaultGraphAnnotation" DefaultGraphAnnotation
              ["inputAnalysisNode"%string] "missingNode" [])
    as (Hreg & _ & _ & Hget & _).
  - reflexivity.
  - discriminate.
  - reflexivity.
  - reflexivity.
  - intros n Hn. apply list_elem_of_singleton in Hn as ->. vm_compute. by eexists.
  - vm_compute. reflexivity.
  - split; [exact Hreg |]. apply Hget; [vm_compute; reflexivity .. |].
    vm_compute. intros H. repeat (inversion H as [|? ? ? H']; clear H; rename H' into H).
Defined.

(** C2, the claim as stated fails, twice. A specification without
    [annotationType] is skipped before its nodes are looked at, so a node
    list naming an unregistered node function raises no error. And a
    specification with an edge to a node that is not in its node list is
    registered without an error, on a library that accepts the edge when it
    is added and checks it when the graph is compiled: the name enters the
    selection vocabulary, and the error only comes from the compilation, each
    time the graph is retrieved. *)
Lemma unresolved_names_are_not_rejected :
  (nodeFuctionMap emptyRegistry !! "missingNode" = None
   ∧ "missingNode" ∈ default [] (nodes unannotatedSpec)
   ∧ registerGraphFromSpec unannotatedSpec emptyRegistry = (emptyRegistry, Normal tt))
  ∧ (("ghostNode" ∉ default [] (nodes ghostEdgeSpec))
     ∧ (mkEdge "inputAnalysisNode" "ghostNode") ∈ default [] (edges ghostEdgeSpec)
     ∧ (registerGraphFromSpec ghostEdgeSpec checkingRegistry).2 = Normal tt
     ∧ Map_get (graphSelectionWords (registerGraphFromSpec ghostEdgeSpec checkingRegistry).1)
               "ghostGraph" = Some ["@ghost"%string]
     ∧ getDynamicGraph "ghostGraph" (registerGraphFromSpec ghostEdgeSpec checkingRegistry).1
       = ((registerGraphFromSpec ghostEdgeSpec checkingRegistry).1,
          Throw (Error "Found edge at unknown node 'ghostNode'"))).
Proof.
  split; split_and!.
  - vm_compute. reflexivity.
  - simpl. apply elem_of_cons. by left.
  - reflexivity.
  - simpl. intros H. apply list_elem_of_singleton in H. discriminate H.
  - simpl. apply elem_of_cons. right. apply elem_of_cons. by left.
  - vm_compute. reflexivity.
  - vm_compute. reflexivity.
  - vm_compute. reflexivity.
Qed.

End RegistryTheory.

(** * Further properties of the code *)

(** ** The thread store *)

Module StoreLaws.
Import JS ThreadStore MapFacts StoreTheory LifecycleTheory Samples.

(** X1. Two pairs of a user id and a thread id get the same store key only if
    they are the same pair, provided neither user id contains a colon. *)
Theorem makeKey_injective userId1 threadId1 userId2 threadId2 :
  colonFree userId1 →
  colonFree userId2 →
  makeKey userId1 threadId1 = makeKey userId2 threadId2 →
  userId1 = userId2 ∧ threadId1 = threadId2.
Proof.
  unfold makeKey. revert userId2.
  induction userId1 as [|c1 u1 IH]; intros [|c2 u2] H1 H2 Heq; simpl in Heq.
  - injection Heq as Heq. done.
  - apply colonFree_cons in H2 as [Hc _]. injection Heq as Hc' _. congruence.
  - apply colonFree_cons in H1 as [Hc _]. injection Heq as Hc' _. congruence.
  - apply colonFree_cons in H1 as [_ H1]. apply colonFree_cons in H2 as [_ H2].
    injection Heq as -> Heq. destruct (IH u2 H1 H2 Heq) as [-> ->]. done.
Qed.

Lemma makeKey_injective_witness :
  "test-user-123"%string = "test-user-123"%string
  ∧ "researchGraph_thread_1_a"%string = "researchGraph_thread_1_a"%string.
Proof.
  apply (makeKey_injective "test-user-123" "researchGraph_thread_1_a"
           "test-user-123" "researchGraph_thread_1_a"); reflexivity.
Defined.

(** Without the condition on the user ids, different pairs can collide. *)
Lemma makeKey_collision : makeKey "a::b" "c" = makeKey "a" "b::c".
Proof. reflexivity. Qed.

(** X2. Reading back what [createThread] returned: after the call, the record
    found under the given user id and thread id is the record the call
    returned. Every record that was stored before is still found under its
    key, unchanged, and when nothing was stored under the key the returned
    record carries the given ids and graph type, [createdAt] (the given one,
    or the current time) and [lastUpdatedAt] (the given one, or [createdAt]). *)
Theorem createThread_then_find now data (store : Store) :
  let key := makeKey (CreateThreadDto.userId data) (CreateThreadDto.threadId data) in
  let out := Repository.createThread now data store in
  Repository.findByUserAndThread (CreateThreadDto.userId data)
    (CreateThreadDto.threadId data) out.1 = Some out.2
  ∧ (∀ k r, Map_get store k = Some r → Map_get out.1 k = Some r)
  ∧ (∀ k, k ≠ key → Map_get out.1 k = Map_get store k)
  ∧ (Map_get store key = None →
     out.2 = ThreadRecord.mk key (CreateThreadDto.userId data)
               (CreateThreadDto.rootThreadId data) (CreateThreadDto.threadId data)
               (CreateThreadDto.graphType data)
               (default now (CreateThreadDto.createdAt data))
               (default (default now (CreateThreadDto.createdAt data))
                        (CreateThreadDto.lastUpdatedAt data))).
Proof.
  intros key out. subst out. unfold Repository.findByUserAndThread. fold key.
  destruct (Map_get store key) as [existing|] eqn:Hget.
  - rewrite (createThread_present _ _ _ _ Hget). simpl. split_and!; done.
  - rewrite (createThread_fresh _ _ _ Hget). simpl. fold key.
    rewrite <- (Map_set_fresh _ _ _ Hget). split_and!.
    + apply Map_get_set_eq.
    + intros k r Hk. rewrite Map_get_set_ne; [done | congruence].
    + intros k Hk. by rewrite Map_get_set_ne.
    + done.
Qed.

Lemma createThread_then_find_witness :
  (Repository.createThread 2000
     (CreateThreadDto.mk "test-user-456" "root_thread_2_b" "researchGraph_thread_2_b"
        "researchGraph" None None) store1).2
  = ThreadRecord.mk (makeKey "test-user-456" "researchGraph_thread_2_b")
      "test-user-456" "root_thread_2_b" "researchGraph_thread_2_b" "researchGraph"
      2000 2000.
Proof.
  apply (createThread_then_find 2000
           (CreateThreadDto.mk "test-user-456" "root_thread_2_b"
              "researchGraph_thread_2_b" "researchGraph" None None) store1).
  reflexivity.
Defined.

(** X3. [createThread] and the per-user listing: the threads listed for any
    other user are the same before and after the call; for the user of the
    call, a call that finds the key taken changes nothing, and a call that
    finds it free appends the returned record at the end of the user's list. *)
Theorem createThread_then_findThreadsByUser now data (store : Store) :
  let key := makeKey (CreateThreadDto.userId data) (CreateThreadDto.threadId data) in
  let out := Repository.createThread now data store in
  (∀ other, other ≠ CreateThreadDto.userId data →
     Repository.findThreadsByUser other out.1 = Repository.findThreadsByUser other store)
  ∧ (is_Some (Map_get store key) → out.1 = store)
  ∧ (Map_get store key = None →
     Repository.findThreadsByUser (CreateThreadDto.userId data) out.1
     = Repository.findThreadsByUser (CreateThreadDto.userId data) store ++ [out.2]).
Proof.
  intros key out. subst out.
  destruct (Map_get store key) as [existing|] eqn:Hget.
  - rewrite (createThread_present _ _ _ _ Hget). simpl. split_and!; [done | done | ].
    intros [=].
  - rewrite (createThread_fresh _ _ _ Hget). simpl.
    unfold Repository.findThreadsByUser, Map_values. split_and!.
    + intros other Hne. rewrite fmap_app, filter_app. simpl.
      rewrite filter_cons, decide_False by (simpl; congruence).
      by rewrite filter_nil, (right_id_L [] (++)).
    + by intros [? [=]].
    + intros _. rewrite fmap_app, filter_app. simpl.
      rewrite filter_cons, decide_True by done. by rewrite filter_nil.
Qed.

Lemma createThread_then_findThreadsByUser_witness :
  Repository.findThreadsByUser "test-user-123"
    (Repository.createThread 2000
       (CreateThreadDto.mk "test-user-456" "root_thread_2_b" "researchGraph_thread_2_b"
          "researchGraph" None None) store1).1
  = Repository.findThreadsByUser "test-user-123" store1.
Proof.
  apply (createThread_then_findThreadsByUser 2000
           (CreateThreadDto.mk "test-user-456" "root_thread_2_b"
              "researchGraph_thread_2_b" "researchGraph" None None) store1).
  discriminate.
Defined.

Lemma keepMostRecent_fold (l : list ThreadRecord.t) :
  (l = [] ∧ fold_left Repository.keepMostRecent l None = None)
  ∨ ∃ pre r post,
      l = pre ++ r :: post
      ∧ fold_left Repository.keepMostRecent l None = Some r
      ∧ (∀ r', r' ∈ pre → ThreadRecord.lastUpdatedAt r' < ThreadRecord.lastUpdatedAt r)
      ∧ (∀ r', r' ∈ post → ThreadRecord.lastUpdatedAt r' ≤ ThreadRecord.lastUpdatedAt r).
Proof.
  induction l as [|x l IH] using rev_ind; [by left |].
  right. rewrite fold_left_app. simpl.
  destruct IH as [[-> Hf] | (pre & r & post & -> & Hf & Hpre & Hpost)].
  - exists [], x, []. simpl. split_and!; [done | done | |];
      intros r' H; by apply elem_of_nil in H.
  - rewrite Hf. simpl. case_bool_decide as Hlt.
    + exists (pre ++ r :: post), x, []. split_and!; [done | done | |].
      * intros r' [Hin | [-> | Hin]%elem_of_cons]%elem_of_app.
        -- specialize (Hpre _ Hin). lia.
        -- done.
        -- specialize (Hpost _ Hin). lia.
      * intros r' H. by apply elem_of_nil in H.
    + exists pre, r, (post ++ [x]). split_and!.
      * by rewrite <- (assoc_L (++)).
      * done.
      * done.
      * intros r' [Hin | ->%list_elem_of_singleton]%elem_of_app; [by apply Hpost | lia].
Qed.

(** X4. [findLastUpdatedThread] returns [null] exactly when the store is empty.
    Otherwise it returns a stored record such that every record inserted
    before it was updated strictly earlier and no record inserted after it
    was updated later: the most recently updated record, the first inserted
    one among equals. *)
Theorem findLastUpdatedThread_first_latest (store : Store) :
  (Repository.findLastUpdatedThread store = None ↔ store = [])
  ∧ ∀ r, Repository.findLastUpdatedThread store = Some r →
      ∃ pre post,
        Repository.findAllThreads store = pre ++ r :: post
        ∧ (∀ r', r' ∈ pre →
             ThreadRecord.lastUpdatedAt r' < ThreadRecord.lastUpdatedAt r)
        ∧ (∀ r', r' ∈ post →
             ThreadRecord.lastUpdatedAt r' ≤ ThreadRecord.lastUpdatedAt r).
Proof.
  unfold Repository.findLastUpdatedThread, Repository.findAllThreads.
  destruct (keepMostRecent_fold (Map_values store))
    as [[Hnil Hf] | (pre & r & post & Heq & Hf & Hpre & Hpost)]; rewrite Hf.
  - split; [|done]. split; [|done]. intros _. by apply fmap_nil_inv in Hnil.
  - split.
    + split; [done |]. intros ->. by destruct pre.
    + intros r0 [= <-]. by exists pre, post.
Qed.

Lemma findLastUpdatedThread_first_latest_witness :
  ∃ pre post,
    Repository.findAllThreads store1 = pre ++ store1.*2 ++ post.
Proof.
  destruct (proj2 (findLastUpdatedThread_first_latest store1)
              (ThreadRecord.mk (makeKey "test-user-123" "researchGraph_thread_1_a")
                 "test-user-123" "root_thread_1_a" "researchGraph_thread_1_a"
                 "researchGraph" 1000 1000) eq_refl)
    as (pre & post & Heq & _).
  exists pre, post. exact Heq.
Defined.

(** X5. Touching a thread makes it the last updated one: when a record is
    stored under the key and the new timestamp is later than every
    [lastUpdatedAt] in the store, [findLastUpdatedThread] after
    [updateLastUpdatedAt] returns the record that the update returned. *)
Theorem updateLastUpdatedAt_then_findLastUpdatedThread now data (store : Store) cur :
  Map_get store (makeKey (UpdateLastUpdatedDto.userId data)
                         (UpdateLastUpdatedDto.threadId data)) = Some cur →
  (∀ r, r ∈ Map_values store →
     ThreadRecord.lastUpdatedAt r < default now (UpdateLastUpdatedDto.lastUpdatedAt data)) →
  let out := Repository.updateLastUpdatedAt now data store in
  ∃ updated, out.2 = Normal updated
             ∧ Repository.findLastUpdatedThread out.1 = Some updated.
Proof.
  intros Hget Hlater out. subst out.
  rewrite (updateLastUpdatedAt_present _ _ _ _ Hget). simpl.
  set (t := default now (UpdateLastUpdatedDto.lastUpdatedAt data)) in *.
  exists (setLastUpdatedAt t cur). split; [done |].
  destruct (Map_set_split _ _ _ Hget) as (pre & post & Hstore & _ & Hset).
  rewrite Hset. unfold Repository.findLastUpdatedThread.
  assert (Hvals : Map_values (pre ++ (makeKey (UpdateLastUpdatedDto.userId data)
                                        (UpdateLastUpdatedDto.threadId data),
                                      setLastUpdatedAt t cur) :: post)
                  = pre.*2 ++ setLastUpdatedAt t cur :: post.*2).
  { unfold Map_values. by rewrite fmap_app. }
  rewrite Hvals.
  assert (Hold : ∀ r, r ∈ pre.*2 ++ post.*2 → ThreadRecord.lastUpdatedAt r < t).
  { intros r Hr. apply Hlater. rewrite Hstore. unfold Map_values. rewrite fmap_app. simpl.
    apply elem_of_app in Hr as [?|?]; apply elem_of_app; [by left | right].
    apply elem_of_cons. by right. }
  destruct (keepMostRecent_fold (pre.*2 ++ setLastUpdatedAt t cur :: post.*2))
    as [[Hnil _] | (pre' & r & post' & Heq & Hf & Hpre' & Hpost')].
  { by destruct (pre.*2). }
  rewrite Hf. f_equal.
  assert (Hr : r ∈ pre.*2 ++ setLastUpdatedAt t cur :: post.*2).
  { rewrite Heq. apply elem_of_app. right. apply elem_of_cons. by left. }
  assert (Hu : setLastUpdatedAt t cur ∈ pre' ++ r :: post').
  { rewrite <- Heq. apply elem_of_app. right. apply elem_of_cons. by left. }
  assert (Hle : t ≤ ThreadRecord.lastUpdatedAt r).
  { apply elem_of_app in Hu as [Hu | [<- | Hu]%elem_of_cons].
    - specialize (Hpre' _ Hu). simpl in Hpre'. lia.
    - simpl. lia.
    - specialize (Hpost' _ Hu). simpl in Hpost'. lia. }
  apply elem_of_app in Hr as [Hr | [-> | Hr]%elem_of_cons]; [| done |].
  - assert (ThreadRecord.lastUpdatedAt r < t); [|lia].
    apply Hold. apply elem_of_app. by left.
  - assert (ThreadRecord.lastUpdatedAt r < t); [|lia].
    apply Hold. apply elem_of_app. by right.
Qed.

Lemma updateLastUpdatedAt_then_findLastUpdatedThread_witness :
  ∃ updated,
    (Repository.updateLastUpdatedAt 2000
       (UpdateLastUpdatedDto.mk "test-user-123" "researchGraph_thread_1_a" None)
       store1).2 = Normal updated
    ∧ Repository.findLastUpdatedThread
        (Repository.updateLastUpdatedAt 2000
           (UpdateLastUpdatedDto.mk "test-user-123" "researchGraph_thread_1_a" None)
           store1).1 = Some updated.
Proof.
  apply (updateLastUpdatedAt_then_findLastUpdatedThread 2000
           (UpdateLastUpdatedDto.mk "test-user-123" "researchGraph_thread_1_a" None)
           store1
           (ThreadRecord.mk (makeKey "test-user-123" "researchGraph_thread_1_a")
              "test-user-123" "root_thread_1_a" "researchGraph_thread_1_a"
              "researchGraph" 1000 1000)).
  - reflexivity.
  - intros r Hr. simpl in Hr. apply list_elem_of_singleton in Hr as ->. simpl. lia.
Defined.

(** The invariant every reachable store satisfies. *)
Lemma runCall_invariant (store : Store) call :
  (NoDup (Map_keys store)
   ∧ ∀ k r, (k, r) ∈ store →
       k = makeKey (ThreadRecord.userId r) (ThreadRecord.threadId r)
       ∧ ThreadRecord.id r = k) →
  NoDup (Map_keys (runCall store call))
  ∧ ∀ k r, (k, r) ∈ runCall store call →
      k = makeKey (ThreadRecord.userId r) (ThreadRecord.threadId r)
      ∧ ThreadRecord.id r = k.
Proof.
  intros [Hnd Hk]. destruct call as [now data | now data]; simpl.
  - destruct (Map_get store (makeKey (CreateThreadDto.userId data)
                                     (CreateThreadDto.threadId data))) as [r|] eqn:Hget.
    + by rewrite (createThread_present _ _ _ _ Hget).
    + rewrite (createThread_fresh _ _ _ Hget). simpl.
      rewrite <- (Map_set_fresh _ _ _ Hget). split; [by apply Map_set_NoDup |].
      rewrite (Map_set_fresh _ _ _ Hget).
      intros k r [Hin | Hin]%elem_of_app; [by apply Hk |].
      apply list_elem_of_singleton in Hin. by injection Hin as -> ->.
  - destruct (Map_get store (makeKey (UpdateLastUpdatedDto.userId data)
                                     (UpdateLastUpdatedDto.threadId data))) as [cur|] eqn:Hget.
    + rewrite (updateLastUpdatedAt_present _ _ _ _ Hget). simpl.
      split; [by apply Map_set_NoDup |].
      destruct (Map_set_split _ _ _ Hget) as (pre & post & Hstore & _ & Hset).
      rewrite Hset. rewrite Hstore in Hk.
      intros k r [Hin | [Heq | Hin]%elem_of_cons]%elem_of_app.
      * apply Hk. apply elem_of_app. by left.
      * injection Heq as -> ->. simpl.
        apply (Hk _ cur). apply elem_of_app. right. apply elem_of_cons. by left.
      * apply Hk. apply elem_of_app. right. apply elem_of_cons. by right.
    + by rewrite updateLastUpdatedAt_missing.
Qed.

(** X6. Whatever sequence of [createThread] and [updateLastUpdatedAt] calls is
    run on an empty repository, the store it leaves has distinct keys, holds
    every record under the key made from the record's own [userId] and
    [threadId], with that key as the record's [id], and holds at most one
    record for a given [userId] and [threadId]. *)
Theorem reachable_store_invariant (calls : list StoreCall) :
  let store := runCalls calls in
  NoDup (Map_keys store)
  ∧ (∀ k r, (k, r) ∈ store →
       k = makeKey (ThreadRecord.userId r) (ThreadRecord.threadId r)
       ∧ ThreadRecord.id r = k)
  ∧ (∀ r1 r2, r1 ∈ Map_values store → r2 ∈ Map_values store →
       ThreadRecord.userId r1 = ThreadRecord.userId r2 →
       ThreadRecord.threadId r1 = ThreadRecord.threadId r2 → r1 = r2).
Proof.
  intros store.
  assert (Hinv : NoDup (Map_keys store)
                 ∧ ∀ k r, (k, r) ∈ store →
                     k = makeKey (ThreadRecord.userId r) (ThreadRecord.threadId r)
                     ∧ ThreadRecord.id r = k).
  { subst store. unfold runCalls.
    induction calls as [|call calls IH] using rev_ind.
    - split; [constructor | intros k r H; by apply elem_of_nil in H].
    - rewrite fold_left_app. simpl. by apply runCall_invariant. }
  destruct Hinv as [Hnd Hk]. split_and!; [done | done |].
  intros r1 r2 H1 H2 Hu Ht. unfold Map_values in *.
  apply list_elem_of_fmap in H1 as ([k1 r1'] & -> & H1).
  apply list_elem_of_fmap in H2 as ([k2 r2'] & -> & H2). simpl in *.
  destruct (Hk _ _ H1) as [Hk1 _]. destruct (Hk _ _ H2) as [Hk2 _].
  rewrite Hu, Ht, <- Hk2 in Hk1. subst k1.
  pose proof (Map_get_elem _ _ _ Hnd H1) as G1.
  pose proof (Map_get_elem _ _ _ Hnd H2) as G2. congruence.
Qed.

(** X7. No call removes a record or changes who it belongs to: a record found
    under a key before a [createThread] or [updateLastUpdatedAt] call is found
    under the same key afterwards with the same [id], [userId],
    [rootThreadId], [threadId], [graphType] and [createdAt], and the keys the
    store had come first, in the same order, among the keys it has after the
    call. *)
Theorem records_are_never_removed (store : Store) call k r :
  Map_get store k = Some r →
  (∃ r', Map_get (runCall store call) k = Some r'
         ∧ ThreadRecord.id r' = ThreadRecord.id r
         ∧ ThreadRecord.userId r' = ThreadRecord.userId r
         ∧ ThreadRecord.rootThreadId r' = ThreadRecord.rootThreadId r
         ∧ ThreadRecord.threadId r' = ThreadRecord.threadId r
         ∧ ThreadRecord.graphType r' = ThreadRecord.graphType r
         ∧ ThreadRecord.createdAt r' = ThreadRecord.createdAt r)
  ∧ Map_keys store `prefix_of` Map_keys (runCall store call).
Proof.
  intros Hr. destruct call as [now data | now data]; simpl.
  - destruct (Map_get store (makeKey (CreateThreadDto.userId data)
                                     (CreateThreadDto.threadId data))) as [e|] eqn:Hget.
    + rewrite (createThread_present _ _ _ _ Hget). simpl. split; [by exists r | done].
    + rewrite (createThread_fresh _ _ _ Hget). simpl. split.
      * exists r. split; [|done]. rewrite <- (Map_set_fresh _ _ _ Hget).
        rewrite Map_get_set_ne; [done | congruence].
      * unfold Map_keys. rewrite fmap_app. by apply prefix_app_r.
  - destruct (Map_get store (makeKey (UpdateLastUpdatedDto.userId data)
                                     (UpdateLastUpdatedDto.threadId data))) as [cur|] eqn:Hget.
    + rewrite (updateLastUpdatedAt_present _ _ _ _ Hget). simpl. split.
      * destruct (decide (makeKey (UpdateLastUpdatedDto.userId data)
                                  (UpdateLastUpdatedDto.threadId data) = k)) as [<-|Hne].
        -- rewrite Map_get_set_eq. eexists. split; [done |].
           assert (cur = r) as -> by congruence. done.
        -- rewrite Map_get_set_ne by done. by exists r.
      * rewrite Map_keys_set_present; [done | by rewrite Hget].
    + rewrite updateLastUpdatedAt_missing by done. simpl. split; [by exists r | done].
Qed.

Lemma records_are_never_removed_witness :
  ∃ r', Map_get (runCall store1
                   (CallCreateThread 2000
                      (CreateThreadDto.mk "test-user-456" "root_thread_2_b"
                         "researchGraph_thread_2_b" "researchGraph" None None)))
                (makeKey "test-user-123" "researchGraph_thread_1_a") = Some r'
        ∧ ThreadRecord.userId r' = "test-user-123"%string.
Proof.
  destruct (proj1 (records_are_never_removed store1
              (CallCreateThread 2000
                 (CreateThreadDto.mk "test-user-456" "root_thread_2_b"
                    "researchGraph_thread_2_b" "researchGraph" None None))
              (makeKey "test-user-123" "researchGraph_thread_1_a")
              (ThreadRecord.mk (makeKey "test-user-123" "researchGraph_thread_1_a")
                 "test-user-123" "root_thread_1_a" "researchGraph_thread_1_a"
                 "researchGraph" 1000 1000) eq_refl))
    as (r' & Hget & _ & Hu & _).
  exists r'. split; [exact Hget | exact Hu].
Defined.

End StoreLaws.

(** ** Thread lifecycle, continued *)

Module LifecycleLaws.
Import JS ThreadStore Orchestrator MapFacts StoreTheory LifecycleTheory Samples.

(** The number of threads of graph type [g] in a list of threads. *)
Lemma countThread_count (seen : list ThreadRecord.t) acc item :
  (∀ g, count <$> acc !! g
        = (let n := length (filter (λ r, ThreadRecord.graphType r = g) seen) in
           if decide (n = 0%nat) then None else Some (Z.of_nat n))) →
  ∀ g, count <$> countThread acc item !! g
       = (let n := length (filter (λ r, ThreadRecord.graphType r = g) (seen ++ [item])) in
          if decide (n = 0%nat) then None else Some (Z.of_nat n)).
Proof.
  intros Hacc g. cbv zeta. rewrite filter_app, length_app, filter_cons, filter_nil.
  specialize (Hacc g). cbv zeta in Hacc. unfold countThread.
  destruct (decide (ThreadRecord.graphType item = g)) as [Heq|Hne].
  - rewrite Heq in *. simpl.
    destruct (acc !! g) as [existing|] eqn:Hex; rewrite lookup_insert_eq; simpl in *.
    + destruct (decide (length (filter (λ r, ThreadRecord.graphType r = g) seen) = 0%nat));
        [done |]. injection Hacc as Hc.
      rewrite decide_False by lia. f_equal. case_bool_decide; simpl; lia.
    + destruct (decide (length (filter (λ r, ThreadRecord.graphType r = g) seen) = 0%nat))
        as [Hz|]; [|done].
      rewrite decide_False by lia. f_equal. lia.
  - simpl. rewrite Nat.add_0_r.
    destruct (acc !! ThreadRecord.graphType item); by rewrite lookup_insert_ne.
Qed.

(** X8. What the per-user summary counts: for every graph type, the summary
    of a user has no entry when the user has no thread of that type, and
    otherwise an entry whose [count] is the number of that user's threads of
    that type. *)
Theorem findThreadTypeCountsByUser_count userId (store : Store) g :
  count <$> findThreadTypeCountsByUser userId store !! g
  = (let n := length (filter (λ r, ThreadRecord.graphType r = g)
                        (Repository.findThreadsByUser userId store)) in
     if decide (n = 0%nat) then None else Some (Z.of_nat n)).
Proof.
  unfold findThreadTypeCountsByUser, Service.readThreadsByUser.
  generalize (Repository.findThreadsByUser userId store). intros threads.
  assert (Hgen : ∀ (l seen : list ThreadRecord.t) acc,
    (∀ g, count <$> acc !! g
          = (let n := length (filter (λ r, ThreadRecord.graphType r = g) seen) in
             if decide (n = 0%nat) then None else Some (Z.of_nat n))) →
    ∀ g, count <$> fold_left countThread l acc !! g
         = (let n := length (filter (λ r, ThreadRecord.graphType r = g) (seen ++ l)) in
            if decide (n = 0%nat) then None else Some (Z.of_nat n))).
  { induction l as [|item l IH]; intros seen acc Hacc g'.
    - rewrite (right_id_L [] (++)). apply Hacc.
    - simpl. replace (seen ++ item :: l) with ((seen ++ [item]) ++ l)
        by (by rewrite <- (assoc_L (++))).
      apply IH. by apply countThread_count. }
  apply (Hgen threads [] ∅). intros g'. by rewrite lookup_empty.
Qed.

(** X9. A summary entry that names a thread which is not stored under the
    user's key (a summary taken for another user, or from another store)
    makes [getThreadId] throw a [TypeError]; nothing is stored and no new
    thread is minted in its place. *)
Theorem getThreadId_stale_summary stamp suffix now userId graphType summary
    (store : Store) history :
  summary !! graphType = Some history →
  Map_get store (makeKey userId (lastUpdatedThreadId history)) = None →
  ∃ msg, getThreadId stamp suffix now userId graphType summary store
         = (store, Throw (TypeError msg)).
Proof.
  intros Hh Hget. unfold getThreadId. rewrite Hh.
  unfold Service.updateLastUpdatedAtFor.
  rewrite updateLastUpdatedAt_missing by done. by eexists.
Qed.

Lemma getThreadId_stale_summary_witness :
  ∃ msg,
    getThreadId 1758207386950 "b2f2d" 2000 "test-user-456" "researchGraph"
      (findThreadTypeCountsByUser "test-user-123" store1) store1
    = (store1, Throw (TypeError msg)).
Proof.
  destruct (findThreadTypeCountsByUser "test-user-123" store1 !! "researchGraph"%string)
    as [history|] eqn:Hh; [|vm_compute in Hh; discriminate].
  apply (getThreadId_stale_summary _ _ _ _ _ _ _ history Hh).
  vm_compute in Hh. injection Hh as <-. vm_compute. reflexivity.
Defined.

End LifecycleLaws.

(** ** Initial state of a new thread *)

Module NewThreadLaws.
Import JS GraphBuilder NewThreadState.

(** X10. Whatever the graph type (one of the recognised ones or any other
    string), the initial state of a new thread carries the ids of the request
    ([activeThreadId] is the thread id, [rootId] the root thread id, [userId]
    the user id) and its messages are the thread messages of the conversation
    context, in order, each as a human or an AI message, followed by the
    current message as a human message. *)
Theorem getInitialStateForNewThread_fields params :
  let st := getInitialStateForNewThread params in
  activeThreadId st = Some (threadId params)
  ∧ rootId st = Some (rootThreadId params)
  ∧ GraphBuilder.userId st = Some (NewThreadState.userId params)
  ∧ messages st
    = Some ((toLangGraphMessage <$> threadMessages (conversationContext params))
            ++ [HumanMessage (message params)])
  ∧ (∀ msgs, messages st = Some msgs → last msgs = Some (HumanMessage (message params))).
Proof.
  intros st. subst st. unfold getInitialStateForNewThread, getInitialStateRuntime.
  assert (Hlast : ∀ l : list BaseMessage, ∀ x msgs,
             Some (l ++ [x]) = Some msgs → last msgs = Some x).
  { intros l x msgs [= <-]. apply last_snoc. }
  destruct (isGraphType (graphType params)); simpl.
  - unfold makeInitialState.
    destruct (String.eqb (graphType params) "monetizationGraph");
      [|destruct (String.eqb (graphType params) "researchGraph");
        [|destruct (String.eqb (graphType params) "concurrentResearchGraph")]];
      simpl; split_and!; try done; apply Hlast.
  - split_and!; try done. apply Hlast.
Qed.

End NewThreadLaws.

(** ** The graph registry, continued *)

Module RegistryLaws.
Import JS GraphBuilder GraphLoading MapFacts RegistryTheory Samples.

(** The inner loop of [dynamicLoadNodes] registers the item exactly when its
    name is one of the names walked, other than the constructor. *)
Lemma loadNodeName_fold item (names : list string) (st : gmap string NodeFn * StepMap) :
  fold_left (loadNodeName item) names st
  = if decide (GraphJsonNodeSpec.name item ∈ names
               ∧ GraphJsonNodeSpec.name item ≠ "constructor"%string)
    then (<[GraphJsonNodeSpec.name item := Method (GraphJsonNodeSpec.name item)]> st.1,
          <[GraphJsonNodeSpec.name item :=
              {| StepData.model := GraphJsonNodeSpec.model item;
                 StepData.temperature := GraphJsonNodeSpec.temperature item |}]> st.2)
    else st.
Proof.
  set (n := GraphJsonNodeSpec.name item).
  set (d := {| StepData.model := GraphJsonNodeSpec.model item;
               StepData.temperature := GraphJsonNodeSpec.temperature item |}).
  induction names as [|p names IH] using rev_ind.
  - cbn [fold_left]. rewrite decide_False; [done |]. intros [H _]. by apply elem_of_nil in H.
  - rewrite fold_left_app. cbn [fold_left]. rewrite IH. unfold loadNodeName. fold n d.
    destruct (String.eqb_spec p n) as [->|Hpn]; cbn [andb negb].
    + destruct (String.eqb_spec n "constructor") as [Hc|Hc]; cbn [andb negb].
      * rewrite !decide_False by (intros [_ ?]; done). done.
      * rewrite (decide_True (P := n ∈ names ++ [n] ∧ n ≠ "constructor"%string)).
        2:{ split; [|done]. apply elem_of_app. right. by apply list_elem_of_singleton. }
        unfold addOrUpdateStep. destruct (decide (n ∈ names ∧ n ≠ "constructor"%string)).
        -- cbn [fst snd]. by rewrite !insert_insert_eq.
        -- done.
    + destruct (decide (n ∈ names ∧ n ≠ "constructor"%string)) as [[Hin Hc]|Hnot].
      * rewrite decide_True; [done |]. split; [|done]. apply elem_of_app. by left.
      * rewrite decide_False; [done |]. intros [Hin Hc]. apply Hnot. split; [|done].
        apply elem_of_app in Hin as [?|Hin]; [done |].
        apply list_elem_of_singleton in Hin. congruence.
Qed.

Lemma dynamicLoadNodes_lookup (items : list GraphJsonNodeSpec.t)
    (st : gmap string NodeFn * StepMap) n :
  let out := fold_left (fun st item => fold_left (loadNodeName item) prototypeNames st)
               items st in
  (out.1 !! n
   = if decide (n ∈ GraphJsonNodeSpec.name <$> items
                ∧ n ∈ prototypeNames ∧ n ≠ "constructor"%string)
     then Some (Method n) else st.1 !! n)
  ∧ (is_Some (out.2 !! n)
     ↔ (n ∈ GraphJsonNodeSpec.name <$> items
        ∧ n ∈ prototypeNames ∧ n ≠ "constructor"%string)
       ∨ is_Some (st.2 !! n)).
Proof.
  induction items as [|item items IH] using rev_ind; intros out.
  - subst out. cbn [fold_left fmap list_fmap]. split.
    + rewrite decide_False; [done |]. intros [H _]. by apply elem_of_nil in H.
    + split; [by right | intros [[H _] | ?]; [by apply elem_of_nil in H | done]].
  - subst out. rewrite fold_left_app. cbn [fold_left]. rewrite loadNodeName_fold.
    cbv zeta in IH. destruct IH as [IH1 IH2]. rewrite fmap_app. cbn [fmap list_fmap].
    set (prev := fold_left _ items st) in *.
    destruct (decide (GraphJsonNodeSpec.name item ∈ prototypeNames
                      ∧ GraphJsonNodeSpec.name item ≠ "constructor"%string))
      as [[Hp Hc]|Hnot]; cbn [fst snd].
    + destruct (decide (GraphJsonNodeSpec.name item = n)) as [Heq|Hne].
      * rewrite Heq in *. rewrite !lookup_insert_eq. split.
        -- rewrite decide_True; [done |]. split_and!; [|done|done].
           apply elem_of_app. right. by apply list_elem_of_singleton.
        -- split; [intros _; left | by eexists]. split_and!; [|done|done].
           apply elem_of_app. right. by apply list_elem_of_singleton.
      * rewrite !lookup_insert_ne by done. rewrite IH1. split.
        -- destruct (decide (n ∈ GraphJsonNodeSpec.name <$> items ∧ _)) as [(?&?&?)|Hn].
           ++ rewrite decide_True; [done |]. split_and!; [|done|done].
              apply elem_of_app. by left.
           ++ rewrite decide_False; [done |]. intros (Hin & ? & ?). apply Hn.
              split_and!; [|done|done]. apply elem_of_app in Hin as [?|Hin]; [done |].
              apply list_elem_of_singleton in Hin. congruence.
        -- rewrite IH2. split.
           ++ intros [(?&?&?) | ?]; [left | by right]. split_and!; [|done|done].
              apply elem_of_app. by left.
           ++ intros [(Hin&?&?) | ?]; [left | by right]. split_and!; [|done|done].
              apply elem_of_app in Hin as [?|Hin]; [done |].
              apply list_elem_of_singleton in Hin. congruence.
    + rewrite IH1. split.
      * destruct (decide (n ∈ GraphJsonNodeSpec.name <$> items ∧ _)) as [(?&?&?)|Hn].
        -- rewrite decide_True; [done |]. split_and!; [|done|done].
           apply elem_of_app. by left.
        -- rewrite decide_False; [done |]. intros (Hin & ? & ?). apply Hn.
           split_and!; [|done|done]. apply elem_of_app in Hin as [?|Hin]; [done |].
           apply list_elem_of_singleton in Hin. subst n. by destruct Hnot.
      * rewrite IH2. split.
        -- intros [(?&?&?) | ?]; [left | by right]. split_and!; [|done|done].
           apply elem_of_app. by left.
        -- intros [(Hin&?&?) | ?]; [left | by right]. split_and!; [|done|done].
           apply elem_of_app in Hin as [?|Hin]; [done |].
           apply list_elem_of_singleton in Hin. subst n. by destruct Hnot.
Qed.

(** X11. Loading the node list into an empty service: a name gets a node
    function exactly when the node list has an entry of that name and the
    name is a method of the service other than its constructor; the function
    is the method of that name; entries with any other name are ignored; and
    a name has step data exactly when it has a node function. *)
Theorem dynamicLoadNodes_registers_methods spec n :
  let out := dynamicLoadNodes spec (∅, ∅) in
  let listed := GraphJsonNodeSpec.name <$> default [] (spec ≫= spec_nodes) in
  (∀ f, out.1 !! n = Some f
        ↔ f = Method n ∧ n ∈ listed ∧ n ∈ prototypeNames ∧ n ≠ "constructor"%string)
  ∧ (is_Some (StepMap_get out.2 n) ↔ is_Some (out.1 !! n)).
Proof.
  intros out listed. subst out listed. unfold dynamicLoadNodes, StepMap_get. cbv zeta.
  destruct (dynamicLoadNodes_lookup (default [] (spec ≫= spec_nodes)) (∅, ∅) n)
    as [H1 H2]. cbv zeta in H1, H2. cbn [fst snd] in H1, H2. rewrite H1, H2.
  destruct (decide (n ∈ GraphJsonNodeSpec.name <$> default [] (spec ≫= spec_nodes) ∧ _))
    as [Hyes|Hno].
  - split.
    + intros f. split; [by intros [= <-] | by intros [-> _]].
    + split; [by eexists | by left].
  - rewrite !lookup_empty. split.
    + intros f. split; [done | by intros [_ ?]].
    + split; [intros [? | [? ?]]; done | by intros [? ?]].
Qed.

Section AnyLibrary.
Context {L : LangGraph}.
Implicit Types (this : Service L) (item : GraphJsonGraphSpec).

Lemma addNodes_nodeFuctionMap this this' graphName nodeNames builder :
  nodeFuctionMap this = nodeFuctionMap this' →
  addNodes this graphName nodeNames builder = addNodes this' graphName nodeNames builder.
Proof.
  intros Hfn. revert builder. induction nodeNames as [|n rest IH]; intros builder; [done |].
  simpl. rewrite Hfn. destruct (getProperty (nodeFuctionMap this') n) as [f|]; [|done].
  destruct (bindNodeFn f) as [bound|e]; [|done].
  destruct (addNode L builder n bound); [apply IH | done].
Qed.

Lemma builderOf_nodeFuctionMap this this' item :
  nodeFuctionMap this = nodeFuctionMap this' → builderOf this item = builderOf this' item.
Proof.
  intros Hfn. unfold builderOf. destruct (annotationType item) as [a|]; [|done].
  destruct (String.eqb a ""); [done |]. destruct (annotationsMap a) as [root|]; [|done].
  destruct (newBuilder root) as [b0|e0]; [|done].
  by rewrite (addNodes_nodeFuctionMap this this').
Qed.

Lemma registerGraphFromSpec_builderOf item this :
  (registerGraphFromSpec item this).1
  = match acceptedBuilder this item with
    | Some builder =>
        storeGraph this (name item) builder (default [] (selectionWords item))
    | None => this
    end.
Proof.
  unfold registerGraphFromSpec, acceptedBuilder, builderOf.
  destruct (annotationType item) as [a|]; [|done].
  destruct (String.eqb a ""); [done |]. destruct (annotationsMap a) as [root|]; [|done].
  destruct (newBuilder root) as [b0|e0]; [|done].
  destruct (addNodes _ _ _ _); [|done]. destruct (addEdges _ _); [|done].
  by destruct (assignBuilder _ _).
Qed.

Lemma acceptedBuilder_None item this :
  builderOf this item = None → acceptedBuilder this item = None.
Proof. intros H. unfold acceptedBuilder. by rewrite H. Qed.

Lemma acceptedBuilder_Some item this builder :
  builderOf this item = Some builder → buildersPrototype this = None →
  acceptedBuilder this item = Some builder.
Proof.
  intros H Hp. unfold acceptedBuilder, assignBuilder. rewrite H, Hp.
  destruct (String.eqb (name item) "__proto__"); [done |].
  by destruct (dynamicGraphBuilders this !! name item).
Qed.

Lemma acceptedBuilder_builderOf item this builder :
  acceptedBuilder this item = Some builder → builderOf this item = Some builder.
Proof.
  unfold acceptedBuilder. destruct (builderOf this item); [|done].
  by destruct (assignBuilder _ _).
Qed.

Lemma registerGraphFromSpec_nodeFuctionMap item this :
  nodeFuctionMap (registerGraphFromSpec item this).1 = nodeFuctionMap this.
Proof. rewrite registerGraphFromSpec_builderOf. by destruct (acceptedBuilder this item). Qed.

(** What [storeGraph] leaves under the names it is not about. *)
Lemma storeGraph_other this graphName builder words n :
  graphName ≠ n →
  dynamicGraphBuilders (storeGraph this graphName builder words) !! n
  = dynamicGraphBuilders this !! n
  ∧ Map_get (graphSelectionWords (storeGraph this graphName builder words)) n
    = Map_get (graphSelectionWords this) n.
Proof.
  intros Hne. unfold storeGraph. cbn [dynamicGraphBuilders graphSelectionWords].
  split; [|by apply Object_set_get_ne].
  destruct (String.eqb graphName "__proto__"); [done | by apply lookup_insert_ne].
Qed.

Lemma storeGraph_named this graphName builder words :
  graphName ≠ "__proto__"%string →
  dynamicGraphBuilders (storeGraph this graphName builder words) !! graphName = Some builder
  ∧ Map_get (graphSelectionWords (storeGraph this graphName builder words)) graphName
    = Some words
  ∧ buildersPrototype (storeGraph this graphName builder words) = buildersPrototype this.
Proof.
  intros Hne. unfold storeGraph.
  cbn [dynamicGraphBuilders graphSelectionWords buildersPrototype].
  rewrite (proj2 (String.eqb_neq _ _) Hne).
  split_and!; [apply lookup_insert_eq | by apply Object_set_get_eq | done].
Qed.

(** The loop of [dynamicLoadGraphs] over a list of specifications. *)
Local Abbreviation loadAll l st :=
  (fold_left (fun st' i => (registerGraphFromSpec i st').1) l st).

Lemma loadAll_nodeFuctionMap items this :
  nodeFuctionMap (loadAll items this) = nodeFuctionMap this.
Proof.
  revert this. induction items as [|item items IH]; intros this; [done |].
  simpl. by rewrite IH, registerGraphFromSpec_nodeFuctionMap.
Qed.

Lemma loadAll_dynamicGraphs items this :
  dynamicGraphs (loadAll items this) = dynamicGraphs this.
Proof.
  revert this. induction items as [|item items IH]; intros this; [done |].
  simpl. by rewrite IH, registerGraphFromSpec_dynamicGraphs.
Qed.

Lemma loadAll_untouched items this n :
  (∀ item, item ∈ items → name item = n → builderOf this item = None) →
  dynamicGraphBuilders (loadAll items this) !! n = dynamicGraphBuilders this !! n
  ∧ Map_get (graphSelectionWords (loadAll items this)) n
    = Map_get (graphSelectionWords this) n.
Proof.
  revert this. induction items as [|item items IH]; intros this Hnone; [done |].
  simpl. destruct (IH (registerGraphFromSpec item this).1) as [IH1 IH2].
  { intros i Hi Hn.
    rewrite (builderOf_nodeFuctionMap _ this) by apply registerGraphFromSpec_nodeFuctionMap.
    apply Hnone; [apply elem_of_cons; by right | done]. }
  rewrite IH1, IH2, registerGraphFromSpec_builderOf.
  destruct (acceptedBuilder this item) as [b|] eqn:Hb; [|done].
  apply acceptedBuilder_builderOf in Hb.
  assert (name item ≠ n).
  { intros Hn. rewrite Hnone in Hb; [done | apply elem_of_cons; by left | done]. }
  by apply storeGraph_other.
Qed.

Lemma loadAll_prototype items this :
  (∀ item, item ∈ items → name item = "__proto__"%string → builderOf this item = None) →
  buildersPrototype (loadAll items this) = buildersPrototype this.
Proof.
  revert this. induction items as [|item items IH]; intros this Hnone; [done |].
  simpl. rewrite IH.
  - rewrite registerGraphFromSpec_builderOf.
    destruct (acceptedBuilder this item) as [b|] eqn:Hb; [|done].
    apply acceptedBuilder_builderOf in Hb.
    unfold storeGraph. cbn [buildersPrototype].
    destruct (String.eqb_spec (name item) "__proto__") as [Hn|Hn]; [|done].
    rewrite Hnone in Hb; [done | apply elem_of_cons; by left | done].
  - intros i Hi Hn.
    rewrite (builderOf_nodeFuctionMap _ this) by apply registerGraphFromSpec_nodeFuctionMap.
    apply Hnone; [apply elem_of_cons; by right | done].
Qed.

(** X12. One bad specification does not stop the others from loading. Let
    the registry of builders have its original prototype, and let no
    specification of the list that [registerGraphFromSpec] would accept be
    named [__proto__]. If the list of graph specifications is
    [before ++ item :: after], [item] is one that [registerGraphFromSpec]
    accepts for the registered node functions, and no accepted specification
    of the same name follows it, then after [dynamicLoadGraphs] the builder
    stored under the name is the one built from [item] and the selection
    words stored under it are those of [item], whatever the other
    specifications of the list are and whether or not they fail. Loading
    compiles nothing. *)
Theorem dynamicLoadGraphs_isolates_failures nodeSpecs before item after this builder :
  buildersPrototype this = None →
  (∀ other, other ∈ before ++ item :: after → name other = "__proto__"%string →
     builderOf this other = None) →
  builderOf this item = Some builder →
  (∀ later, later ∈ after → name later = name item → builderOf this later = None) →
  let final :=
    dynamicLoadGraphs (Some (mkGraphJsonSpec nodeSpecs (Some (before ++ item :: after))))
      this in
  dynamicGraphBuilders final !! name item = Some builder
  ∧ Map_get (graphSelectionWords final) (name item)
    = Some (default [] (selectionWords item))
  ∧ dynamicGraphs final = dynamicGraphs this.
Proof.
  intros Hproto Hnoproto Hb Hafter final. subst final. unfold dynamicLoadGraphs. simpl.
  rewrite fold_left_app. simpl. set (mid := loadAll before this).
  assert (Hmid : nodeFuctionMap mid = nodeFuctionMap this) by apply loadAll_nodeFuctionMap.
  assert (Hmidproto : buildersPrototype mid = None).
  { subst mid. rewrite loadAll_prototype; [done |]. intros other Ho.
    apply Hnoproto. apply elem_of_app. by left. }
  assert (Hname : name item ≠ "__proto__"%string).
  { intros Hn. rewrite Hnoproto in Hb; [done | | done].
    apply elem_of_app. right. apply elem_of_cons. by left. }
  assert (Hlater : ∀ later, later ∈ after → name later = name item →
                     builderOf (registerGraphFromSpec item mid).1 later = None).
  { intros later Hl Hn.
    rewrite (builderOf_nodeFuctionMap _ this); [by apply Hafter |].
    by rewrite registerGraphFromSpec_nodeFuctionMap. }
  assert (Hstored : (registerGraphFromSpec item mid).1
                    = storeGraph mid (name item) builder (default [] (selectionWords item))).
  { rewrite registerGraphFromSpec_builderOf.
    rewrite (acceptedBuilder_Some item mid builder); [done | | done].
    by rewrite (builderOf_nodeFuctionMap mid this). }
  destruct (loadAll_untouched after (registerGraphFromSpec item mid).1 (name item) Hlater)
    as [-> ->].
  rewrite Hstored.
  destruct (storeGraph_named mid (name item) builder (default [] (selectionWords item)) Hname)
    as (? & ? & _).
  split_and!; [done | done |].
  rewrite loadAll_dynamicGraphs. unfold storeGraph. cbn [dynamicGraphs].
  apply loadAll_dynamicGraphs.
Qed.

(** What [getDynamicGraph] does for a name that has a builder of its own. *)
Lemma getDynamicGraph_with_builder graphName this builder :
  dynamicGraphBuilders this !! graphName = Some builder →
  match (getDynamicGraph graphName this).2 with
  | Normal (Some (Own graph)) =>
      dynamicGraphs this !! graphName = Some graph
      ∨ (dynamicGraphs this !! graphName = None
         ∧ (graphName ∉ objectPrototypeNames)
         ∧ compile L builder = Normal graph)
  | Normal (Some (Inherited member)) =>
      member = graphName
      ∧ graphName ∈ objectPrototypeNames
      ∧ dynamicGraphs this !! graphName = None
      ∧ (getDynamicGraph graphName this).1 = this
  | Normal None => False
  | Throw e =>
      dynamicGraphs this !! graphName = None
      ∧ (graphName ∉ objectPrototypeNames)
      ∧ compile L builder = Throw e
  end.
Proof.
  intros Hb. destruct (dynamicGraphs this !! graphName) as [g|] eqn:Hg.
  - rewrite (getDynamicGraph_cached _ _ g Hg). cbn [snd]. by left.
  - destruct (isObjectPrototypeName graphName) eqn:Hn.
    + assert (Hget : getProperty (dynamicGraphs this) graphName
                     = Some (Inherited graphName)).
      { unfold getProperty. by rewrite Hg, Hn. }
      unfold getDynamicGraph. rewrite Hget. cbn [fst snd].
      split_and!; [done | by apply isObjectPrototypeName_elem | done | done].
    + assert (Hnot : graphName ∉ objectPrototypeNames).
      { intros Hin. apply isObjectPrototypeName_elem in Hin. congruence. }
      assert (Hget : getProperty (dynamicGraphs this) graphName = None).
      { by apply getProperty_None. }
      unfold getDynamicGraph, compileBuilder. rewrite Hget, Hb.
      destruct (compile L builder) as [c|e]; cbn [snd].
      * cbn [dynamicGraphs]. rewrite (getProperty_own _ _ c) by apply lookup_insert_eq.
        right. by split_and!.
      * by split_and!.
Qed.

Lemma vocabularyHasBuilders_register item this :
  vocabularyHasBuilders this → vocabularyHasBuilders (registerGraphFromSpec item this).1.
Proof.
  intros Hinv. rewrite registerGraphFromSpec_builderOf.
  destruct (acceptedBuilder this item) as [b|]; [|done].
  intros n. destruct (decide (name item = n)) as [<-|Hne].
  - destruct (decide (name item = "__proto__"%string)) as [Hp|Hp].
    + unfold storeGraph. cbn [graphSelectionWords dynamicGraphBuilders].
      rewrite Hp. rewrite Object_set_proto. cbn [String.eqb Ascii.eqb Bool.eqb].
      apply Hinv.
    + intros _. destruct (storeGraph_named this (name item) b
                            (default [] (selectionWords item)) Hp) as (-> & _). by eexists.
  - destruct (storeGraph_other this (name item) b (default [] (selectionWords item)) n Hne)
      as [-> ->]. apply Hinv.
Qed.

Lemma getDynamicGraph_keeps graphName this :
  dynamicGraphBuilders (getDynamicGraph graphName this).1 = dynamicGraphBuilders this
  ∧ buildersPrototype (getDynamicGraph graphName this).1 = buildersPrototype this
  ∧ graphSelectionWords (getDynamicGraph graphName this).1 = graphSelectionWords this
  ∧ nodeFuctionMap (getDynamicGraph graphName this).1 = nodeFuctionMap this.
Proof.
  unfold getDynamicGraph. destruct (getProperty (dynamicGraphs this) graphName); [done |].
  destruct (compileBuilder this graphName) as [[c|e]|]; done.
Qed.

(** X13. The selection vocabulary never runs ahead of the builders: if every
    name of the vocabulary has a builder of its own, this is still so after
    [registerGraphFromSpec] and after [getDynamicGraph], whatever their
    arguments and outcome. For a name of the vocabulary [getDynamicGraph]
    then never gives the not-found result. It returns the graph cached under
    the name; or, with nothing cached, it compiles the builder of that name
    and returns the compiled graph or throws what the compilation throws.
    The exception is a name that is a property name of [Object.prototype]
    (such as [constructor]) with nothing cached: the call returns that member
    of [Object.prototype], which is no graph, and leaves the service as it
    is, so the builder of such a name is never compiled. *)
Theorem vocabulary_has_builders this item graphName :
  vocabularyHasBuilders this →
  vocabularyHasBuilders (registerGraphFromSpec item this).1
  ∧ vocabularyHasBuilders (getDynamicGraph graphName this).1
  ∧ (is_Some (Map_get (graphSelectionWords this) graphName) →
     ∃ builder,
       dynamicGraphBuilders this !! graphName = Some builder
       ∧ match (getDynamicGraph graphName this).2 with
         | Normal (Some (Own graph)) =>
             dynamicGraphs this !! graphName = Some graph
             ∨ (dynamicGraphs this !! graphName = None
                ∧ (graphName ∉ objectPrototypeNames)
                ∧ compile L builder = Normal graph)
         | Normal (Some (Inherited member)) =>
             member = graphName
             ∧ graphName ∈ objectPrototypeNames
             ∧ dynamicGraphs this !! graphName = None
             ∧ (getDynamicGraph graphName this).1 = this
         | Normal None => False
         | Throw e =>
             dynamicGraphs this !! graphName = None
             ∧ (graphName ∉ objectPrototypeNames)
             ∧ compile L builder = Throw e
         end).
Proof.
  intros Hinv. split_and!.
  - by apply vocabularyHasBuilders_register.
  - destruct (getDynamicGraph_keeps graphName this) as (Hb & _ & Hw & _).
    intros n. rewrite Hb, Hw. apply Hinv.
  - intros Hvoc. destruct (Hinv _ Hvoc) as [b Hb]. exists b. split; [done |].
    by apply getDynamicGraph_with_builder.
Qed.

(** X14. A graph is compiled once: when [getDynamicGraph] returns a compiled
    graph, calling it again on the resulting service returns the same graph
    and leaves the service as it is; the call changed nothing but the cache
    entry of that name. A compilation that throws leaves the service
    unchanged, so the next call compiles again. *)
Theorem getDynamicGraph_caches graphName this :
  let out := getDynamicGraph graphName this in
  (∀ graph, out.2 = Normal (Some graph) →
     getDynamicGraph graphName out.1 = (out.1, Normal (Some graph))
     ∧ dynamicGraphBuilders out.1 = dynamicGraphBuilders this
     ∧ buildersPrototype out.1 = buildersPrototype this
     ∧ graphSelectionWords out.1 = graphSelectionWords this
     ∧ nodeFuctionMap out.1 = nodeFuctionMap this
     ∧ ∀ other, other ≠ graphName →
         dynamicGraphs out.1 !! other = dynamicGraphs this !! other)
  ∧ (∀ e, out.2 = Throw e → out.1 = this).
Proof.
  intros out.
  assert (Hout : out = getDynamicGraph graphName this) by done.
  clearbody out. unfold getDynamicGraph in Hout.
  destruct (getProperty (dynamicGraphs this) graphName) as [g|] eqn:Hg.
  - subst out. cbn [fst snd]. split; [|done]. intros graph [= <-].
    split_and!; try done. unfold getDynamicGraph. by rewrite Hg.
  - destruct (compileBuilder this graphName) as [[c|e]|] eqn:Hb; subst out; cbn [fst snd].
    + split; [|done]. cbn [dynamicGraphs].
      rewrite (getProperty_own _ _ c) by apply lookup_insert_eq. intros graph [= <-].
      split_and!; try done.
      * apply getDynamicGraph_cached. cbn [dynamicGraphs]. apply lookup_insert_eq.
      * intros other Hne. cbn [dynamicGraphs]. by rewrite lookup_insert_ne.
    + split; [done |]. by intros e' _.
    + split; [done | done].
Qed.

End AnyLibrary.

Lemma dynamicLoadGraphs_isolates_failures_witness :
  let final :=
    dynamicLoadGraphs
      (Some (mkGraphJsonSpec None (Some ([unresolvedSpec] ++ shortSpec :: [unannotatedSpec]))))
      emptyRegistry in
  dynamicGraphBuilders final !! "dynamicShortGraph" = Some (shapeOf shortSpec)
  ∧ Map_get (graphSelectionWords final) "dynamicShortGraph" = Some ["@dynamic-short"%string]
  ∧ dynamicGraphs final = dynamicGraphs emptyRegistry.
Proof.
  apply (dynamicLoadGraphs_isolates_failures None [unresolvedSpec] shortSpec
           [unannotatedSpec] emptyRegistry (shapeOf shortSpec)).
  - reflexivity.
  - intros other Ho Hn. cbn [app] in Ho.
    repeat (apply elem_of_cons in Ho as [-> | Ho]; [discriminate Hn |]).
    by apply elem_of_nil in Ho.
  - vm_compute. reflexivity.
  - intros later Hl Hn. apply list_elem_of_singleton in Hl as ->. discriminate Hn.
Defined.

Lemma vocabulary_has_builders_witness :
  vocabularyHasBuilders (registerGraphFromSpec shortSpec emptyRegistry).1.
Proof.
  apply (vocabulary_has_builders emptyRegistry shortSpec "dynamicShortGraph").
  intros n [ws Hws]. discriminate Hws.
Defined.

End RegistryLaws.

(** ** Helper methods and analysis nodes *)

Module AnalysisLaws.
Import JS GraphBuilder GraphLoading Analysis StateTheory RegistryLaws.

Lemma stringForall_app p a b :
  stringForall p (a +:+ b) = stringForall p a && stringForall p b.
Proof. induction a as [|c a IH]; simpl; [done |]. by rewrite IH, andb_assoc. Qed.

Lemma toLowerChar_idem c : toLowerChar (toLowerChar c) = toLowerChar c.
Proof. destruct c as [[] [] [] [] [] [] [] []]; reflexivity. Qed.

Lemma toLowerCase_lowered s :
  stringForall (fun c => Ascii.eqb (toLowerChar c) c) (toLowerCase s) = true.
Proof.
  induction s as [|c s IH]; simpl; [done |].
  by rewrite toLowerChar_idem, Ascii.eqb_refl, IH.
Qed.

(** The pieces of a split hold no white space, and keep any property that
    all the characters of the string have. *)
Lemma splitGo_pieces p cur inRun s w :
  stringForall (fun c => p c && negb (isSpace c)) cur = true →
  stringForall p s = true →
  w ∈ splitGo cur inRun s →
  stringForall (fun c => p c && negb (isSpace c)) w = true.
Proof.
  revert cur inRun. induction s as [|c s IH]; intros cur inRun Hcur Hs; simpl.
  - intros ->%list_elem_of_singleton. done.
  - cbn [stringForall] in Hs. apply andb_true_iff in Hs as [Hc Hs].
    destruct (isSpace c) eqn:Hsp.
    + destruct inRun.
      * by apply IH.
      * intros [-> | Hin]%elem_of_cons; [done |]. by apply (IH EmptyString true).
    + apply IH; [|done]. rewrite stringForall_app, Hcur. simpl. by rewrite Hc, Hsp.
Qed.

(** X15. [extractKeyTerms] returns at most ten terms; each of them is longer
    than four characters, holds no white space and is in lower case. *)
Theorem extractKeyTerms_terms text :
  (length (extractKeyTerms text) ≤ 10)%nat
  ∧ ∀ term, term ∈ extractKeyTerms text →
      (4 < String.length term)%nat
      ∧ stringForall (fun c => negb (isSpace c)) term = true
      ∧ toLowerCase term = term.
Proof.
  unfold extractKeyTerms. split.
  - rewrite length_take. lia.
  - intros term Hin. apply list_elem_of_lookup in Hin as [i Hi].
    apply lookup_take_Some in Hi as [Hi _].
    apply list_elem_of_lookup_2, list_elem_of_filter in Hi as [Hlen Hw].
    split; [done |].
    pose proof (splitGo_pieces (fun c => Ascii.eqb (toLowerChar c) c) EmptyString false
                  (toLowerCase text) term eq_refl (toLowerCase_lowered text) Hw) as Hp.
    clear Hw Hlen. induction term as [|c term IH]; [done |].
    cbn [stringForall] in Hp. apply andb_true_iff in Hp as [[Hc Hsp]%andb_true_iff Hp].
    destruct (IH Hp) as [IH1 IH2]. simpl. rewrite Hsp, IH1, IH2.
    apply Ascii.eqb_eq in Hc. by rewrite Hc.
Qed.










Lemma roundDiv_bounds a b c lo hi :
  lo ≤ a ≤ hi → lo ≤ b ≤ hi → lo ≤ c ≤ hi → lo ≤ roundDiv (a + b + c) 3 ≤ hi.
Proof.
  intros Ha Hb Hc. unfold roundDiv. split.
  - apply Z.div_le_lower_bound; lia.
  - apply Z.lt_succ_r, Z.div_lt_upper_bound; lia.
Qed.

(** X17. The overall score of the synthesis lies between the least and the
    greatest of the three scores it averages, where a score that is missing
    or zero counts as 50; the recommendation is the one for that overall
    score. In particular, scores between 1 and 100 give an overall score
    between 1 and 100. The synthesis is modelled for scores of magnitude
    below 2^50, and for these scores only. *)
Theorem concurrentSynthesisNode_overall isoNow state lo hi :
  let score key read := scoreOr50 (cs_analysisResults state !! key ≫= read) in
  lo ≤ score "noveltyAnalysis"%string noveltyScoreOf ≤ hi →
  lo ≤ score "feasibilityAnalysis"%string feasibilityScoreOf ≤ hi →
  lo ≤ score "impactAnalysis"%string impactScoreOf ≤ hi →
  match concurrentSynthesisNode isoNow state with
  | Some update =>
      ∃ overall summary,
        up_analysisResults update
        = Some {[ "synthesis"%string :=
                    Synthesis overall (generateRecommendation overall) summary isoNow ]}
        ∧ lo ≤ overall ≤ hi
  | None => lo ≤ - 2 ^ 50 ∨ 2 ^ 50 ≤ hi
  end.
Proof.
  intros score Hn Hf Hi. unfold concurrentSynthesisNode. cbv zeta. fold score.
  fold (score "noveltyAnalysis"%string noveltyScoreOf).
  fold (score "feasibilityAnalysis"%string feasibilityScoreOf).
  fold (score "impactAnalysis"%string impactScoreOf).
  unfold withinExact. repeat case_bool_decide; cbn [andb].
  - eexists _, _. split; [reflexivity |]. by apply roundDiv_bounds.
  - lia.
  - lia.
  - lia.
  - lia.
  - lia.
  - lia.
  - lia.
Qed.

Lemma concurrentSynthesisNode_overall_witness :
  match concurrentSynthesisNode "2025-09-18T14:56:26.950Z"
          (mkConcurrentState "t" [] "r" "u" []
             {[ "noveltyAnalysis"%string := NoveltyAnalysis "a" 0 "ts";
                "impactAnalysis"%string := ImpactAnalysis "b" 80 "ts" ]}) with
  | Some update =>
      ∃ overall summary,
        up_analysisResults update
        = Some {[ "synthesis"%string :=
                    Synthesis overall (generateRecommendation overall) summary
                      "2025-09-18T14:56:26.950Z" ]}
        ∧ 50 ≤ overall ≤ 80
  | None => 50 ≤ - 2 ^ 50 ∨ 2 ^ 50 ≤ 80
  end.
Proof.
  apply (concurrentSynthesisNode_overall "2025-09-18T14:56:26.950Z"
           (mkConcurrentState "t" [] "r" "u" []
              {[ "noveltyAnalysis"%string := NoveltyAnalysis "a" 0 "ts";
                 "impactAnalysis"%string := ImpactAnalysis "b" 80 "ts" ]}) 50 80);
    vm_compute; split; discriminate.
Defined.

(** The mock model never writes a score. *)
Lemma responseContent_score request : extractScore (responseContent request) = Some 50.
Proof.
  unfold responseContent.
  repeat (destruct (includes (req_prompt request) _); [vm_compute; reflexivity |]).
  vm_compute. reflexivity.
Qed.

(** What a scored analysis node returns when it returns. *)
Lemma scoredNode_update steps executePrompt isoNow stepName promptPrefix key entry
    stepLabel messagePrefix state update :
  scoredNode steps executePrompt isoNow stepName promptPrefix key entry stepLabel
    messagePrefix state = Some (Normal update) →
  ∃ data content score,
    steps !! stepName = Some data
    ∧ executePrompt
        {| req_model := StepData.model data;
           req_prompt :=
             promptPrefix +:+
             template (cs_analysisResults state !! "inputAnalysis"%string ≫= analysisOf);
           req_temperature := StepData.temperature data |} = Normal content
    ∧ extractScore content = Some score
    ∧ update = {| up_analysisResults := Some {[ key := entry content score isoNow ]};
                  up_currentSteps := Some [stepLabel];
                  up_messages := Some [AIMessage (messagePrefix +:+ content)] |}.
Proof.
  unfold scoredNode, StepMap_get. destruct (steps !! stepName) as [data|]; [|done].
  cbn [ThreadStore.getField]. destruct (executePrompt _) as [content|e] eqn:Hllm; [|done].
  destruct (extractScore content) as [score|] eqn:Hscore; [|done].
  intros [= <-]. by exists data, content, score.
Qed.

(** The analysis results after a list of updates has been reduced into a
    state, in the order of the list. *)
Lemma reduceUpdate_fold_analysis (updates : list ConcurrentUpdate) state :
  cs_analysisResults (fold_left reduceUpdate updates state)
  = foldr (fun u m => match up_analysisResults u with
                      | Some b => spreadReducer m b
                      | None => m
                      end)
          (cs_analysisResults state) (rev updates).
Proof.
  revert state. induction updates as [|u updates IH]; intros state; [done |].
  cbn [fold_left]. rewrite IH. cbn [rev]. rewrite foldr_app. done.
Qed.

Lemma fan_in_three (k1 k2 k3 : string) (e1 e2 e3 : AnalysisEntry) u1 u2 u3 order state :
  k1 ≠ k2 → k1 ≠ k3 → k2 ≠ k3 →
  up_analysisResults u1 = Some {[ k1 := e1 ]} →
  up_analysisResults u2 = Some {[ k2 := e2 ]} →
  up_analysisResults u3 = Some {[ k3 := e3 ]} →
  order ≡ₚ [u1; u2; u3] →
  cs_analysisResults (fold_left reduceUpdate order state)
  = <[k1 := e1]> (<[k2 := e2]> (<[k3 := e3]> (cs_analysisResults state))).
Proof.
  intros H12 H13 H23 Hu1 Hu2 Hu3 Hperm. rewrite reduceUpdate_fold_analysis.
  set (g := fun (u : ConcurrentUpdate) (m : gmap string AnalysisEntry) =>
              match up_analysisResults u with
              | Some b => spreadReducer m b
              | None => m
              end).
  assert (Hg1 : ∀ m, g u1 m = <[k1 := e1]> m).
  { intros m. unfold g. rewrite Hu1, spreadReducer_union. by rewrite insert_union_singleton_l. }
  assert (Hg2 : ∀ m, g u2 m = <[k2 := e2]> m).
  { intros m. unfold g. rewrite Hu2, spreadReducer_union. by rewrite insert_union_singleton_l. }
  assert (Hg3 : ∀ m, g u3 m = <[k3 := e3]> m).
  { intros m. unfold g. rewrite Hu3, spreadReducer_union. by rewrite insert_union_singleton_l. }
  transitivity (foldr g (cs_analysisResults state) [u1; u2; u3]).
  - symmetry. apply (foldr_permutation eq g).
    + solve_proper.
    + intros j1 a1 j2 a2 b Hne Hj1 Hj2.
      destruct j1 as [|[|[|?]]]; destruct j2 as [|[|[|?]]]; try done;
        simpl in Hj1, Hj2; injection Hj1 as <-; injection Hj2 as <-;
        rewrite ?Hg1, ?Hg2, ?Hg3; by apply insert_insert_ne.
    + etrans; [symmetry; exact Hperm | apply Permutation_rev].
  - simpl. by rewrite Hg1, Hg2, Hg3.
Qed.

(** X18. Fan-in of the three concurrent analyses. Each of the novelty, the
    feasibility and the impact node reads its step data, asks the model with
    its own prompt about the input analysis of the state, and reads the
    clock for its timestamp. When the three nodes have each returned an
    update, reducing the three updates into the state gives the same analysis
    results in whichever order they arrive: under the key of each node, the
    response the model gave to that node's request, the score extracted from
    that response and that node's timestamp; every other key of the state
    keeps its value. *)
Theorem concurrent_analyses_fan_in steps executePrompt isoNovelty isoFeasibility isoImpact
    state un uf ui order :
  concurrentNoveltyAnalysisNode steps executePrompt isoNovelty state = Some (Normal un) →
  concurrentFeasibilityAnalysisNode steps executePrompt isoFeasibility state
  = Some (Normal uf) →
  concurrentImpactAnalysisNode steps executePrompt isoImpact state = Some (Normal ui) →
  order ≡ₚ [un; uf; ui] →
  let merged := cs_analysisResults (fold_left reduceUpdate order state) in
  let input := template (cs_analysisResults state !! "inputAnalysis"%string ≫= analysisOf) in
  (∃ data content score,
     steps !! "concurrentNoveltyAnalysisNode"%string = Some data
     ∧ executePrompt {| req_model := StepData.model data;
                        req_prompt := "Analyze novelty based on: " +:+ input;
                        req_temperature := StepData.temperature data |} = Normal content
     ∧ extractScore content = Some score
     ∧ merged !! "noveltyAnalysis"%string
       = Some (NoveltyAnalysis content score isoNovelty))
  ∧ (∃ data content score,
       steps !! "concurrentFeasibilityAnalysisNode"%string = Some data
       ∧ executePrompt {| req_model := StepData.model data;
                          req_prompt := "Analyze technical feasibility based on: " +:+ input;
                          req_temperature := StepData.temperature data |} = Normal content
       ∧ extractScore content = Some score
       ∧ merged !! "feasibilityAnalysis"%string
         = Some (FeasibilityAnalysis content score isoFeasibility))
  ∧ (∃ data content score,
       steps !! "impactAnalysisNode"%string = Some data
       ∧ executePrompt {| req_model := StepData.model data;
                          req_prompt := "Analyze market impact based on: " +:+ input;
                          req_temperature := StepData.temperature data |} = Normal content
       ∧ extractScore content = Some score
       ∧ merged !! "impactAnalysis"%string = Some (ImpactAnalysis content score isoImpact))
  ∧ ∀ k, k ≠ "noveltyAnalysis"%string → k ≠ "feasibilityAnalysis"%string →
         k ≠ "impactAnalysis"%string → merged !! k = cs_analysisResults state !! k.
Proof.
  intros Hn Hf Hi Hperm merged input.
  apply scoredNode_update in Hn as (dn & cn & sn & Hdn & Hcn & Hsn & Hn).
  apply scoredNode_update in Hf as (df & cf & sf & Hdf & Hcf & Hsf & Hf).
  apply scoredNode_update in Hi as (di & ci & si & Hdi & Hci & Hsi & Hi).
  subst merged.
  rewrite (fan_in_three "noveltyAnalysis" "feasibilityAnalysis" "impactAnalysis"
             (NoveltyAnalysis cn sn isoNovelty)
             (FeasibilityAnalysis cf sf isoFeasibility)
             (ImpactAnalysis ci si isoImpact) un uf ui order state);
    [| done | done | done | by rewrite Hn | by rewrite Hf | by rewrite Hi | done].
  split_and!.
  - exists dn, cn, sn. split_and!; [done | done | done |]. by rewrite lookup_insert_eq.
  - exists df, cf, sf. split_and!; [done | done | done |].
    rewrite lookup_insert_ne by done. by rewrite lookup_insert_eq.
  - exists di, ci, si. split_and!; [done | done | done |].
    do 2 (rewrite lookup_insert_ne by done). by rewrite lookup_insert_eq.
  - intros k H1 H2 H3. by do 3 (rewrite lookup_insert_ne by done).
Qed.

Lemma concurrent_analyses_fan_in_witness :
  let un := ResearchSamples.scoredUpdate "noveltyAnalysis" NoveltyAnalysis
              "concurrent_novelty_analysis" "Novelty Analysis: " "Rather new: 70/100" 70
              "2025-09-18T14:56:27.100Z" in
  let uf := ResearchSamples.scoredUpdate "feasibilityAnalysis" FeasibilityAnalysis
              "concurrent_feasibility_analysis" "Feasibility Analysis: " "Feasible, 90%" 90
              "2025-09-18T14:56:27.300Z" in
  let ui := ResearchSamples.scoredUpdate "impactAnalysis" ImpactAnalysis
              "concurrent_impact_analysis" "Impact Analysis: " "Impact 40/100" 40
              "2025-09-18T14:56:27.200Z" in
  let merged :=
    cs_analysisResults (fold_left reduceUpdate [ui; un; uf] ResearchSamples.researchState) in
  let steps := ResearchSamples.researchSteps in
  let executePrompt := ResearchSamples.scoringModel in
  let input := "Mock LLM response"%string in
  (∃ data content score,
     steps !! "concurrentNoveltyAnalysisNode"%string = Some data
     ∧ executePrompt {| req_model := StepData.model data;
                        req_prompt := "Analyze novelty based on: " +:+ input;
                        req_temperature := StepData.temperature data |} = Normal content
     ∧ extractScore content = Some score
     ∧ merged !! "noveltyAnalysis"%string
       = Some (NoveltyAnalysis content score "2025-09-18T14:56:27.100Z"))
  ∧ (∃ data content score,
       steps !! "concurrentFeasibilityAnalysisNode"%string = Some data
       ∧ executePrompt {| req_model := StepData.model data;
                          req_prompt := "Analyze technical feasibility based on: " +:+ input;
                          req_temperature := StepData.temperature data |} = Normal content
       ∧ extractScore content = Some score
       ∧ merged !! "feasibilityAnalysis"%string
         = Some (FeasibilityAnalysis content score "2025-09-18T14:56:27.300Z"))
  ∧ (∃ data content score,
       steps !! "impactAnalysisNode"%string = Some data
       ∧ executePrompt {| req_model := StepData.model data;
                          req_prompt := "Analyze market impact based on: " +:+ input;
                          req_temperature := StepData.temperature data |} = Normal content
       ∧ extractScore content = Some score
       ∧ merged !! "impactAnalysis"%string
         = Some (ImpactAnalysis content score "2025-09-18T14:56:27.200Z"))
  ∧ ∀ k, k ≠ "noveltyAnalysis"%string → k ≠ "feasibilityAnalysis"%string →
         k ≠ "impactAnalysis"%string →
         merged !! k = cs_analysisResults ResearchSamples.researchState !! k.
Proof.
  intros un uf ui merged steps executePrompt input.
  apply (concurrent_analyses_fan_in ResearchSamples.researchSteps
           ResearchSamples.scoringModel "2025-09-18T14:56:27.100Z"
           "2025-09-18T14:56:27.300Z" "2025-09-18T14:56:27.200Z"
           ResearchSamples.researchState un uf ui [ui; un; uf]).
  - vm_compute. reflexivity.
  - vm_compute. reflexivity.
  - vm_compute. reflexivity.
  - etrans; [apply Permutation_swap |]. apply Permutation_skip, Permutation_swap.
Defined.

(** X19. With the mock language model of the repository the concurrent
    research always ends in the same verdict: whatever the state, the step
    data and the clock readings, when the three analysis nodes have returned
    and their updates have been reduced into the state in any order, the
    synthesis has overall score 50 and recommends to proceed with caution,
    because no answer of the mock model carries a score. *)
Theorem mock_model_synthesis steps isoNovelty isoFeasibility isoImpact isoSynthesis state
    un uf ui order :
  concurrentNoveltyAnalysisNode steps LLMService.executePrompt isoNovelty state
  = Some (Normal un) →
  concurrentFeasibilityAnalysisNode steps LLMService.executePrompt isoFeasibility state
  = Some (Normal uf) →
  concurrentImpactAnalysisNode steps LLMService.executePrompt isoImpact state
  = Some (Normal ui) →
  order ≡ₚ [un; uf; ui] →
  up_analysisResults
    <$> concurrentSynthesisNode isoSynthesis (fold_left reduceUpdate order state)
  = Some (Some {[ "synthesis"%string :=
                    Synthesis 50 "Proceed with caution, needs significant work"
                      "Research complete. Novelty: 50, Feasibility: 50, Impact: 50"
                      isoSynthesis ]}).
Proof.
  intros Hn Hf Hi Hperm.
  apply scoredNode_update in Hn as (dn & cn & sn & _ & Hcn & Hsn & Hn).
  apply scoredNode_update in Hf as (df & cf & sf & _ & Hcf & Hsf & Hf).
  apply scoredNode_update in Hi as (di & ci & si & _ & Hci & Hsi & Hi).
  assert (sn = 50) as ->.
  { injection Hcn as <-. rewrite responseContent_score in Hsn. by injection Hsn. }
  assert (sf = 50) as ->.
  { injection Hcf as <-. rewrite responseContent_score in Hsf. by injection Hsf. }
  assert (si = 50) as ->.
  { injection Hci as <-. rewrite responseContent_score in Hsi. by injection Hsi. }
  unfold concurrentSynthesisNode. cbv zeta.
  rewrite (fan_in_three "noveltyAnalysis" "feasibilityAnalysis" "impactAnalysis"
             (NoveltyAnalysis cn 50 isoNovelty) (FeasibilityAnalysis cf 50 isoFeasibility)
             (ImpactAnalysis ci 50 isoImpact) un uf ui order state);
    [| done | done | done | by rewrite Hn | by rewrite Hf | by rewrite Hi | done].
  rewrite lookup_insert_eq.
  rewrite (lookup_insert_ne _ "noveltyAnalysis" "feasibilityAnalysis") by done.
  rewrite lookup_insert_eq.
  do 2 (rewrite (lookup_insert_ne _ _ "impactAnalysis") by done).
  rewrite lookup_insert_eq. reflexivity.
Qed.

Lemma mock_model_synthesis_witness :
  let un := ResearchSamples.scoredUpdate "noveltyAnalysis" NoveltyAnalysis
              "concurrent_novelty_analysis" "Novelty Analysis: "
              "This invention shows moderate novelty with some innovative aspects..." 50
              "2025-09-18T14:56:27.100Z" in
  let uf := ResearchSamples.scoredUpdate "feasibilityAnalysis" FeasibilityAnalysis
              "concurrent_feasibility_analysis" "Feasibility Analysis: "
              "The technical feasibility appears strong with current technology..." 50
              "2025-09-18T14:56:27.300Z" in
  let ui := ResearchSamples.scoredUpdate "impactAnalysis" ImpactAnalysis
              "concurrent_impact_analysis" "Impact Analysis: "
              "The potential impact could be significant in the target market..." 50
              "2025-09-18T14:56:27.200Z" in
  up_analysisResults
    <$> concurrentSynthesisNode "2025-09-18T14:56:28.000Z"
          (fold_left reduceUpdate [uf; un; ui] ResearchSamples.researchState)
  = Some (Some {[ "synthesis"%string :=
                    Synthesis 50 "Proceed with caution, needs significant work"
                      "Research complete. Novelty: 50, Feasibility: 50, Impact: 50"
                      "2025-09-18T14:56:28.000Z" ]}).
Proof.
  intros un uf ui.
  apply (mock_model_synthesis ResearchSamples.researchSteps "2025-09-18T14:56:27.100Z"
           "2025-09-18T14:56:27.300Z" "2025-09-18T14:56:27.200Z"
           "2025-09-18T14:56:28.000Z" ResearchSamples.researchState un uf ui [uf; un; ui]).
  - vm_compute. reflexivity.
  - vm_compute. reflexivity.
  - vm_compute. reflexivity.
  - apply Permutation_swap.
Defined.

(** X20. The concurrent impact analysis reads the step of
    [impactAnalysisNode], not its own. After [dynamicLoadNodes] has loaded a
    node list that names [concurrentImpactAnalysisNode] and not
    [impactAnalysisNode], into a service with no step of that name, the node
    function is registered and has a step of its own, yet every run of the
    node throws, before the model is asked. *)
Theorem concurrentImpactAnalysisNode_reads_other_step spec fns steps executePrompt isoNow
    state :
  let listed := GraphJsonNodeSpec.name <$> default [] (spec ≫= spec_nodes) in
  "concurrentImpactAnalysisNode"%string ∈ listed →
  "impactAnalysisNode"%string ∉ listed →
  steps !! "impactAnalysisNode"%string = None →
  let loaded := dynamicLoadNodes spec (fns, steps) in
  loaded.1 !! "concurrentImpactAnalysisNode"%string
  = Some (Method "concurrentImpactAnalysisNode")
  ∧ is_Some (StepMap_get loaded.2 "concurrentImpactAnalysisNode")
  ∧ concurrentImpactAnalysisNode loaded.2 executePrompt isoNow state
    = Some (Throw (TypeError "Cannot read properties of undefined (reading 'model')")).
Proof.
  intros listed Hin Hnot Hnone loaded.
  assert (Hproto : "concurrentImpactAnalysisNode"%string ∈ prototypeNames).
  { unfold prototypeNames. repeat (apply elem_of_cons; first [by left | right]). }
  destruct (dynamicLoadNodes_lookup (default [] (spec ≫= spec_nodes)) (fns, steps)
              "concurrentImpactAnalysisNode") as [Hfn Hstep].
  destruct (dynamicLoadNodes_lookup (default [] (spec ≫= spec_nodes)) (fns, steps)
              "impactAnalysisNode") as [_ Hstep'].
  fold (dynamicLoadNodes spec (fns, steps)) in Hfn, Hstep, Hstep'.
  fold loaded in Hfn, Hstep, Hstep'. fold listed in Hfn, Hstep, Hstep'.
  split_and!.
  - rewrite Hfn. by rewrite decide_True.
  - unfold StepMap_get. apply Hstep. by left.
  - unfold concurrentImpactAnalysisNode, scoredNode, StepMap_get.
    destruct (loaded.2 !! "impactAnalysisNode"%string) as [data|] eqn:Hget; [|done].
    exfalso. destruct (proj1 Hstep') as [[Hl _] | Hs]; [by eexists | done |].
    cbn [snd] in Hs. rewrite Hnone in Hs. by destruct Hs.
Qed.

Lemma concurrentImpactAnalysisNode_reads_other_step_witness :
  let loaded := dynamicLoadNodes (Some ResearchSamples.concurrentOnlySpec) (∅, ∅) in
  loaded.1 !! "concurrentImpactAnalysisNode"%string
  = Some (Method "concurrentImpactAnalysisNode")
  ∧ is_Some (StepMap_get loaded.2 "concurrentImpactAnalysisNode")
  ∧ concurrentImpactAnalysisNode loaded.2 LLMService.executePrompt "ts"
      ResearchSamples.researchState
    = Some (Throw (TypeError "Cannot read properties of undefined (reading 'model')")).
Proof.
  apply (concurrentImpactAnalysisNode_reads_other_step
           (Some ResearchSamples.concurrentOnlySpec) ∅ ∅ LLMService.executePrompt "ts"
           ResearchSamples.researchState).
  - vm_compute. apply elem_of_cons. right. apply elem_of_cons. by left.
  - vm_compute. intros H. apply elem_of_cons in H as [H | H]; [done |].
    apply elem_of_cons in H as [H | H]; [done |]. by apply elem_of_nil in H.
  - reflexivity.
Defined.

End AnalysisLaws.

(** ** The router and the registry together *)

Module RoutingLaws.
Import JS GraphBuilder GraphLoading Orchestrator RegistryRuns.

Section AnyLibrary.
Context {L : LangGraph}.
Implicit Types this : Service L.

Lemma runRegistryCall_invariant this call :
  vocabularyInvariant this → vocabularyInvariant (runRegistryCall this call).
Proof.
  intros (Hnd & Hord & Hproto & Hinv). destruct call as [item | graphName];
    cbn [runRegistryCall].
  - split_and!.
    + by apply RegistryTheory.registerGraphFromSpec_NoDup.
    + rewrite RegistryLaws.registerGraphFromSpec_builderOf.
      destruct (acceptedBuilder this item) as [b|]; [|done].
      by apply MapFacts.Object_set_ordered.
    + rewrite RegistryLaws.registerGraphFromSpec_builderOf.
      destruct (acceptedBuilder this item) as [b|]; [|done].
      by apply MapFacts.Object_set_never_proto.
    + by apply RegistryLaws.vocabularyHasBuilders_register.
  - destruct (RegistryLaws.getDynamicGraph_keeps graphName this) as (Hb & _ & Hw & _).
    unfold vocabularyInvariant, vocabularyHasBuilders. rewrite Hb, Hw. by split_and!.
Qed.

Lemma runRegistryCalls_invariant calls fns :
  vocabularyInvariant (fold_left (runRegistryCall (L := L)) calls (freshService fns)).
Proof.
  induction calls as [|call calls IH] using rev_ind.
  - split_and!; [constructor | constructor | done |]. intros n [ws Hws]. discriminate Hws.
  - rewrite fold_left_app. cbn [fold_left]. by apply runRegistryCall_invariant.
Qed.

(** X21. The router and the registry together. In a service reached from the
    freshly constructed one by any sequence of [registerGraphFromSpec] and
    [getDynamicGraph] calls, the entries the router walks are in the order
    of [Object.entries] (array-index names first, in ascending order), and
    [scoreGraphsAndSelectOne] returns [undefined] only when no graph is
    listed. Otherwise it returns a listed name, which is never [__proto__]
    (a graph registered under that name gets no entry) and which has a
    builder of its own. [getDynamicGraph] for the returned name never gives
    the not-found result: it returns the cached graph, or compiles that
    builder and returns the result or throws what the compilation throws;
    but when the name is a property name of [Object.prototype] and nothing
    is cached under it, what it returns is that member of
    [Object.prototype], not a graph. *)
Theorem routed_graph_is_retrievable (calls : list RegistryCall) fns cfg clock message
    hist :
  let this := fold_left (runRegistryCall (L := L)) calls (freshService fns) in
  propertyOrdered (Map_keys (getAllGraphsAndSelectionWords this))
  ∧ match scoreGraphsAndSelectOne cfg clock message hist
            (getAllGraphsAndSelectionWords this) with
    | None => graphSelectionWords this = []
    | Some graphType =>
        graphType ≠ "__proto__"%string
        ∧ is_Some (Map_get (graphSelectionWords this) graphType)
        ∧ ∃ builder,
            dynamicGraphBuilders this !! graphType = Some builder
            ∧ match (getDynamicGraph graphType this).2 with
              | Normal (Some (Own graph)) =>
                  dynamicGraphs this !! graphType = Some graph
                  ∨ (dynamicGraphs this !! graphType = None
                     ∧ (graphType ∉ objectPrototypeNames)
                     ∧ compile L builder = Normal graph)
              | Normal (Some (Inherited member)) =>
                  member = graphType
                  ∧ graphType ∈ objectPrototypeNames
                  ∧ dynamicGraphs this !! graphType = None
                  ∧ (getDynamicGraph graphType this).1 = this
              | Normal None => False
              | Throw e =>
                  dynamicGraphs this !! graphType = None
                  ∧ (graphType ∉ objectPrototypeNames)
                  ∧ compile L builder = Throw e
              end
    end.
Proof.
  intros this. destruct (runRegistryCalls_invariant calls fns) as (Hnd & Hord & Hproto & Hinv).
  fold this in Hnd, Hord, Hproto, Hinv. split; [exact Hord |].
  unfold scoreGraphsAndSelectOne, getAllGraphsAndSelectionWords.
  cbv zeta. rewrite RoutingTheory.scoreGraphs_table by done.
  destruct (RoutingTheory.pickMax_fold
              (scoreTable cfg clock message hist 0 (graphSelectionWords this)))
    as [[Hnil Hf] | (pre & key & s & post & Heq & Hf & _ & _)].
  - intros k v. apply RoutingTheory.scoreTable_Num.
  - rewrite Hf. cbn [fst]. apply (f_equal Map_keys) in Hnil.
    rewrite RoutingTheory.scoreTable_keys in Hnil. by apply fmap_nil_inv in Hnil.
  - rewrite Hf. cbn [fst].
    assert (Hvoc : is_Some (Map_get (graphSelectionWords this) key)).
    { destruct (Map_get (graphSelectionWords this) key) eqn:Hget; [by eexists |].
      exfalso. apply MapFacts.Map_get_None in Hget. apply Hget.
      rewrite <- (RoutingTheory.scoreTable_keys cfg message hist clock 0), Heq.
      unfold Map_keys. rewrite fmap_app. apply elem_of_app. right.
      apply elem_of_cons. by left. }
    split_and!; [| done |].
    + intros ->. rewrite Hproto in Hvoc. by destruct Hvoc.
    + destruct (Hinv _ Hvoc) as [b Hb]. exists b. split; [done |].
      by apply RegistryLaws.getDynamicGraph_with_builder.
Qed.

End AnyLibrary.

End RoutingLaws.

(** ** The hard-coded system and the orchestrator *)

Module LegacyLaws.
Import JS GraphBuilder NewThreadState Legacy.

(** X22. What the hard-coded [executeResearch] does with a thread. A thread
    with no state in either graph is started: the graph is the monetization
    graph exactly when the message contains [@monetize], and the initial
    state is the one the orchestrator's [getInitialStateForNewThread] builds
    for [monetizationGraph] or [researchGraph]. A thread that has state is
    resumed with the new message alone and never changes its graph: it goes
    to the monetization graph exactly when that graph has state for it,
    whatever the message says. *)
Theorem executeResearch_routes message activeThreadId rootId userId conversationContext
    researchCreatedAt monetizationCreatedAt :
  let call := executeResearch message activeThreadId rootId userId conversationContext
                researchCreatedAt monetizationCreatedAt in
  call_thread_id call
  = (if call_monetization call then "monetization_" else "research_") +:+ activeThreadId
  ∧ (truthy researchCreatedAt = false → truthy monetizationCreatedAt = false →
     call_monetization call = includes message "@monetize"
     ∧ call_input call
       = InitialState
           (getInitialStateForNewThread
              {| graphType := if includes message "@monetize" then "monetizationGraph"
                              else "researchGraph";
                 NewThreadState.message := message;
                 NewThreadState.conversationContext := conversationContext;
                 NewThreadState.userId := userId;
                 threadId := activeThreadId;
                 rootThreadId := rootId |}))
  ∧ (truthy researchCreatedAt = true ∨ truthy monetizationCreatedAt = true →
     call_monetization call = truthy monetizationCreatedAt
     ∧ call_input call = Resume [HumanMessage message]).
Proof.
  intros call. subst call. unfold executeResearch. cbv zeta.
  destruct (truthy researchCreatedAt) eqn:Hr, (truthy monetizationCreatedAt) eqn:Hm;
    cbn [negb andb]; rewrite ?Hr, ?Hm; cbn [negb].
  - split_and!; [done | done |]. by intros _.
  - split_and!; [done | done |]. by intros _.
  - split_and!; [done | done |]. by intros _.
  - destruct (includes message "@monetize") eqn:Hi; rewrite ?Hr, ?Hm; cbn [negb].
    + split_and!; [done | | by intros [? | ?]]. intros _ _. split; [done |].
      reflexivity.
    + split_and!; [done | | by intros [? | ?]]. intros _ _. split; [done |].
      reflexivity.
Qed.

End LegacyLaws.
